(** * Arctic-Tracker-API: the CITES trade reconciliation pipeline

    A shallow embedding of the parts of the repository that carry the
    pipeline's stated properties:

    - [core/optimize_species_trade_json.py] (lookup tables, normalized
      records) and the two readers of the optimized format,
    - [cites_migration_2025/scripts/extract_arctic_trade_data.py]
      (streaming extraction and its counters),
    - [cites_migration_2025/load_to_staging.py] and
      [resume_staging_load.py] (staging loader),
    - [cites_migration_2025/validate_staging.py] (record-count check),
    - [cites_migration_2025/execute_final_migration.py] (merge),
    - [cites_migration_2025/backup_cites_data.py] (backup validation).

    Python values are modelled as the code has them: [str] as [string],
    [int] ids and counts that cannot be negative as [nat] or [Z], the
    batch sizes of the command lines, which can be any [int], as [Z],
    [None] as an absent [option], what [int(row['Year'])] gives as an
    [option] that is absent when the conversion raises,
    a [dict] whose order is serialized as an association list in
    insertion order, a [dict] used only as a map as [gmap], a [set] as
    [gset].  A [float] is a value that is stored and passed on; the one
    float comparison, in the record-count check, is exact.  Logging is
    dropped, except where the logged expression can raise.

    The database is outside the repository.  It is modelled as a state
    machine: three tables, a flag telling whether requests go through,
    and the log of the calls received.  The flag changes between two
    requests only where a run is given the outages it goes through
    ([reachability_becomes]); otherwise an outage lasts for the run.  A
    bulk insert is one statement, stored as a whole or rejected as a
    whole; the production table rejects a statement that would repeat a
    natural key. *)

From Stdlib Require Import ZArith QArith.
From stdpp Require Import base option list strings gmap sorting pretty.

Local Open Scope string_scope.
Local Open Scope list_scope.
Local Open Scope nat_scope.

(** ** Python base model *)

Module Py.

(** [dict] in insertion order.  Keys are unique in every dictionary built
    below, so the first match is the only one. *)
Definition dict (K V : Type) : Type := list (K * V).

Fixpoint dict_get {K V} `{EqDecision K} (k : K) (d : dict K V) : option V :=
  match d with
  | [] => None
  | (k', v) :: d' => if decide (k = k') then Some v else dict_get k d'
  end.

(** [d[k] = v]: overwrite in place, or append a new key. *)
Fixpoint dict_set {K V} `{EqDecision K} (k : K) (v : V) (d : dict K V) : dict K V :=
  match d with
  | [] => [(k, v)]
  | (k', v') :: d' =>
      if decide (k = k') then (k, v) :: d' else (k', v') :: dict_set k v d'
  end.

(** [d.update(other)] *)
Definition dict_update {K V} `{EqDecision K} (d other : dict K V) : dict K V :=
  foldl (λ acc kv, dict_set kv.1 kv.2 acc) d other.

Definition dict_keys {K V} (d : dict K V) : list K := d.*1.

(** [enumerate(l, start)] *)
Fixpoint enumerate_from {A} (start : nat) (l : list A) : list (nat * A) :=
  match l with
  | [] => []
  | x :: l' => (start, x) :: enumerate_from (S start) l'
  end.

Definition enumerate {A} (l : list A) : list (nat * A) := enumerate_from 0 l.

(** The slices [l[i:i + size]] for [i in range(0, len(l), size)], for a
    positive [size]. *)
Definition batches {A} (size : nat) (l : list A) : list (list A) :=
  (λ k, take size (drop (k * size) l))
    <$> seq 0 ((length l + size - 1) `div` size).

(** The same slices for an [int] step that is not zero:
    [range(0, n, size)] is empty when [size] is negative.  (A step of
    zero makes [range] raise.) *)
Definition range_batches {A} (size : Z) (l : list A) : list (list A) :=
  if (0 <? size)%Z then batches (Z.to_nat size) l else [].

(** [s.lower()], on the ASCII letters (enough to compare with ASCII
    text). *)
Definition ascii_lower (c : Ascii.ascii) : Ascii.ascii :=
  let n := Ascii.N_of_ascii c in
  if (65 <=? n)%N && (n <=? 90)%N then Ascii.ascii_of_N (n + 32) else c.

Fixpoint lower (s : string) : string :=
  match s with
  | EmptyString => EmptyString
  | String c s' => String (ascii_lower c) (lower s')
  end.

(** A [float]: a finite number, an infinity, or NaN.  Floats are only
    stored and passed on, as values. *)
Inductive pyfloat : Type :=
  | Finite (q : Q)
  | Infinite (negative : bool)
  | NaN.

(** Dictionary keys are [int] or [str]; the two never compare equal. *)
Inductive key : Type :=
  | KInt (n : nat)
  | KStr (s : string).

#[global] Instance key_eq_dec : EqDecision key.
Proof. solve_decision. Defined.

(** [str(n)] for a non-negative [int]. *)
Definition str_of_int (n : nat) : string := pretty n.

(** The key [str(n)]. *)
Definition str_key (n : nat) : key := KStr (str_of_int n).

(** A dictionary all of whose keys are [int]. *)
Definition int_keyed {V} (d : dict key V) : Prop :=
  Forall (λ kv, ∃ n, kv.1 = KInt n) d.

(** Python compares tuples lexicographically, element by element; a proper
    prefix is smaller. *)
Fixpoint tuple_le (t1 t2 : list string) : Prop :=
  match t1, t2 with
  | [], _ => True
  | _ :: _, [] => False
  | x :: t1', y :: t2' => (x ≠ y ∧ String.le x y) ∨ (x = y ∧ tuple_le t1' t2')
  end.

#[global] Instance tuple_le_dec : RelDecision tuple_le.
Proof.
  intros t1. induction t1 as [|x t1 IH]; intros [|y t2]; simpl.
  - left; exact I.
  - left; exact I.
  - right; tauto.
  - destruct (IH t2); apply _.
Defined.

(** Iterating over a [set] yields its elements once each, in an order that
    depends on the hashes of the run (string hashing is randomized per
    process). *)
Class SetIteration : Type := {
  iterate : ∀ {A} `{Countable A}, gset A → list A;
  iterate_perm : ∀ {A} `{Countable A} (s : gset A), iterate s ≡ₚ elements s
}.

(** One possible run. *)
Definition a_run : SetIteration :=
  {| iterate := λ A _ _ s, elements s;
     iterate_perm := λ A _ _ s, reflexivity (elements s) |}.

(** [l] lists the values that are [present] once each, in increasing
    order. *)
Definition increasing_listing {A} (R : relation A) (present : A → Prop)
    (l : list A) : Prop :=
  Sorted R l ∧ NoDup l ∧ ∀ x, x ∈ l ↔ present x.

(** [sorted(s)] for a set [s]: a stable sort of the iteration order. *)
Definition sorted_set `{SetIteration} {A} `{Countable A} (R : relation A)
    `{!RelDecision R} (s : gset A) : list A :=
  merge_sort R (iterate s).

End Py.

(** ** Normalization engine: [core/optimize_species_trade_json.py] *)

Module Optimizer.
Import Py.

(** The thirteen fields that go through the lookup tables. *)
Inductive field : Type :=
  | Appendix | Class | Order | Family | Genus
  | Importer | Exporter | Origin
  | Term | Purpose | Source | ReporterType | Unit.

#[global] Instance field_eq_dec : EqDecision field.
Proof. solve_decision. Defined.

Definition field_name (f : field) : string :=
  match f with
  | Appendix => "appendix" | Class => "class" | Order => "order"
  | Family => "family" | Genus => "genus"
  | Importer => "importer" | Exporter => "exporter" | Origin => "origin"
  | Term => "term" | Purpose => "purpose" | Source => "source"
  | ReporterType => "reporter_type" | Unit => "unit"
  end.

(** A trade record as [extract_species_trade_data.py] writes it: the
    lookup-covered fields are strings read from the CSV row. *)
Record TradeRecord : Type := {
  tr_id : string;
  tr_year : option Z;
  tr_appendix : string;
  tr_class : string;
  tr_order : string;
  tr_family : string;
  tr_genus : string;
  tr_term : string;
  tr_quantity_raw : string;
  tr_quantity_normalized : option pyfloat;
  tr_unit : string;
  tr_importer : string;
  tr_exporter : string;
  tr_origin : string;
  tr_purpose : string;
  tr_source : string;
  tr_reporter_type : string;
  tr_source_file : string;
  tr_row_number : option Z
}.

(** [record.get(field, '')] *)
Definition rget (record : TradeRecord) (f : field) : string :=
  match f with
  | Appendix => tr_appendix record | Class => tr_class record
  | Order => tr_order record | Family => tr_family record
  | Genus => tr_genus record
  | Importer => tr_importer record | Exporter => tr_exporter record
  | Origin => tr_origin record
  | Term => tr_term record | Purpose => tr_purpose record
  | Source => tr_source record | ReporterType => tr_reporter_type record
  | Unit => tr_unit record
  end.

Definition static_fields : list field := [Appendix; Class; Order; Family; Genus].
Definition location_fields : list field := [Importer; Exporter; Origin].
Definition categorical_fields : list field :=
  [Term; Purpose; Source; ReporterType; Unit].

Definition static_names : list string := field_name <$> static_fields.

Definition is_static (f : field) : bool :=
  match f with
  | Appendix | Class | Order | Family | Genus => true
  | _ => false
  end.

Definition is_location (f : field) : bool :=
  match f with
  | Importer | Exporter | Origin => true
  | _ => false
  end.

(** [lookup_tables]: four dictionaries.  The ids are Python [int] keys. *)
Record LookupTables : Type := {
  taxonomic : dict key (dict string string);
  locations : dict key string;
  categorical : dict string (dict string nat);
  categorical_reverse : dict string (dict key string)
}.

(** A normalized record; a key whose value was [None] is removed. *)
Record NormalizedRecord : Type := {
  n_id : string;
  n_year : option Z;
  n_taxonomic_id : option nat;
  n_term_id : option nat;
  n_quantity_raw : string;
  n_quantity_normalized : option pyfloat;
  n_unit_id : option nat;
  n_importer_id : option nat;
  n_exporter_id : option nat;
  n_origin_id : option nat;
  n_purpose_id : option nat;
  n_source_id : option nat;
  n_reporter_type_id : option nat;
  n_source_file : string;
  n_row_number : option Z
}.

(** [tuple(record.get(field, '') for field in static_fields)] *)
Definition static_combo (record : TradeRecord) : list string :=
  rget record <$> static_fields.

Definition static_combinations (trade_records : list TradeRecord)
    : gset (list string) :=
  list_to_set (static_combo <$> trade_records).

Section optimizer.
Context `{SetIteration}.

(** [{i: dict(zip(static_fields, combo)) for i, combo in enumerate(sorted(..))}] *)
Definition static_lookup (trade_records : list TradeRecord)
    : dict nat (dict string string) :=
  (λ ic : nat * list string, (ic.1, zip static_names ic.2))
    <$> enumerate (sorted_set tuple_le (static_combinations trade_records)).

(** Every non-empty value of a location field. *)
Definition all_locations (trade_records : list TradeRecord) : gset string :=
  list_to_set
    (filter (λ value, value ≠ "")
       (trade_records ≫= λ record, rget record <$> location_fields)).

(** [{val: i for i, val in enumerate(sorted(values))}] *)
Definition index_of_sorted (values : gset string) : dict string nat :=
  (λ iv : nat * string, (iv.2, iv.1)) <$> enumerate (sorted_set String.le values).

(** [{i: val for val, i in mapping.items()}] *)
Definition reverse_mapping (mapping : dict string nat) : dict key string :=
  (λ vi : string * nat, (KInt vi.2, vi.1)) <$> mapping.

Definition location_lookup (trade_records : list TradeRecord) : dict string nat :=
  index_of_sorted (all_locations trade_records).

Definition location_reverse (trade_records : list TradeRecord) : dict key string :=
  reverse_mapping (location_lookup trade_records).

(** [set(record.get(field, '') for record in trade_records)], then
    [values.discard('')]. *)
Definition field_values (trade_records : list TradeRecord) (f : field)
    : gset string :=
  list_to_set (flip rget f <$> trade_records) ∖ {[ "" ]}.

Definition categorical_lookup (trade_records : list TradeRecord)
    : dict string (dict string nat) :=
  (λ f, (field_name f, index_of_sorted (field_values trade_records f)))
    <$> categorical_fields.

Definition categorical_reverse_of (lookup : dict string (dict string nat))
    : dict string (dict key string) :=
  (λ fm : string * dict string nat, (fm.1, reverse_mapping fm.2)) <$> lookup.

(** [tuple(data[field] for field in static_fields)] *)
Definition data_tuple (data : dict string string) : list (option string) :=
  (λ f, dict_get (field_name f) data) <$> static_fields.

(** The linear search for the taxonomic id of a record. *)
Fixpoint find_taxonomic_id (table : dict nat (dict string string))
    (combo : list string) : option nat :=
  match table with
  | [] => None
  | (tid, data) :: table' =>
      if decide (data_tuple data = Some <$> combo) then Some tid
      else find_taxonomic_id table' combo
  end.

(** [categorical_lookup.get(name, {}).get(record.get(name, ''), None)] *)
Definition categorical_id (lookup : dict string (dict string nat))
    (record : TradeRecord) (f : field) : option nat :=
  dict_get (rget record f) (default [] (dict_get (field_name f) lookup)).

Definition normalize (trade_records : list TradeRecord) (record : TradeRecord)
    : NormalizedRecord :=
  let categorical_lookup := categorical_lookup trade_records in
  let location_lookup := location_lookup trade_records in
  {| n_id := tr_id record;
     n_year := tr_year record;
     n_taxonomic_id :=
       find_taxonomic_id (static_lookup trade_records) (static_combo record);
     n_term_id := categorical_id categorical_lookup record Term;
     n_quantity_raw := tr_quantity_raw record;
     n_quantity_normalized := tr_quantity_normalized record;
     n_unit_id := categorical_id categorical_lookup record Unit;
     n_importer_id := dict_get (tr_importer record) location_lookup;
     n_exporter_id := dict_get (tr_exporter record) location_lookup;
     n_origin_id := dict_get (tr_origin record) location_lookup;
     n_purpose_id := categorical_id categorical_lookup record Purpose;
     n_source_id := categorical_id categorical_lookup record Source;
     n_reporter_type_id := categorical_id categorical_lookup record ReporterType;
     n_source_file := tr_source_file record;
     n_row_number := tr_row_number record |}.

Definition lookup_tables_of (trade_records : list TradeRecord) : LookupTables :=
  {| taxonomic :=
       (λ td : nat * dict string string, (KInt td.1, td.2))
         <$> static_lookup trade_records;
     locations := location_reverse trade_records;
     categorical := categorical_lookup trade_records;
     categorical_reverse :=
       categorical_reverse_of (categorical_lookup trade_records) |}.

Definition extract_lookup_tables (trade_records : list TradeRecord)
    : LookupTables * list NormalizedRecord :=
  (lookup_tables_of trade_records, normalize trade_records <$> trade_records).

End optimizer.

(** [json.dump] followed by [json.load]: object keys come back as strings,
    an [int] key [n] as [str(n)]; values are unchanged. *)
Definition json_key (k : key) : key :=
  match k with
  | KInt n => KStr (str_of_int n)
  | KStr s => KStr s
  end.

Definition json_keys {V} (d : dict key V) : dict key V :=
  (λ kv : key * V, (json_key kv.1, kv.2)) <$> d.

Definition json_round_trip (lt : LookupTables) : LookupTables :=
  {| taxonomic := json_keys (taxonomic lt);
     locations := json_keys (locations lt);
     categorical := categorical lt;
     categorical_reverse :=
       (λ fm : string * dict key string, (fm.1, json_keys fm.2))
         <$> categorical_reverse lt |}.

End Optimizer.

(** ** Readers of the optimized format *)

Module Reader.
Import Py Optimizer.

(** A reconstructed record: the pass-through keys, and the keys that are
    filled from the lookup tables, in the order they are set. *)
Record FullRecord : Type := {
  f_id : string;
  f_year : option Z;
  f_quantity_raw : string;
  f_quantity_normalized : option pyfloat;
  f_source_file : string;
  f_row_number : option Z;
  f_fields : dict string string
}.

(** [full_record[name]], when the key is present. *)
Definition full_get (full : FullRecord) (f : field) : option string :=
  dict_get (field_name f) (f_fields full).

(** [record.get(field_id)] for the id keys of a normalized record. *)
Definition id_of (record : NormalizedRecord) (f : field) : option nat :=
  match f with
  | Importer => n_importer_id record
  | Exporter => n_exporter_id record
  | Origin => n_origin_id record
  | Term => n_term_id record
  | Purpose => n_purpose_id record
  | Source => n_source_id record
  | ReporterType => n_reporter_type_id record
  | Unit => n_unit_id record
  | _ => None
  end.

Section reader.
(** How a reader turns the [int] id stored in a record into the key it
    looks up: the id itself in [optimized_reader.py], [str(id)] in
    [load_optimized_trade_data.py]. *)
Variable key_of_id : nat → key.

(** [if taxonomic_id is not None and taxonomic_id in taxonomic_lookup:
       full_record.update(taxonomic_lookup[taxonomic_id])] *)
Definition add_taxonomic (lt : LookupTables) (record : NormalizedRecord)
    (full : dict string string) : dict string string :=
  match n_taxonomic_id record with
  | Some taxonomic_id =>
      match dict_get (key_of_id taxonomic_id) (taxonomic lt) with
      | Some data => dict_update full data
      | None => full
      end
  | None => full
  end.

Definition location_value (lt : LookupTables) (record : NormalizedRecord)
    (f : field) : string :=
  match id_of record f with
  | Some location_id =>
      default "" (dict_get (key_of_id location_id) (locations lt))
  | None => ""
  end.

Definition add_locations (lt : LookupTables) (record : NormalizedRecord)
    (full : dict string string) : dict string string :=
  foldl (λ acc f, dict_set (field_name f) (location_value lt record f) acc)
    full [Importer; Exporter; Origin].

Definition categorical_value (lt : LookupTables) (record : NormalizedRecord)
    (f : field) : string :=
  match id_of record f with
  | Some value_id =>
      match dict_get (field_name f) (categorical_reverse lt) with
      | Some mapping => default "" (dict_get (key_of_id value_id) mapping)
      | None => ""
      end
  | None => ""
  end.

Definition add_categorical (lt : LookupTables) (record : NormalizedRecord)
    (full : dict string string) : dict string string :=
  foldl (λ acc f, dict_set (field_name f) (categorical_value lt record f) acc)
    full [Term; Purpose; Source; ReporterType; Unit].

Definition denormalize (lt : LookupTables) (record : NormalizedRecord)
    : FullRecord :=
  {| f_id := n_id record;
     f_year := n_year record;
     f_quantity_raw := n_quantity_raw record;
     f_quantity_normalized := n_quantity_normalized record;
     f_source_file := n_source_file record;
     f_row_number := n_row_number record;
     f_fields :=
       add_categorical lt record
         (add_locations lt record (add_taxonomic lt record [])) |}.
End reader.

(** [OptimizedTradeDataReader.get_denormalized_records] of
    [optimized_reader.py]: ids are looked up as they are stored. *)
Definition get_denormalized_records (lt : LookupTables)
    (trade_records : list NormalizedRecord) : list FullRecord :=
  denormalize KInt lt <$> trade_records.

(** The reader of the same name in [core/load_optimized_trade_data.py]:
    every id is looked up as [str(id)], and the categorical loop runs over
    the items of [categorical_reverse], reading [record.get(f'{category}_id')]. *)
Definition all_fields : list field :=
  static_fields ++ location_fields ++ categorical_fields.

Definition id_by_name (record : NormalizedRecord) (name : string) : option nat :=
  f ← head (filter (λ f, field_name f = name) all_fields); id_of record f.

Definition loader_add_categorical (lt : LookupTables) (record : NormalizedRecord)
    (full : dict string string) : dict string string :=
  foldl (λ acc (item : string * dict key string),
           dict_set item.1
             (match id_by_name record item.1 with
              | Some cat_id => default "" (dict_get (str_key cat_id) item.2)
              | None => ""
              end) acc)
    full (categorical_reverse lt).

Definition loader_denormalize (lt : LookupTables) (record : NormalizedRecord)
    : FullRecord :=
  {| f_id := n_id record;
     f_year := n_year record;
     f_quantity_raw := n_quantity_raw record;
     f_quantity_normalized := n_quantity_normalized record;
     f_source_file := n_source_file record;
     f_row_number := n_row_number record;
     f_fields :=
       loader_add_categorical lt record
         (add_locations str_key lt record (add_taxonomic str_key lt record [])) |}.

Definition loader_get_denormalized_records (lt : LookupTables)
    (trade_records : list NormalizedRecord) : list FullRecord :=
  loader_denormalize lt <$> trade_records.

(** What [OptimizedTradeDataReader(path)] holds after the optimizer wrote
    the file at [path]: the tables and records after the JSON round trip. *)
Definition read_optimized_file `{SetIteration}
    (trade_records : list TradeRecord)
    : LookupTables * list NormalizedRecord :=
  let '(lookup_tables, normalized_records) := extract_lookup_tables trade_records in
  (json_round_trip lookup_tables, normalized_records).

End Reader.

(** ** The data store (Supabase) as the scripts use it *)

Module Store.
Import Py.

(** A row of [cites_trade_records_staging] and of [cites_trade_records],
    without the columns the database fills in ([id], [created_at],
    [updated_at]).  [species_id] is NaN (absent) when a taxon was not
    mapped. *)
Record StagingRecord : Type := {
  species_id : option string;
  year : Z;
  appendix : option string;
  taxon : string;
  class : option string;
  order_name : option string;
  family : option string;
  genus : option string;
  importer : option string;
  exporter : option string;
  origin : option string;
  importer_reported_quantity : option pyfloat;
  exporter_reported_quantity : option pyfloat;
  term : option string;
  unit : option string;
  purpose : option string;
  source : option string;
  data_source : string
}.

(** The two reported quantities of a record are the same value. *)
Definition quantities_agree (record : StagingRecord) : Prop :=
  importer_reported_quantity record = exporter_reported_quantity record.

(** What the database decides and the scripts only rely on: the natural
    key behind the uniqueness constraint of the production table, and the
    remaining row constraints of the two tables. *)
Class Schema : Type := {
  natural_key_type : Type;
  natural_key_eq_dec :: EqDecision natural_key_type;
  natural_key : StagingRecord → natural_key_type;
  staging_row_ok : StagingRecord → bool;
  production_row_ok : StagingRecord → bool
}.

(** The natural key of the migration's SQL: nullable columns are compared
    through [COALESCE(col, '')]. *)
Definition sql_natural_key (r : StagingRecord)
    : option string * Z * string * string * string * string * string
      * string * string :=
  (species_id r, year r, default "" (appendix r), taxon r,
   default "" (importer r), default "" (exporter r), default "" (term r),
   default "" (purpose r), default "" (source r)).

Inductive table : Type :=
  | Species | Staging | Production | StagingSummary.

(** Calls that reach the store. *)
Inductive call : Type :=
  | Select (t : table)
  | SelectCount (t : table)
  | Insert (t : table) (rows : nat)
  | DeleteAll (t : table).

Definition mutating (c : call) : bool :=
  match c with
  | Insert _ _ | DeleteAll _ => true
  | Select _ | SelectCount _ => false
  end.

(** Exceptions the scripts can see. *)
Inductive exn : Type :=
  | Unavailable          (* the request did not go through *)
  | DuplicateKey         (* "duplicate key value violates unique constraint" *)
  | ConstraintViolation  (* any other rejection of a row *)
  | ZeroDivisionError
  | ValueError
  | OutOfFuel.           (* artefact of the model: a loop bound ran out *)

#[global] Instance exn_eq_dec : EqDecision exn.
Proof. solve_decision. Defined.

(** The store: its tables, whether requests go through, and the calls
    received so far (most recent last). *)
Record db : Type := {
  species : list (string * string);   (* scientific_name, id *)
  staging : list StagingRecord;
  production : list StagingRecord;
  available : bool;
  calls : list call
}.

Definition tables (d : db)
    : list (string * string) * list StagingRecord * list StagingRecord :=
  (species d, staging d, production d).

(** [d'] is [d] after some calls none of which writes: same tables, same
    reachability, and only non-mutating calls added to the log. *)
Definition only_reads (d d' : db) : Prop :=
  tables d' = tables d
  ∧ available d' = available d
  ∧ ∃ reads, calls d' = calls d ++ reads
             ∧ Forall (λ c, mutating c = false) reads.

(** State and exception monad over the store. *)
Definition M (A : Type) : Type := db → (exn + A) * db.

Definition ret {A} (a : A) : M A := λ d, (inr a, d).
Definition raise {A} (e : exn) : M A := λ d, (inl e, d).
Definition bind {A B} (m : M A) (k : A → M B) : M B :=
  λ d, match m d with
       | (inl e, d') => (inl e, d')
       | (inr a, d') => k a d'
       end.
(** [try: m  except Exception as e: handler(e)] *)
Definition try_except {A} (m : M A) (handler : exn → M A) : M A :=
  λ d, match m d with
       | (inl e, d') => handler e d'
       | (inr a, d') => (inr a, d')
       end.

#[global] Instance M_ret : MRet M := @ret.
#[global] Instance M_bind : MBind M := λ A B k m, bind m k.

Definition gets {A} (f : db → A) : M A := λ d, (inr (f d), d).
Definition modify (f : db → db) : M () := λ d, (inr (), f d).

Definition logged (c : call) (d : db) : db :=
  {| species := species d; staging := staging d;
     production := production d; available := available d;
     calls := calls d ++ [c] |}.

Definition with_staging (rows : list StagingRecord) (d : db) : db :=
  {| species := species d; staging := rows;
     production := production d; available := available d;
     calls := calls d |}.

Definition with_production (rows : list StagingRecord) (d : db) : db :=
  {| species := species d; staging := staging d;
     production := rows; available := available d;
     calls := calls d |}.

Definition with_available (up : bool) (d : db) : db :=
  {| species := species d; staging := staging d;
     production := production d; available := up;
     calls := calls d |}.

Definition record_call (c : call) : M () := modify (logged c).

(** What happens to the store between two requests of a script: an outage
    begins or ends. *)
Definition reachability_becomes (up : bool) : M () :=
  modify (with_available up).

(** Every request is logged and then fails when the store is unreachable. *)
Definition request (c : call) : M () :=
  record_call c;;
  ok ← gets available;
  if ok : bool then mret () else raise Unavailable.

Definition rows_of (t : table) (d : db) : list StagingRecord :=
  match t with
  | Staging => staging d
  | Production => production d
  | _ => []
  end.

(** [.select('id, scientific_name')] on the species table *)
Definition select_species : M (list (string * string)) :=
  request (Select Species);; gets species.

(** [.select('count', count='exact')] *)
Definition select_count (t : table) : M Z :=
  request (SelectCount t);; gets (λ d, Z.of_nat (length (rows_of t d))).

(** [.select('*').range(offset, offset + limit - 1)] *)
Definition select_range (t : table) (offset limit : nat)
    : M (list StagingRecord) :=
  request (Select t);; gets (λ d, take limit (drop offset (rows_of t d))).

Definition set_staging (rows : list StagingRecord) : M () :=
  modify (with_staging rows).

Definition set_production (rows : list StagingRecord) : M () :=
  modify (with_production rows).

(** [.delete().neq('id', '0000...')]: removes every staging row. *)
Definition delete_all_staging : M () :=
  request (DeleteAll Staging);; set_staging [].

Section schema.
Context `{Schema}.

(** A bulk insert is one statement: all rows are stored or none is. *)
Definition insert_staging (batch : list StagingRecord) : M () :=
  request (Insert Staging (length batch));;
  if forallb staging_row_ok batch
  then rows ← gets staging; set_staging (rows ++ batch)
  else raise ConstraintViolation.

(** The uniqueness constraint of the production table: no new row may
    repeat the natural key of a stored row or of another new row. *)
Definition no_duplicate_key (rows batch : list StagingRecord) : Prop :=
  NoDup (natural_key <$> batch)
  ∧ Forall (λ r, natural_key r ∉ natural_key <$> rows) batch.

Definition insert_production (batch : list StagingRecord) : M () :=
  request (Insert Production (length batch));;
  rows ← gets production;
  if negb (forallb production_row_ok batch)
  then raise ConstraintViolation
  else if decide (no_duplicate_key rows batch)
  then set_production (rows ++ batch)
  else raise DuplicateKey.
End schema.

End Store.

(** ** Staging loader: [cites_migration_2025/load_to_staging.py] *)

Module StageLoader.
Import Py Store.

(** A cell of the [Quantity] column: a float, which is NaN when the value
    is missing, or text when pandas could not read the column as
    numbers. *)
Inductive cell : Type :=
  | CFloat (x : pyfloat)
  | CStr (s : string).

(** A row of the extracted CSV in the DataFrame; a NaN text cell is an
    absent [option].  [cYear] is what [int(row['Year'])] gives, the only
    use the scripts make of the cell: no value when it raises
    [ValueError], as it does on a missing Year.  [row_species_id] is the
    column [map_species_ids] adds. *)
Record Row : Type := {
  cYear : option Z;
  cAppendix : option string;
  cTaxon : string;
  cClass : option string;
  cOrder : option string;
  cFamily : option string;
  cGenus : option string;
  cImporter : option string;
  cExporter : option string;
  cOrigin : option string;
  cQuantity : cell;
  cTerm : option string;
  cUnit : option string;
  cPurpose : option string;
  cSource : option string;
  row_species_id : option string
}.

Definition with_species_id (id : option string) (row : Row) : Row :=
  {| cYear := cYear row; cAppendix := cAppendix row; cTaxon := cTaxon row;
     cClass := cClass row; cOrder := cOrder row; cFamily := cFamily row;
     cGenus := cGenus row; cImporter := cImporter row;
     cExporter := cExporter row; cOrigin := cOrigin row;
     cQuantity := cQuantity row; cTerm := cTerm row; cUnit := cUnit row;
     cPurpose := cPurpose row; cSource := cSource row;
     row_species_id := id |}.

(** A row on which [int(row['Year'])] goes through. *)
Definition has_year (row : Row) : Prop := is_Some (cYear row).

Record LoadStats : Type := {
  total_records : nat;
  successful_loads : nat;
  failed_loads : nat;
  species_mapped : nat
}.

Definition initial_stats : LoadStats :=
  {| total_records := 0; successful_loads := 0; failed_loads := 0;
     species_mapped := 0 |}.

(** [{species['scientific_name']: species['id'] for species in result.data}]:
    a later row overrides an earlier one with the same name. *)
Definition mapping_of (data : list (string * string)) : gmap string string :=
  foldl (λ m kv, <[kv.1 := kv.2]> m) ∅ data.

Definition load_species_mapping : M (gmap string string) :=
  data ← select_species; mret (mapping_of data).

(** A row whose taxon has an entry in the species mapping, a row whose
    taxon has none, and a row with its [species_id] filled in. *)
Definition mapped (species_mapping : gmap string string) (row : Row) : Prop :=
  is_Some (species_mapping !! cTaxon row).
Definition unresolved (species_mapping : gmap string string) (row : Row) : Prop :=
  species_mapping !! cTaxon row = None.
Definition resolve (species_mapping : gmap string string) (row : Row) : Row :=
  with_species_id (species_mapping !! cTaxon row) row.

(** The row loop of [map_species_ids]: the frame with [species_id] filled
    in where the taxon is known, and [mapped_count]. *)
Fixpoint assign_species_ids (species_mapping : gmap string string)
    (df : list Row) : list Row * nat :=
  match df with
  | [] => ([], 0)
  | row :: df' =>
      let '(rows, mapped_count) := assign_species_ids species_mapping df' in
      match species_mapping !! cTaxon row with
      | Some id => (with_species_id (Some id) row :: rows, S mapped_count)
      | None => (with_species_id None row :: rows, mapped_count)
      end
  end.

(** [map_species_ids]: returns the frame to load together with
    [mapped_count] and [unmapped_count].  The log line divides by
    [len(df)], which raises on an empty frame. *)
Definition map_species_ids (species_mapping : gmap string string)
    (df : list Row) : exn + (list Row * nat * nat) :=
  let '(rows, mapped_count) := assign_species_ids species_mapping df in
  let unmapped_count := length df - mapped_count in
  if decide (length df = 0) then inl ZeroDivisionError
  else if decide (0 < unmapped_count)
  then inr (filter (λ row, is_Some (row_species_id row)) rows,
            mapped_count, unmapped_count)
  else inr (rows, mapped_count, unmapped_count).

Section numeric.
(** [float(s)] on text: the float read, or no result on [ValueError]. *)
Variable float_of_string : string → option pyfloat.

(** [_safe_numeric] *)
Definition _safe_numeric (value : cell) : option pyfloat :=
  match value with
  | CFloat NaN => None
  | CFloat x => Some x
  | CStr s =>
      if decide (s = "" ∨ lower s = "nan") then None else float_of_string s
  end.

(** The record that the loop of [prepare_staging_records] builds from a
    row; [int(row['Year'])] raises on a row without a year. *)
Definition staging_record_of (row : Row) : exn + StagingRecord :=
  match cYear row with
  | None => inl ValueError
  | Some year =>
      inr {| species_id := row_species_id row;
             year := year;
             appendix := cAppendix row;
             taxon := cTaxon row;
             class := cClass row;
             order_name := cOrder row;
             family := cFamily row;
             genus := cGenus row;
             importer := cImporter row;
             exporter := cExporter row;
             origin := cOrigin row;
             importer_reported_quantity := _safe_numeric (cQuantity row);
             exporter_reported_quantity := _safe_numeric (cQuantity row);
             term := cTerm row;
             unit := cUnit row;
             purpose := cPurpose row;
             source := cSource row;
             data_source := "CITES v2025.1" |}
  end.

(** [prepare_staging_records]: one record per row of the frame, or the
    exception of the first row that raises. *)
Fixpoint prepare_staging_records (df : list Row) : exn + list StagingRecord :=
  match df with
  | [] => inr []
  | row :: rest =>
      match staging_record_of row with
      | inl e => inl e
      | inr record =>
          match prepare_staging_records rest with
          | inl e => inl e
          | inr records => inr (record :: records)
          end
      end
  end.

(** The record loop of [load_remaining_records] in
    [resume_staging_load.py]: [species_id] comes from
    [df['Taxon'].map(species_mapping)], the year from [int(row['Year'])],
    which raises on a row without a year, the quantities from
    [float(row['Quantity'])], which raises on unreadable text. *)
Definition resume_quantity (value : cell) : exn + option pyfloat :=
  match value with
  | CFloat NaN => inr None
  | CFloat x => inr (Some x)
  | CStr s =>
      match float_of_string s with
      | Some q => inr (Some q)
      | None => inl ValueError
      end
  end.

Definition resume_record_of (species_mapping : gmap string string)
    (row : Row) : exn + StagingRecord :=
  match cYear row, resume_quantity (cQuantity row),
        resume_quantity (cQuantity row) with
  | None, _, _ => inl ValueError
  | Some year, inr importer_quantity, inr exporter_quantity =>
      inr {| species_id := species_mapping !! cTaxon row;
             year := year;
             appendix := cAppendix row;
             taxon := cTaxon row;
             class := cClass row;
             order_name := cOrder row;
             family := cFamily row;
             genus := cGenus row;
             importer := cImporter row;
             exporter := cExporter row;
             origin := cOrigin row;
             importer_reported_quantity := importer_quantity;
             exporter_reported_quantity := exporter_quantity;
             term := cTerm row;
             unit := cUnit row;
             purpose := cPurpose row;
             source := cSource row;
             data_source := "CITES v2025.1" |}
  | Some _, inl e, _ => inl e
  | Some _, _, inl e => inl e
  end.

Fixpoint resume_prepare_records (species_mapping : gmap string string)
    (df_remaining : list Row) : exn + list StagingRecord :=
  match df_remaining with
  | [] => inr []
  | row :: rest =>
      match resume_record_of species_mapping row with
      | inl e => inl e
      | inr record =>
          match resume_prepare_records species_mapping rest with
          | inl e => inl e
          | inr records => inr (record :: records)
          end
      end
  end.
End numeric.

(** [clear_staging_table] *)
Definition clear_staging_table (dry_run : bool) : M () :=
  if dry_run then mret ()
  else try_except delete_all_staging (λ e, raise e).

Section load.
Context `{Schema}.

(** The batch loop of [load_to_staging]: a rejected batch is counted as
    failed and the loop goes on. *)
Fixpoint load_batches (todo : list (list StagingRecord))
    (successful_inserts failed_inserts : nat) : M (nat * nat) :=
  match todo with
  | [] => mret (successful_inserts, failed_inserts)
  | batch :: rest =>
      ok ← try_except (insert_staging batch;; mret true) (λ _, mret false);
      if ok : bool
      then load_batches rest (successful_inserts + length batch) failed_inserts
      else load_batches rest successful_inserts (failed_inserts + length batch)
  end.

(** Whether the staging table takes a batch, and the number of rows in
    a list of batches. *)
Definition accepted (up : bool) (batch : list StagingRecord) : bool :=
  up && forallb staging_row_ok batch.

Definition total_length (todo : list (list StagingRecord)) : nat :=
  length (concat todo).

(** [load_to_staging].  [batch_size] is the [int] of the command line:
    [range(0, n, 0)] raises [ValueError], and with a negative step the
    loop has no turn. *)
Definition load_to_staging (dry_run : bool) (batch_size : Z)
    (staging_records : list StagingRecord) (stats : LoadStats) : M LoadStats :=
  if dry_run then mret stats
  else if decide (batch_size = 0%Z) then raise ValueError
  else
    counts ← load_batches (range_batches batch_size staging_records) 0 0;
    mret {| total_records := total_records stats;
            successful_loads := counts.1;
            failed_loads := counts.2;
            species_mapped := species_mapped stats |}.

(** What [main] prepares from the frame [df] at store [d]: the records
    of the rows whose taxon is mapped, or the exception of the first of
    them that has no year. *)
Definition prepared (float_of_string : string → option pyfloat) (df : list Row)
    (d : db) : exn + list StagingRecord :=
  prepare_staging_records float_of_string
    (resolve (mapping_of (species d))
       <$> filter (mapped (mapping_of (species d))) df).

(** [main] up to and including the load: species mapping, extracted
    frame [df], id mapping, record preparation, clearing, loading.  What
    follows in the script (validation of the load, report file) does not
    write to any table.  An exception ends the run with exit status 1. *)
Definition main (float_of_string : string → option pyfloat) (dry_run : bool)
    (batch_size : Z) (df : list Row) : M LoadStats :=
  species_mapping ← load_species_mapping;
  match map_species_ids species_mapping df with
  | inl e => raise e
  | inr (df', mapped_count, _) =>
      let stats :=
        {| total_records := length df; successful_loads := 0;
           failed_loads := 0; species_mapped := mapped_count |} in
      match prepare_staging_records float_of_string df' with
      | inl e => raise e
      | inr staging_records =>
          clear_staging_table dry_run;;
          load_to_staging dry_run batch_size staging_records stats
      end
  end.
End load.

End StageLoader.

(** ** Validation gate: [cites_migration_2025/validate_staging.py] *)

Module Validator.
Import Py Store.

Inductive warning : Type :=
  | MissingRecords (missing : Z)
  | ExtraRecords (extra : Z).

Inductive critical_issue : Type :=
  | TooManyMissingRecords (missing : Z)
  | RecordCountCheckFailed (e : exn).

Record ValidationResults : Type := {
  checks_passed : nat;
  checks_failed : nat;
  critical_issues : list critical_issue;
  warnings : list warning
}.

Definition initial_results : ValidationResults :=
  {| checks_passed := 0; checks_failed := 0; critical_issues := [];
     warnings := [] |}.

Definition pass (r : ValidationResults) : ValidationResults :=
  {| checks_passed := checks_passed r + 1; checks_failed := checks_failed r;
     critical_issues := critical_issues r; warnings := warnings r |}.

Definition fail (issue : critical_issue) (r : ValidationResults)
    : ValidationResults :=
  {| checks_passed := checks_passed r; checks_failed := checks_failed r + 1;
     critical_issues := critical_issues r ++ [issue]; warnings := warnings r |}.

Definition warn (w : warning) (r : ValidationResults) : ValidationResults :=
  {| checks_passed := checks_passed r; checks_failed := checks_failed r;
     critical_issues := critical_issues r; warnings := warnings r ++ [w] |}.

Definition expected_count : Z := 489148.

(** [missing > expected_count * 0.1].  The product is 48914.8 up to float
    rounding, which is far from any integer, so the comparison with the
    integer [missing] is the exact one. *)
Definition too_many_missing (missing : Z) : bool :=
  negb (Qle_bool (inject_Z missing) (inject_Z expected_count * (1 # 10))).

(** [check_record_count] *)
Definition check_record_count (results : ValidationResults)
    : M (bool * ValidationResults) :=
  try_except
    (staging_count ← select_count Staging;
     if (staging_count =? expected_count)%Z then mret (true, pass results)
     else if (staging_count <? expected_count)%Z then
       let missing := (expected_count - staging_count)%Z in
       let results := warn (MissingRecords missing) results in
       if too_many_missing missing
       then mret (false, fail (TooManyMissingRecords missing) results)
       else mret (true, pass results)
     else
       let extra := (staging_count - expected_count)%Z in
       mret (true, pass (warn (ExtraRecords extra) results)))
    (λ e, mret (false, fail (RecordCountCheckFailed e) results)).

End Validator.

(** ** Merge: [cites_migration_2025/execute_final_migration.py] *)

Module Migrator.
Import Py Store.

Record MigrationStats : Type := {
  initial_production_count : Z;
  initial_staging_count : Z;
  records_migrated : nat;
  final_production_count : Z;
  errors : list exn
}.

Definition initial_stats : MigrationStats :=
  {| initial_production_count := 0; initial_staging_count := 0;
     records_migrated := 0; final_production_count := 0; errors := [] |}.

Definition add_error (e : exn) (s : MigrationStats) : MigrationStats :=
  {| initial_production_count := initial_production_count s;
     initial_staging_count := initial_staging_count s;
     records_migrated := records_migrated s;
     final_production_count := final_production_count s;
     errors := errors s ++ [e] |}.

(** [pre_migration_checks] *)
Definition pre_migration_checks (stats : MigrationStats)
    : M (bool * MigrationStats) :=
  try_except
    (staging_count ← select_count Staging;
     prod_count ← select_count Production;
     let stats :=
       {| initial_production_count := prod_count;
          initial_staging_count := staging_count;
          records_migrated := records_migrated stats;
          final_production_count := final_production_count stats;
          errors := errors stats |} in
     if (staging_count - prod_count <? 0)%Z then mret (false, stats)
     else request (Select StagingSummary);; mret (true, stats))
    (λ e, mret (false, add_error e stats)).

(** The page size of the staging scan and the batch size of the insert. *)
Definition page_size : nat := 10 * 1000.
Definition batch_size : nat := 1000.

(** The [while True] scan of the staging table, one page per call, until
    an empty page comes back. *)
Fixpoint fetch_pages (fuel : nat) (offset : nat)
    (staging_records : list StagingRecord) : M (list StagingRecord) :=
  match fuel with
  | 0 => raise OutOfFuel
  | S fuel' =>
      data ← select_range Staging offset page_size;
      match data with
      | [] => mret staging_records
      | _ :: _ => fetch_pages fuel' (offset + page_size) (staging_records ++ data)
      end
  end.

Definition fetch_staging_records : M (list StagingRecord) :=
  fuel ← gets (λ d, S (length (staging d)));
  fetch_pages fuel 0 [].

(** The staging-specific columns are not part of [StagingRecord]; what is
    left of the cleaning is the [data_source] tag. *)
Definition clean_record (record : StagingRecord) : StagingRecord :=
  {| species_id := species_id record; year := year record;
     appendix := appendix record; taxon := taxon record;
     class := class record; order_name := order_name record;
     family := family record; genus := genus record;
     importer := importer record; exporter := exporter record;
     origin := origin record;
     importer_reported_quantity := importer_reported_quantity record;
     exporter_reported_quantity := exporter_reported_quantity record;
     term := term record; unit := unit record; purpose := purpose record;
     source := source record; data_source := "CITES v2025.1" |}.

Section merge.
Context `{Schema}.

(** The insert loop: a batch whose insert raises is counted in [errors]
    and skipped as a whole. *)
Fixpoint insert_batches (todo : list (list StagingRecord))
    (inserted errors : nat) : M (nat * nat) :=
  match todo with
  | [] => mret (inserted, errors)
  | batch :: rest =>
      let clean_batch := clean_record <$> batch in
      ok ← try_except (insert_production clean_batch;; mret true)
                      (λ _, mret false);
      if ok : bool
      then insert_batches rest (inserted + length clean_batch) errors
      else insert_batches rest inserted (errors + length batch)
  end.

(** Whether the production table takes a cleaned batch, and what the
    insert loop leaves in the table and reports as inserted. *)
Definition takes (up : bool) (rows batch : list StagingRecord) : bool :=
  up && forallb production_row_ok batch
  && bool_decide (no_duplicate_key rows batch).

Fixpoint merged (up : bool) (rows : list StagingRecord)
    (todo : list (list StagingRecord)) : list StagingRecord :=
  match todo with
  | [] => rows
  | batch :: rest =>
      let clean_batch := clean_record <$> batch in
      merged up
        (if takes up rows clean_batch then rows ++ clean_batch else rows) rest
  end.

Fixpoint inserted_count (up : bool) (rows : list StagingRecord)
    (todo : list (list StagingRecord)) : nat :=
  match todo with
  | [] => 0
  | batch :: rest =>
      let clean_batch := clean_record <$> batch in
      if takes up rows clean_batch
      then length clean_batch + inserted_count up (rows ++ clean_batch) rest
      else inserted_count up rows rest
  end.

(** [execute_migration] *)
Definition execute_migration (dry_run : bool) (stats : MigrationStats)
    : M (bool * MigrationStats) :=
  if dry_run then mret (true, stats)
  else
    try_except
      (staging_records ← fetch_staging_records;
       counts ← insert_batches (batches batch_size staging_records) 0 0;
       mret (true,
             {| initial_production_count := initial_production_count stats;
                initial_staging_count := initial_staging_count stats;
                records_migrated := counts.1;
                final_production_count := final_production_count stats;
                errors := errors stats |}))
      (λ e, mret (false, add_error e stats)).

(** [post_migration_validation]: two counts, then "were rows added". *)
Definition post_migration_validation (stats : MigrationStats)
    : M (bool * MigrationStats) :=
  try_except
    (final_count ← select_count Production;
     let stats :=
       {| initial_production_count := initial_production_count stats;
          initial_staging_count := initial_staging_count stats;
          records_migrated := records_migrated stats;
          final_production_count := final_count;
          errors := errors stats |} in
     request (SelectCount Production);;
     mret (bool_decide (0 < final_count - initial_production_count stats)%Z,
           stats))
    (λ _, mret (false, stats)).

(** The insert loop of a real run during which the reachability of the
    store changes: [reach] tells, batch by batch, whether the store can
    be reached when the insert of that batch is sent; past the end of
    [reach] nothing changes any more. *)
Fixpoint insert_batches_during (reach : list bool)
    (todo : list (list StagingRecord)) (inserted errors : nat)
    : M (nat * nat) :=
  match todo with
  | [] => mret (inserted, errors)
  | batch :: rest =>
      match reach with
      | up :: _ => reachability_becomes up
      | [] => mret ()
      end;;
      let clean_batch := clean_record <$> batch in
      ok ← try_except (insert_production clean_batch;; mret true)
                      (λ _, mret false);
      if ok : bool
      then insert_batches_during (tail reach) rest
             (inserted + length clean_batch) errors
      else insert_batches_during (tail reach) rest inserted
             (errors + length batch)
  end.

(** [execute_migration] in such a real run. *)
Definition execute_migration_during (reach : list bool)
    (stats : MigrationStats) : M (bool * MigrationStats) :=
  try_except
    (staging_records ← fetch_staging_records;
     counts ← insert_batches_during reach
                (batches batch_size staging_records) 0 0;
     mret (true,
           {| initial_production_count := initial_production_count stats;
              initial_staging_count := initial_staging_count stats;
              records_migrated := counts.1;
              final_production_count := final_production_count stats;
              errors := errors stats |}))
    (λ e, mret (false, add_error e stats)).
End merge.

End Migrator.

(** ** Backup: [cites_migration_2025/backup_cites_data.py] *)

Module Backup.
Import Py Store.

(** What [pd.read_csv] makes of the backup file. *)
Record DataFrame : Type := {
  columns : list string;
  n_rows : nat
}.

Inductive backup_file : Type :=
  | NotFound                  (* [os.path.exists] is false *)
  | Unreadable                (* [pd.read_csv] raises *)
  | Csv (df : DataFrame).

(** [get_current_record_count]: the count query, or 0 when it raises. *)
Definition get_current_record_count : M Z :=
  try_except (select_count Production) (λ _, mret 0%Z).

Definition required_columns : list string :=
  ["id"; "species_id"; "year"; "appendix"; "taxon"; "quantity"].

(** [validate_backup] *)
Definition validate_backup (file : backup_file) : M bool :=
  try_except
    (match file with
     | NotFound => mret false
     | Unreadable => raise ValueError
     | Csv df =>
         let backup_record_count := Z.of_nat (n_rows df) in
         current_count ← get_current_record_count;
         if negb (backup_record_count =? current_count)%Z then mret false
         else
           let missing_columns :=
             filter (λ col, col ∉ columns df) required_columns in
           match missing_columns with
           | _ :: _ => mret false
           | [] => mret true
           end
     end)
    (λ _, mret false).

End Backup.

(** ** Streaming extraction: [scripts/extract_arctic_trade_data.py] *)

Module Extractor.
Import Py StageLoader.

(** A source CSV: its name, its rows, and the chunk (if any) at which
    reading raises. *)
Record SourceFile : Type := {
  file_name : string;
  file_rows : list Row;
  error_at : option nat
}.

Record FileStats : Type := {
  file : string;
  records_scanned : nat;
  arctic_records : nat;
  species_found : gset string;
  error : bool
}.

Definition chunk_size : nat := 50 * 1000.

(** One turn of the chunk loop: the matching rows of the chunk are kept
    and counted, the taxa seen are added to [species_found]. *)
Definition scan_chunk (arctic_species : gset string) (chunk : list Row)
    (kept : list Row) (stats : FileStats) : list Row * FileStats :=
  let arctic_chunk := filter (λ row, cTaxon row ∈ arctic_species) chunk in
  let '(kept, found, species) :=
    if decide (0 < length arctic_chunk)
    then (kept ++ arctic_chunk,
          arctic_records stats + length arctic_chunk,
          species_found stats ∪ list_to_set (cTaxon <$> arctic_chunk))
    else (kept, arctic_records stats, species_found stats) in
  (kept,
   {| file := file stats;
      records_scanned := records_scanned stats + length chunk;
      arctic_records := found;
      species_found := species;
      error := error stats |}).

(** The chunk loop; when reading chunk [chunk_num] raises, the counters
    stay as they are and the file is marked with the error. *)
Fixpoint scan_chunks (arctic_species : gset string) (error_at : option nat)
    (chunk_num : nat) (chunks : list (list Row)) (kept : list Row)
    (stats : FileStats) : list Row * FileStats :=
  if decide (error_at = Some chunk_num) then
    (kept,
     {| file := file stats; records_scanned := records_scanned stats;
        arctic_records := arctic_records stats;
        species_found := species_found stats; error := true |})
  else
    match chunks with
    | [] => (kept, stats)
    | chunk :: rest =>
        let '(kept, stats) := scan_chunk arctic_species chunk kept stats in
        scan_chunks arctic_species error_at (S chunk_num) rest kept stats
    end.

(** [process_single_file]: the statistics of the file and, when rows were
    kept and nothing raised, the rows written to the per-file output. *)
Definition process_single_file (arctic_species : gset string)
    (source : SourceFile) : FileStats * option (list Row) :=
  let file_stats :=
    {| file := file_name source; records_scanned := 0; arctic_records := 0;
       species_found := ∅; error := false |} in
  let '(kept, file_stats) :=
    scan_chunks arctic_species (error_at source) 0
      (batches chunk_size (file_rows source)) [] file_stats in
  (file_stats,
   if error file_stats then None
   else match kept with [] => None | _ :: _ => Some kept end).

Record ExtractionStats : Type := {
  files_processed : nat;
  total_records_scanned : nat;
  arctic_records_found : nat;
  species_match_counts : gmap string nat;
  unique_species_found : nat
}.

(** The inner loop of the aggregation: every species found in the file is
    credited with [result['arctic_records']]. *)
Definition track_species (result : FileStats) (counts : gmap string nat)
    (species : string) : gmap string nat :=
  match counts !! species with
  | Some count => <[species := count + arctic_records result]> counts
  | None => <[species := arctic_records result]> counts
  end.

Definition aggregate (acc : ExtractionStats * gset string) (result : FileStats)
    : ExtractionStats * gset string :=
  let '(stats, all_species_found) := acc in
  ({| files_processed := files_processed stats + 1;
      total_records_scanned :=
        total_records_scanned stats + records_scanned result;
      arctic_records_found := arctic_records_found stats + arctic_records result;
      species_match_counts :=
        foldl (track_species result) (species_match_counts stats)
          (elements (species_found result));
      unique_species_found := unique_species_found stats |},
   all_species_found ∪ species_found result).

(** [extract_all_arctic_data], up to the saved statistics.  [pool.map]
    returns the per-file results in the order of the files, as the
    sequential loop does. *)
Definition extract_all_arctic_data (arctic_species : gset string)
    (files : list SourceFile) : ExtractionStats :=
  let results := (λ f, (process_single_file arctic_species f).1) <$> files in
  let '(stats, all_species_found) :=
    foldl aggregate
      ({| files_processed := 0; total_records_scanned := 0;
          arctic_records_found := 0; species_match_counts := ∅;
          unique_species_found := 0 |}, ∅) results in
  {| files_processed := files_processed stats;
     total_records_scanned := total_records_scanned stats;
     arctic_records_found := arctic_records_found stats;
     species_match_counts := species_match_counts stats;
     unique_species_found := size all_species_found |}.

(** The rows of [files] that match the species list and whose [Taxon] is
    [s]: what a per-species match count counts. *)
Definition matched_rows (arctic_species : gset string) (s : string)
    (files : list SourceFile) : nat :=
  length
    (filter (λ row, cTaxon row ∈ arctic_species ∧ cTaxon row = s)
       (files ≫= file_rows)).

(** [counts.get(s, 0)] *)
Definition count_of (counts : gmap string nat) (s : string) : nat :=
  default 0 (counts !! s).

(** What the aggregation credits a species with: the [arctic_records] of
    every file in which the species was found. *)
Definition credited (results : list FileStats) (s : string) : nat :=
  sum_list (arctic_records <$> filter (λ r, s ∈ species_found r) results).

End Extractor.

(** ** Concrete data used in the statements below *)

Module Examples.
Import Py Optimizer Store StageLoader.

(** A polar bear skin exported from Canada to the United States. *)
Definition polar_bear_skin : TradeRecord :=
  {| tr_id := "1"; tr_year := Some 2020%Z; tr_appendix := "II";
     tr_class := "Mammalia"; tr_order := "Carnivora"; tr_family := "Ursidae";
     tr_genus := "Ursus"; tr_term := "skins"; tr_quantity_raw := "2";
     tr_quantity_normalized := Some (Finite (2 # 1)); tr_unit := "";
     tr_importer := "US"; tr_exporter := "CA"; tr_origin := "";
     tr_purpose := "T"; tr_source := "W"; tr_reporter_type := "E";
     tr_source_file := "trade_db_1.csv"; tr_row_number := Some 17%Z |}.

(** Two staging rows that differ in their exporter. *)
Definition walrus_tusks_from_greenland : StagingRecord :=
  {| species_id := Some "5e2b"; year := 2023; appendix := Some "III";
     taxon := "Odobenus rosmarus"; class := Some "Mammalia";
     order_name := Some "Carnivora"; family := Some "Odobenidae";
     genus := Some "Odobenus"; importer := Some "DK"; exporter := Some "GL";
     origin := None; importer_reported_quantity := Some (Finite (4 # 1));
     exporter_reported_quantity := Some (Finite (4 # 1)); term := Some "tusks";
     unit := None; purpose := Some "P"; source := Some "W";
     data_source := "CITES v2025.1" |}.

Definition walrus_tusks_from_canada : StagingRecord :=
  {| species_id := Some "5e2b"; year := 2023; appendix := Some "III";
     taxon := "Odobenus rosmarus"; class := Some "Mammalia";
     order_name := Some "Carnivora"; family := Some "Odobenidae";
     genus := Some "Odobenus"; importer := Some "DK"; exporter := Some "CA";
     origin := None; importer_reported_quantity := Some (Finite (2 # 1));
     exporter_reported_quantity := Some (Finite (2 # 1)); term := Some "tusks";
     unit := None; purpose := Some "P"; source := Some "W";
     data_source := "CITES v2025.1" |}.

(** The database schema with the natural key of the migration's SQL and
    no further row constraint. *)
Definition sql_schema : Schema :=
  {| natural_key := sql_natural_key;
     staging_row_ok := λ _, true;
     production_row_ok := λ _, true |}.

Definition the_species : list (string * string) :=
  [("Odobenus rosmarus", "5e2b"); ("Ursus maritimus", "77c1")].

(** A store that cannot be reached, whose staging table holds exactly the
    expected number of rows. *)
Definition unreachable_full_store : db :=
  {| species := the_species;
     staging := replicate (Z.to_nat Validator.expected_count)
                  walrus_tusks_from_greenland;
     production := [walrus_tusks_from_greenland];
     available := false;
     calls := [] |}.

(** An extracted frame of two rows: a walrus row whose taxon is in the
    species table and a row whose taxon is not. *)
Definition walrus_row : Row :=
  {| cYear := Some 2023%Z; cAppendix := Some "III"; cTaxon := "Odobenus rosmarus";
     cClass := Some "Mammalia"; cOrder := Some "Carnivora";
     cFamily := Some "Odobenidae"; cGenus := Some "Odobenus";
     cImporter := Some "DK"; cExporter := Some "GL"; cOrigin := None;
     cQuantity := CFloat (Finite (4 # 1)); cTerm := Some "tusks"; cUnit := None;
     cPurpose := Some "P"; cSource := Some "W"; row_species_id := None |}.

Definition unknown_goose_row : Row :=
  {| cYear := Some 2022%Z; cAppendix := Some "I"; cTaxon := "Branta hutchinsii";
     cClass := Some "Aves"; cOrder := Some "Anseriformes";
     cFamily := Some "Anatidae"; cGenus := Some "Branta";
     cImporter := Some "US"; cExporter := Some "CA"; cOrigin := None;
     cQuantity := CFloat NaN; cTerm := Some "live"; cUnit := None;
     cPurpose := Some "Z"; cSource := Some "C"; row_species_id := None |}.

Definition two_row_frame : list Row := [walrus_row; unknown_goose_row].

(** A reachable store with a stale staging row. *)
Definition reachable_store : db :=
  {| species := the_species;
     staging := [walrus_tusks_from_canada];
     production := [walrus_tusks_from_greenland];
     available := true;
     calls := [] |}.

(** A [float()] that reads no text at all. *)
Definition no_text_float (s : string) : option pyfloat := None.

(** A store whose production table already holds the Greenland row, and
    whose staging table holds that row and a new one. *)
Definition overlapping_store : db :=
  {| species := the_species;
     staging := [walrus_tusks_from_greenland; walrus_tusks_from_canada];
     production := [walrus_tusks_from_greenland];
     available := true;
     calls := [] |}.

(** A store that cannot be reached and holds one production row. *)
Definition unreachable_store : db :=
  {| species := the_species;
     staging := [];
     production := [walrus_tusks_from_greenland];
     available := false;
     calls := [] |}.

(** A backup CSV with the header line only. *)
Definition header_only_backup : Backup.DataFrame :=
  {| Backup.columns := Backup.required_columns; Backup.n_rows := 0 |}.

(** One source file with a walrus row, a polar bear row and a row of a
    taxon that is not on the species list. *)
Definition polar_bear_row : Row :=
  {| cYear := Some 2023%Z; cAppendix := Some "II"; cTaxon := "Ursus maritimus";
     cClass := Some "Mammalia"; cOrder := Some "Carnivora";
     cFamily := Some "Ursidae"; cGenus := Some "Ursus";
     cImporter := Some "US"; cExporter := Some "CA"; cOrigin := None;
     cQuantity := CFloat (Finite (1 # 1)); cTerm := Some "skins"; cUnit := None;
     cPurpose := Some "H"; cSource := Some "W"; row_species_id := None |}.

Definition arctic_species_list : gset string :=
  {[ "Odobenus rosmarus"; "Ursus maritimus" ]}.

Definition one_source_file : Extractor.SourceFile :=
  {| Extractor.file_name := "trade_db_1.csv";
     Extractor.file_rows := [walrus_row; polar_bear_row; unknown_goose_row];
     Extractor.error_at := None |}.

End Examples.

(** ** Resuming a staging load: [cites_migration_2025/resume_staging_load.py] *)

Module Resume.
Import Py Store StageLoader.

(** [get_loaded_record_ids]: the number of staging rows.  The five most
    recent rows are fetched for the log only. *)
Definition get_loaded_record_ids : M Z :=
  loaded_count ← select_count Staging;
  request (Select Staging);;
  mret loaded_count.

Definition target_count : Z := 489148.

Section resume.
Context `{Schema}.
Variable float_of_string : string → option pyfloat.

(** The batch loop of [load_remaining_records]: a batch whose insert
    raises is logged and skipped. *)
Fixpoint insert_remaining (todo : list (list StagingRecord)) (loaded : nat)
    : M nat :=
  match todo with
  | [] => mret loaded
  | batch :: rest =>
      ok ← try_except (insert_staging batch;; mret true) (λ _, mret false);
      if ok : bool then insert_remaining rest (loaded + length batch)
      else insert_remaining rest loaded
  end.

(** [load_remaining_records], for the frame [df] read from the extracted
    CSV.  The first [current_count] rows of the frame are skipped; the
    rest is sent with [species_id] looked up per row, mapped or not.
    [batch_size] is the [int] of the command line: [range(0, n, 0)]
    raises [ValueError], and with a negative step the loop has no
    turn. *)
Definition load_remaining_records (batch_size : Z) (df : list Row) : M () :=
  current_count ← get_loaded_record_ids;
  if (target_count <=? current_count)%Z then mret ()
  else
    let df_remaining := drop (Z.to_nat current_count) df in
    species_result ← select_species;
    let species_mapping := mapping_of species_result in
    match resume_prepare_records float_of_string species_mapping df_remaining with
    | inl e => raise e
    | inr records =>
        if decide (batch_size = 0%Z) then raise ValueError
        else
          insert_remaining (range_batches batch_size records) 0;;
          select_count Staging;;
          mret ()
    end.

(** [main]: the exit status of the script. *)
Definition main (batch_size : Z) (df : list Row) : M nat :=
  try_except (load_remaining_records batch_size df;; mret 0) (λ _, mret 1).
End resume.

(** A cell of the [Quantity] column that pandas read as a number. *)
Definition numeric (row : Row) : Prop := ∃ x, cQuantity row = CFloat x.

(** A row that the record loop of [load_remaining_records] converts: it
    has a year, and its Quantity is a number, is missing, or is text
    that [float] reads. *)
Definition convertible (float_of_string : string → option pyfloat)
    (row : Row) : Prop :=
  has_year row
  ∧ ∀ s, cQuantity row = CStr s → is_Some (float_of_string s).

End Resume.

(** ** Statistics handed to [json.dump] *)

Module Report.

(** A timestamp entry of a statistics dictionary: [None] until the run
    sets it, then a [datetime] object. *)
Inductive time_field : Type :=
  | Unset
  | Datetime.

(** [json.dump] writes [None] as [null] and raises [TypeError] on a
    [datetime] object. *)
Definition serializable (t : time_field) : bool :=
  match t with
  | Unset => true
  | Datetime => false
  end.

End Report.

(** ** The migration script to its end: [execute_final_migration.py] *)

Module MigrationScript.
Import Py Store Migrator Report.

(** [migration_stats['start_time']] when the report is written:
    [execute_migration] sets it first thing in a real run and returns
    before that in a dry run. *)
Definition start_time_after (dry_run : bool) : time_field :=
  if dry_run then Unset else Datetime.

(** [generate_migration_report]: whether [json.dump(report, f)] goes
    through.  The report holds [migration_stats] as it is, timestamps
    included; the other entries are numbers, texts and lists of texts. *)
Definition generate_migration_report (start_time : time_field) : bool :=
  serializable start_time.

Section script.
Context `{Schema}.

(** [main], from the first check to the exit status.  [answer] is what
    the operator types at the confirmation prompt of a real run.
    [sys.exit] leaves at once; any other exception, the one of the report
    included, is caught at the end and turned into exit status 1.
    [cleanup] only logs. *)
Definition main (dry_run : bool) (answer : string) : M nat :=
  checks ← pre_migration_checks initial_stats;
  if negb checks.1 then mret 1
  else if negb dry_run && negb (bool_decide (lower answer = "y")) then mret 0
  else
    migration ← execute_migration dry_run checks.2;
    if negb migration.1 then mret 1
    else
      validation ← (if dry_run then mret (true, migration.2)
                    else post_migration_validation migration.2);
      if negb validation.1 then mret 1
      else if generate_migration_report (start_time_after dry_run) then mret 0
      else mret 1.
End script.

End MigrationScript.

(** ** The view [cites_staging_summary] *)

Module SummaryView.

(** A row of the view, as far as the scripts use it; [None] is SQL
    [NULL].  The view is defined in the database. *)
Record Summary : Type := {
  total_records : option Z;
  unique_species : option Z;
  earliest_year : option Z;
  latest_year : option Z;
  appendix_i_count : option Z;
  appendix_ii_count : option Z;
  appendix_iii_count : option Z
}.

End SummaryView.

(** ** The staging loader to its end: [load_to_staging.py] *)

Module LoaderScript.
Import Py Store StageLoader Report SummaryView.

(** [load_stats['start_time']] when the report is written:
    [load_to_staging] sets it first thing in a real run and returns before
    that in a dry run. *)
Definition start_time_after (dry_run : bool) : time_field :=
  if dry_run then Unset else Datetime.

(** [generate_load_report]: whether [json.dump(report, f)] goes through.
    The report holds [load_stats] as it is, timestamps included. *)
Definition generate_load_report (start_time : time_field) : bool :=
  serializable start_time.

Section script.
Context `{Schema}.
Variable float_of_string : string → option pyfloat.
(** The rows of the view, which the database computes from the staging
    table. *)
Variable staging_summary : list StagingRecord → list Summary.

(** [validate_staging_load].  The log lines format the counts with
    [{:,}], which raises [TypeError] on [None], as does the comparison of
    [latest_year] with 2023; the handler turns any exception into
    [False]. *)
Definition validate_staging_load (stats : LoadStats) : M bool :=
  try_except
    (request (Select StagingSummary);;
     data ← gets (λ d, staging_summary (staging d));
     match data with
     | [] => mret false
     | summary :: _ =>
         match total_records summary, appendix_i_count summary,
               appendix_ii_count summary, appendix_iii_count summary with
         | Some actual_records, Some _, Some _, Some _ =>
             let expected_records := Z.of_nat (successful_loads stats) in
             if negb (actual_records =? expected_records)%Z then mret false
             else match latest_year summary with
                  | Some _ => mret true
                  | None => mret false
                  end
         | _, _, _, _ => mret false
         end
     end)
    (λ _, mret false).

(** [main], from the first request to the exit status.  A failed
    validation leaves with [sys.exit(1)]; any exception, the one of the
    report included, is caught at the end and turned into exit status
    1. *)
Definition main (dry_run : bool) (batch_size : Z) (df : list Row) : M nat :=
  try_except
    (stats ← StageLoader.main float_of_string dry_run batch_size df;
     valid ← (if dry_run then mret true else validate_staging_load stats);
     if negb valid then mret 1
     else if generate_load_report (start_time_after dry_run) then mret 0
     else mret 1)
    (λ _, mret 1).
End script.

End LoaderScript.

(** ** The validation gate as a whole: [validate_staging.py] *)

Module ValidationSuite.
Import Py Store SummaryView.

Inductive check : Type :=
  | RecordCount | DataQuality | SpeciesMapping | DataCompleteness
  | ProductionComparison.

(** What the handler of a check catches. *)
Inductive caught : Type :=
  | Raised (e : exn)
  | TypeError.

Inductive quality_issue : Type :=
  | UnexpectedSpeciesCount (unique_species : Z)
  | MissingRecentData (latest_year : Z)
  | MissingAppendixData (total_appendix total_records : Z).

(** The entries of [validation_results['warnings']] and of
    [validation_results['critical_issues']]. *)
Inductive warning_text : Type :=
  | RecordCountWarning (w : Validator.warning)
  | DataQualityIssue (issue : quality_issue)
  | MissingTaxonOrYear (incomplete_records : Z)
  | LimitedRecentData
  | FewerRecordsThanProduction.

Inductive critical_text : Type :=
  | RecordCountIssue (issue : Validator.critical_issue)
  | SummaryViewEmpty
  | NullSpeciesIds (null_species : Z)
  | CheckFailed (c : check) (e : caught).

Inductive status : Type :=
  | PENDING | PASSED | PASSED_WITH_WARNINGS | FAILED.

(** [validation_results].  Of [data_quality], the summary row and
    [new_records] are carried; [increase_percent] is a float computed
    from the same two counts as [new_records]. *)
Record Results : Type := {
  overall_status : status;
  checks_passed : nat;
  checks_failed : nat;
  critical_issues : list critical_text;
  warnings : list warning_text;
  data_quality : option Summary;
  new_records : option Z
}.

Definition initial_results : Results :=
  {| overall_status := PENDING; checks_passed := 0; checks_failed := 0;
     critical_issues := []; warnings := []; data_quality := None;
     new_records := None |}.

Definition passed (r : Results) : Results :=
  {| overall_status := overall_status r;
     checks_passed := checks_passed r + 1; checks_failed := checks_failed r;
     critical_issues := critical_issues r; warnings := warnings r;
     data_quality := data_quality r; new_records := new_records r |}.

Definition failed_with (issue : critical_text) (r : Results) : Results :=
  {| overall_status := overall_status r;
     checks_passed := checks_passed r; checks_failed := checks_failed r + 1;
     critical_issues := critical_issues r ++ [issue]; warnings := warnings r;
     data_quality := data_quality r; new_records := new_records r |}.

(** [warnings.extend(ws)] *)
Definition warned (ws : list warning_text) (r : Results) : Results :=
  {| overall_status := overall_status r;
     checks_passed := checks_passed r; checks_failed := checks_failed r;
     critical_issues := critical_issues r; warnings := warnings r ++ ws;
     data_quality := data_quality r; new_records := new_records r |}.

Definition with_data_quality (summary : Summary) (r : Results) : Results :=
  {| overall_status := overall_status r;
     checks_passed := checks_passed r; checks_failed := checks_failed r;
     critical_issues := critical_issues r; warnings := warnings r;
     data_quality := Some summary; new_records := new_records r |}.

Definition with_new_records (n : Z) (r : Results) : Results :=
  {| overall_status := overall_status r;
     checks_passed := checks_passed r; checks_failed := checks_failed r;
     critical_issues := critical_issues r; warnings := warnings r;
     data_quality := data_quality r; new_records := Some n |}.

Definition with_status (s : status) (r : Results) : Results :=
  {| overall_status := s;
     checks_passed := checks_passed r; checks_failed := checks_failed r;
     critical_issues := critical_issues r; warnings := warnings r;
     data_quality := data_quality r; new_records := new_records r |}.

(** The [except] branch of a check: the issue is recorded, the check
    counts as failed and returns [False]. *)
Definition crashed (c : check) (e : caught) (r : Results) : bool * Results :=
  (false, failed_with (CheckFailed c e) r).

(** What a check does to the counters and to the critical issues: it
    counts as passed and leaves the issues as they are, or it counts as
    failed and appends one issue. *)
Definition counted (ok : bool) (r r' : Results) : Prop :=
  if ok
  then checks_passed r' = checks_passed r + 1
       ∧ checks_failed r' = checks_failed r
       ∧ critical_issues r' = critical_issues r
  else checks_passed r' = checks_passed r
       ∧ checks_failed r' = checks_failed r + 1
       ∧ ∃ issue, critical_issues r' = critical_issues r ++ [issue].

(** A check that always returns, counts once, fails when the store does
    not answer, and only reads. *)
Definition well_behaved (check_func : Results → M (bool * Results)) : Prop :=
  ∀ results d,
    ∃ ok results' d',
      check_func results d = (inr (ok, results'), d')
      ∧ counted ok results results'
      ∧ only_reads d d'
      ∧ (available d = false → ok = false).

(** A summary row whose counts and latest year are not null: the fields
    that [check_data_quality] formats with [{:,}], compares or adds. *)
Definition without_nulls (summary : Summary) : Prop :=
  is_Some (total_records summary) ∧ is_Some (unique_species summary)
  ∧ is_Some (latest_year summary) ∧ is_Some (appendix_i_count summary)
  ∧ is_Some (appendix_ii_count summary)
  ∧ is_Some (appendix_iii_count summary).

(** [.select('count', count='exact')] with a filter on the rows. *)
Definition select_count_where (t : table) (P : StagingRecord → bool) : M Z :=
  request (SelectCount t);;
  gets (λ d, Z.of_nat (length (filter (λ r, P r = true) (rows_of t d)))).

(** [check_record_count] on the results of the gate: it adds to the two
    counters and appends to the two lists what it adds and appends
    there. *)
Definition check_record_count (results : Results) : M (bool * Results) :=
  out ← Validator.check_record_count Validator.initial_results;
  mret (out.1,
        {| overall_status := overall_status results;
           checks_passed :=
             checks_passed results + Validator.checks_passed out.2;
           checks_failed :=
             checks_failed results + Validator.checks_failed out.2;
           critical_issues :=
             critical_issues results
             ++ (RecordCountIssue <$> Validator.critical_issues out.2);
           warnings :=
             warnings results
             ++ (RecordCountWarning <$> Validator.warnings out.2);
           data_quality := data_quality results;
           new_records := new_records results |}).

(** The list [issues] of [check_data_quality].  The last test is
    [total_appendix < total_records * 0.8]; for the counts of a table
    (below [10^15]) the product is within a rounding error, far less than
    a fifth, of four fifths of the count, which is an integer, and then
    the product itself, or at least a fifth away from one: the test is
    the exact one. *)
Definition quality_issues (total_records unique_species latest_year
    total_appendix : Z) : list quality_issue :=
  (if (unique_species <? 35)%Z || (45 <? unique_species)%Z
   then [UnexpectedSpeciesCount unique_species] else [])
  ++ (if (latest_year <? 2023)%Z then [MissingRecentData latest_year] else [])
  ++ (if (5 * total_appendix <? 4 * total_records)%Z
      then [MissingAppendixData total_appendix total_records] else []).

Section gate.
(** The rows of the summary view, which the database computes from the
    staging table. *)
Variable staging_summary : list StagingRecord → list Summary.

(** [check_data_quality].  The log lines format three of the counts with
    [{:,}] and the tests compare and add the others, all of which raises
    [TypeError] on [None]; by then [data_quality] has been set.  The loop
    over [issues] extends [warnings] by the whole list at every turn. *)
Definition check_data_quality (results : Results) : M (bool * Results) :=
  try_except
    (request (Select StagingSummary);;
     data ← gets (λ d, staging_summary (staging d));
     match data with
     | [] => mret (false, failed_with SummaryViewEmpty results)
     | summary :: _ =>
         let results := with_data_quality summary results in
         match total_records summary, unique_species summary,
               latest_year summary, appendix_i_count summary,
               appendix_ii_count summary, appendix_iii_count summary with
         | Some total, Some species, Some latest, Some i, Some ii, Some iii =>
             let total_appendix := (i + ii + iii)%Z in
             let issues := quality_issues total species latest total_appendix in
             let results :=
               foldl (λ acc _, warned (DataQualityIssue <$> issues) acc)
                 results issues in
             mret (true, passed results)
         | _, _, _, _, _, _ => mret (crashed DataQuality TypeError results)
         end
     end)
    (λ e, mret (crashed DataQuality (Raised e) results)).

(** [check_species_mapping] *)
Definition check_species_mapping (results : Results) : M (bool * Results) :=
  try_except
    (null_species ←
       select_count_where Staging (λ r, bool_decide (species_id r = None));
     if (0 <? null_species)%Z
     then mret (false, failed_with (NullSpeciesIds null_species) results)
     else mret (true, passed results))
    (λ e, mret (crashed SpeciesMapping (Raised e) results)).

(** [check_data_completeness].  A staging row of this model always has a
    taxon and a year, so the first count finds no row.  A warning that
    was appended stays when a later request raises. *)
Definition check_data_completeness (results : Results) : M (bool * Results) :=
  try_except
    (incomplete_records ← select_count_where Staging (λ _, false);
     let results :=
       if (0 <? incomplete_records)%Z
       then warned [MissingTaxonOrYear incomplete_records] results
       else results in
     try_except
       (recent_count ←
          select_count_where Staging (λ r, (2020 <=? year r)%Z);
        let results :=
          if (recent_count <? 10000)%Z
          then warned [LimitedRecentData] results else results in
        mret (true, passed results))
       (λ e, mret (crashed DataCompleteness (Raised e) results)))
    (λ e, mret (crashed DataCompleteness (Raised e) results)).

(** [compare_with_production].  The log line of the first branch divides
    by [prod_count]. *)
Definition compare_with_production (results : Results) : M (bool * Results) :=
  try_except
    (prod_count ← select_count Production;
     staging_count ← select_count Staging;
     if (prod_count <? staging_count)%Z then
       let new_records := (staging_count - prod_count)%Z in
       if (prod_count =? 0)%Z then raise ZeroDivisionError
       else mret (true, passed (with_new_records new_records results))
     else mret (true, passed (warned [FewerRecordsThanProduction] results)))
    (λ e, mret (crashed ProductionComparison (Raised e) results)).

(** [generate_validation_report]: the overall status.  The report is
    written with [json.dump]; it holds counts, texts and the summary
    row. *)
Definition generate_validation_report (results : Results) : Results :=
  with_status
    (match critical_issues results, warnings results with
     | _ :: _, _ => FAILED
     | [], _ :: _ => PASSED_WITH_WARNINGS
     | [], [] => PASSED
     end) results.

Definition checks : list (Results → M (bool * Results)) :=
  [check_record_count; check_data_quality; check_species_mapping;
   check_data_completeness; compare_with_production].

(** The loop of [run_all_validations]; a check that raises counts as not
    passed. *)
Fixpoint run_checks (todo : list (Results → M (bool * Results)))
    (all_passed : bool) (results : Results) : M (bool * Results) :=
  match todo with
  | [] => mret (all_passed, results)
  | check_func :: rest =>
      out ← try_except (check_func results) (λ _, mret (false, results));
      run_checks rest (if out.1 : bool then all_passed else false) out.2
  end.

(** [run_all_validations] *)
Definition run_all_validations : M (bool * Results) :=
  out ← run_checks checks true initial_results;
  mret (out.1, generate_validation_report out.2).

(** [main]: the exit status of the script. *)
Definition main : M nat :=
  try_except
    (out ← run_all_validations; mret (if out.1 : bool then 0 else 1))
    (λ _, mret 1).
End gate.

End ValidationSuite.

(** ** The backup script: [cites_migration_2025/backup_cites_data.py] *)

Module BackupScript.
Import Py Store Backup Report.

Section script.
(** The columns of [cites_trade_records], which are the keys of the rows
    that the API returns. *)
Variable production_columns : list string.
(** What the API answers to [.range(first, last)] with [last < first],
    which the fetch loop asks for when the batch size is negative: an
    error or rows.  The repository does not decide it. *)
Variable inverted_range : exn + list StagingRecord.

(** [.select('*').range(offset, offset + batch_size - 1)] for a batch
    size that is not zero.  With a positive batch size the offsets are
    multiples of it, from 0 on. *)
Definition select_batch (offset batch_size : Z) : M (list StagingRecord) :=
  if (0 <? batch_size)%Z
  then select_range Production (Z.to_nat offset) (Z.to_nat batch_size)
  else
    request (Select Production);;
    match inverted_range with
    | inl e => raise e
    | inr batch_records => mret batch_records
    end.

(** The fetch loop of [backup_cites_data]: one request per turn, until
    [offset] reaches [total_records] or an empty batch comes back.  The
    log line at the head of the loop body divides by [batch_size].  With
    a negative batch size [offset] moves backwards, and the loop has no
    end when rows keep coming. *)
Fixpoint fetch_batches (fuel : nat) (batch_size total_records offset : Z)
    (all_records : list StagingRecord) : M (list StagingRecord) :=
  if (offset <? total_records)%Z then
    match fuel with
    | 0 => raise OutOfFuel
    | S fuel' =>
        if decide (batch_size = 0%Z) then raise ZeroDivisionError
        else
          batch_records ← select_batch offset batch_size;
          match batch_records with
          | [] => mret all_records
          | _ :: _ =>
              fetch_batches fuel' batch_size total_records
                (offset + batch_size)%Z (all_records ++ batch_records)
          end
    end
  else mret all_records.

(** [pd.DataFrame(all_records)]: the columns are the keys of the records;
    without a record there is no column. *)
Definition frame_of (all_records : list StagingRecord) : DataFrame :=
  {| columns := match all_records with
                | [] => []
                | _ :: _ => production_columns
                end;
     n_rows := length all_records |}.

(** [backup_cites_data]: the verdict, and the records written to the
    backup file when the run got as far as [df.to_csv].  After writing,
    [df['species_id']] raises [KeyError] on a frame without that column,
    which the handler turns into [False]. *)
Definition backup_cites_data (batch_size : Z)
    : M (bool * option (list StagingRecord)) :=
  try_except
    (total_records ← get_current_record_count;
     if (total_records =? 0)%Z then mret (false, None)
     else
       all_records ← fetch_batches (Z.to_nat total_records) batch_size
                       total_records 0 [];
       if decide ("species_id" ∈ columns (frame_of all_records))
       then mret (true, Some all_records)
       else mret (false, Some all_records))
    (λ _, mret (false, None)).

(** [create_backup_manifest]: whether [json.dump(manifest, f)] goes
    through.  The manifest holds [backup_stats] as it is, timestamps
    included. *)
Definition create_backup_manifest (start_time : time_field) : bool :=
  serializable start_time.

(** [main]: the exit status of the script.  [validate_backup] reads the
    file that [backup_cites_data] has just written.  [backup_cites_data]
    sets [backup_stats['start_time']] first thing. *)
Definition main (batch_size : Z) : M nat :=
  backup ← backup_cites_data batch_size;
  if negb backup.1 then mret 1
  else
    valid ← validate_backup
              (match backup.2 with
               | Some all_records => Csv (frame_of all_records)
               | None => NotFound
               end);
    if negb valid then mret 1
    else if create_backup_manifest Datetime then mret 0
    else mret 1.
End script.

End BackupScript.

(** ** What the chunk loop of the extraction amounts to *)

Module Scan.
Import Py StageLoader Extractor.

(** The rows whose [Taxon] is on the species list, in their order. *)
Definition matching (arctic_species : gset string) (rows : list Row)
    : list Row :=
  filter (λ row, cTaxon row ∈ arctic_species) rows.

(** The statistics of a file once [rows] more have been read. *)
Definition after_reading (arctic_species : gset string) (stats : FileStats)
    (rows : list Row) : FileStats :=
  {| file := file stats;
     records_scanned := records_scanned stats + length rows;
     arctic_records :=
       arctic_records stats + length (matching arctic_species rows);
     species_found :=
       species_found stats
       ∪ list_to_set (cTaxon <$> matching arctic_species rows);
     error := error stats |}.

(** The statistics with which [process_single_file] starts. *)
Definition fresh_stats (source : SourceFile) : FileStats :=
  {| file := file_name source; records_scanned := 0; arctic_records := 0;
     species_found := ∅; error := false |}.

(** A file is marked when reading it raised. *)
Definition marked (stats : FileStats) : FileStats :=
  {| file := file stats; records_scanned := records_scanned stats;
     arctic_records := arctic_records stats;
     species_found := species_found stats; error := true |}.

End Scan.

(** ** Further concrete data *)

Module Scenarios.
Import Py Store StageLoader Examples.

(** A store in which a load stopped after the first row of the frame
    below. *)
Definition interrupted_store : db :=
  {| species := the_species;
     staging := [walrus_tusks_from_greenland];
     production := [];
     available := true;
     calls := [] |}.

Definition walrus_bear_frame : list Row := [walrus_row; polar_bear_row].

(** A store with two rows staged and an empty production table. *)
Definition empty_production_store : db :=
  {| species := the_species;
     staging := [walrus_tusks_from_greenland; walrus_tusks_from_canada];
     production := [];
     available := true;
     calls := [] |}.

(** A summary row of a staging table with 20 species, rows up to 2022
    and an appendix on every row: two of the three quality tests find an
    issue. *)
Definition stale_summary : SummaryView.Summary :=
  {| SummaryView.total_records := Some 1000%Z;
     SummaryView.unique_species := Some 20%Z;
     SummaryView.earliest_year := Some 1975%Z;
     SummaryView.latest_year := Some 2022%Z;
     SummaryView.appendix_i_count := Some 100%Z;
     SummaryView.appendix_ii_count := Some 800%Z;
     SummaryView.appendix_iii_count := Some 100%Z |}.

(** The source file of the examples, when reading it raises after its
    only chunk. *)
Definition failing_source_file : Extractor.SourceFile :=
  {| Extractor.file_name := "trade_db_1.csv";
     Extractor.file_rows := [walrus_row; polar_bear_row; unknown_goose_row];
     Extractor.error_at := Some 1 |}.

End Scenarios.

(** * Properties *)

(** ** Facts about the Python base model *)

Module PyFacts.
Import Py.

#[global] Instance tuple_le_refl : Reflexive tuple_le.
Proof. intros t. induction t as [|x t IH]; simpl; [done | right; done]. Qed.

#[global] Instance tuple_le_trans : Transitive tuple_le.
Proof.
  intros t1. induction t1 as [|x t1 IH]; intros [|y t2] [|z t3]; simpl; try done.
  intros [[Hxy Hle1]|[-> H1]] [[Hyz Hle2]|[-> H2]].
  - left. split; [|by etrans].
    intros ->. apply Hxy. by apply (anti_symm String.le).
  - left. done.
  - left. done.
  - right. split; [done|]. by eapply IH.
Qed.

#[global] Instance tuple_le_antisym : AntiSymm (=) tuple_le.
Proof.
  intros t1. induction t1 as [|x t1 IH]; intros [|y t2]; simpl; try done.
  intros [[Hxy Hle1]|[-> H1]] [[Hyx Hle2]|[Heq H2]].
  - destruct Hxy. by apply (anti_symm String.le).
  - by destruct Hxy.
  - by destruct Hyx.
  - f_equal. by apply IH.
Qed.

#[global] Instance tuple_le_total : Total tuple_le.
Proof.
  intros t1. induction t1 as [|x t1 IH]; intros [|y t2]; simpl; try tauto.
  destruct (decide (x = y)) as [->|Hne].
  - destruct (IH t2); [left|right]; right; done.
  - destruct (total String.le x y); [left|right]; left; done.
Qed.

#[global] Instance tuple_le_po : PartialOrder tuple_le.
Proof. split; [split|]; apply _. Qed.

Section sorted_set.
Context {A : Type} `{Countable A} (R : relation A) `{!RelDecision R}.
Context `{!PartialOrder R} `{!Total R}.

Lemma sorted_set_perm `{SetIteration} (s : gset A) :
  sorted_set R s ≡ₚ elements s.
Proof. unfold sorted_set. by rewrite merge_sort_Permutation, iterate_perm. Qed.

Lemma sorted_set_sorted `{SetIteration} (s : gset A) :
  Sorted R (sorted_set R s).
Proof. apply (Sorted_merge_sort R). Qed.

Lemma sorted_set_NoDup `{SetIteration} (s : gset A) : NoDup (sorted_set R s).
Proof. rewrite sorted_set_perm. apply NoDup_elements. Qed.

Lemma elem_of_sorted_set `{SetIteration} (s : gset A) x :
  x ∈ sorted_set R s ↔ x ∈ s.
Proof. rewrite sorted_set_perm. apply elem_of_elements. Qed.

Lemma length_sorted_set `{SetIteration} (s : gset A) :
  length (sorted_set R s) = size s.
Proof. by rewrite sorted_set_perm. Qed.

(** The sorted list does not depend on the iteration order of the run. *)
Lemma sorted_set_run_independent (run1 run2 : SetIteration) (s : gset A) :
  @sorted_set run1 A _ _ R _ s = @sorted_set run2 A _ _ R _ s.
Proof.
  apply (Sorted_unique R).
  - apply sorted_set_sorted.
  - apply sorted_set_sorted.
  - by rewrite !sorted_set_perm.
Qed.
End sorted_set.

Lemma enumerate_from_fst {A} (l : list A) start :
  (enumerate_from start l).*1 = seq start (length l).
Proof.
  revert start. induction l as [|x l IH]; intros start; simpl; [done|].
  by rewrite IH.
Qed.

Lemma enumerate_from_snd {A} (l : list A) start :
  (enumerate_from start l).*2 = l.
Proof.
  revert start. induction l as [|x l IH]; intros start; simpl; [done|].
  by rewrite IH.
Qed.

(** Looking a value up in [{val: i for i, val in enumerate(l)}]. *)
Lemma dict_get_index_Some {A} `{EqDecision A} (l : list A) start i x :
  NoDup l → l !! i = Some x →
  dict_get x ((λ iv : nat * A, (iv.2, iv.1)) <$> enumerate_from start l)
  = Some (start + i).
Proof.
  revert start i. induction l as [|y l IH]; intros start i Hnd Hi; [done|].
  apply NoDup_cons in Hnd as [Hy Hnd].
  cbn [enumerate_from]. rewrite fmap_cons. cbn [dict_get fst snd].
  destruct i as [|i]; simpl in Hi.
  - injection Hi as ->. rewrite decide_True by done. f_equal. lia.
  - rewrite decide_False.
    + rewrite (IH (S start) i) by done. f_equal. lia.
    + intros ->. apply Hy. by eapply list_elem_of_lookup_2.
Qed.

Lemma dict_get_index_None {A} `{EqDecision A} (l : list A) start x :
  x ∉ l →
  dict_get x ((λ iv : nat * A, (iv.2, iv.1)) <$> enumerate_from start l) = None.
Proof.
  revert start. induction l as [|y l IH]; intros start Hx; [done|].
  apply not_elem_of_cons in Hx as [Hne Hx].
  cbn [enumerate_from]. rewrite fmap_cons. cbn [dict_get fst snd].
  rewrite decide_False by done. by apply IH.
Qed.

(** Looking an id up in [{i: val for i, val in enumerate(l)}], whatever
    injective form [key_of] the integer key takes. *)
Lemma dict_get_enumerated {A K} `{EqDecision K} (key_of : nat → K)
    `{!Inj (=) (=) key_of} (l : list A) start i :
  dict_get (key_of (start + i))
    ((λ iv : nat * A, (key_of iv.1, iv.2)) <$> enumerate_from start l)
  = l !! i.
Proof.
  revert start i. induction l as [|y l IH]; intros start i; [done|].
  cbn [enumerate_from]. rewrite fmap_cons. cbn [dict_get fst snd].
  destruct i as [|i]; cbn [lookup list_lookup].
  - rewrite Nat.add_0_r. by rewrite decide_True.
  - rewrite decide_False by (intros Heq; apply (inj key_of) in Heq; lia).
    replace (start + S i) with (S start + i) by lia. apply IH.
Qed.

Lemma dict_get_set {K V} `{EqDecision K} (d : dict K V) k v k' :
  dict_get k' (dict_set k v d) = if decide (k' = k) then Some v else dict_get k' d.
Proof.
  induction d as [|[k0 v0] d IH]; simpl.
  - done.
  - destruct (decide (k = k0)) as [->|Hne]; simpl.
    + destruct (decide (k' = k0)); done.
    + destruct (decide (k' = k0)) as [->|Hne'].
      * by rewrite decide_False.
      * done.
Qed.

Lemma filter_all {A} (P : A → Prop) `{∀ x, Decision (P x)} (l : list A) :
  (∀ x, x ∈ l → P x) → filter P l = l.
Proof.
  induction l as [|x l IH]; intros Hall; [done|].
  rewrite filter_cons_True by (apply Hall; left).
  f_equal. apply IH. intros y Hy. apply Hall. by right.
Qed.

(** [range(0, n, size)] slices cut the list into consecutive pieces. *)
Lemma concat_slices {A} (size : nat) (l : list A) (m : nat) :
  0 < size → length l ≤ m * size →
  concat ((λ k, take size (drop (k * size) l)) <$> seq 0 m) = l.
Proof.
  intros Hsize. revert l. induction m as [|m IH]; intros l Hlen.
  - simpl in *. by destruct l; [|simpl in Hlen; lia].
  - rewrite <-cons_seq, <-fmap_S_seq. simpl. rewrite drop_0.
    rewrite <-list_fmap_compose.
    rewrite <-(take_drop size l) at 2. f_equal.
    rewrite <-(IH (drop size l)) by (rewrite length_drop; lia).
    f_equal. apply list_fmap_ext. intros _ k _. simpl.
    by rewrite drop_drop, (Nat.add_comm size).
Qed.

Lemma concat_batches {A} (size : nat) (l : list A) :
  0 < size → concat (batches size l) = l.
Proof.
  intros Hsize. apply concat_slices; [done|].
  pose proof (Nat.div_mod (length l + size - 1) size ltac:(lia)) as Hdiv.
  pose proof (Nat.mod_upper_bound (length l + size - 1) size ltac:(lia)).
  rewrite (Nat.mul_comm _ size). unfold Nat.div in *. lia.
Qed.

Lemma batches_nonempty {A} (size : nat) (l : list A) :
  0 < size → Forall (λ batch, batch ≠ []) (batches size l).
Proof.
  intros Hsize. apply Forall_fmap, Forall_forall. intros k Hk. simpl.
  apply elem_of_seq in Hk as [_ Hk]. simpl in Hk.
  assert (k * size < length l) as Hlt.
  { pose proof (Nat.div_mod (length l + size - 1) size ltac:(lia)) as Hdiv.
    pose proof (Nat.mod_upper_bound (length l + size - 1) size ltac:(lia)).
    unfold Nat.div in *. nia. }
  intros Hnil. apply (f_equal length) in Hnil.
  rewrite length_take, length_drop in Hnil. simpl in Hnil. lia.
Qed.

Lemma range_batches_pos {A} (size : Z) (l : list A) :
  (0 < size)%Z → range_batches size l = batches (Z.to_nat size) l.
Proof. intros Hsize. unfold range_batches. by rewrite (proj2 (Z.ltb_lt _ _)). Qed.

Lemma range_batches_neg {A} (size : Z) (l : list A) :
  (size ≤ 0)%Z → range_batches size l = [].
Proof. intros Hsize. unfold range_batches. by rewrite (proj2 (Z.ltb_ge _ _)). Qed.

Lemma concat_range_batches {A} (size : Z) (l : list A) :
  (0 < size)%Z → concat (range_batches size l) = l.
Proof.
  intros Hsize. rewrite range_batches_pos by done. apply concat_batches. lia.
Qed.

Lemma range_batches_nonempty {A} (size : Z) (l : list A) :
  Forall (λ batch, batch ≠ []) (range_batches size l).
Proof.
  destruct (Z.lt_ge_cases 0 size) as [Hsize|Hsize].
  - rewrite range_batches_pos by done. apply batches_nonempty. lia.
  - rewrite range_batches_neg by done. constructor.
Qed.

End PyFacts.

(** ** The lookup tables and the two readers *)

Module OptimizerFacts.
Import Py PyFacts Optimizer Reader.

#[global] Instance field_name_inj : Inj (=) (=) field_name.
Proof. intros f g Hfg. destruct f, g; done. Qed.

#[global] Instance KInt_inj : Inj (=) (=) KInt.
Proof. by intros n m [= ->]. Qed.

#[global] Instance str_key_inj : Inj (=) (=) str_key.
Proof. intros n m [= Heq]. by apply (inj pretty) in Heq. Qed.

(** After the JSON round trip no key is an [int] any more. *)
Lemma dict_get_int_after_json {V} (d : dict key V) (n : nat) :
  dict_get (KInt n) (json_keys d) = None.
Proof.
  induction d as [|[k v] d IH]; [done|].
  unfold json_keys in *. rewrite fmap_cons. cbn [dict_get fst snd].
  rewrite decide_False; [done|]. by destruct k.
Qed.

(** Looking up [str(n)] after the round trip finds what [n] found before. *)
Lemma dict_get_str_after_json {V} (d : dict key V) (n : nat) :
  int_keyed d →
  dict_get (str_key n) (json_keys d) = dict_get (KInt n) d.
Proof.
  induction 1 as [|[k v] d [m Hk] _ IH]; [done|]. simpl in Hk. subst k.
  unfold json_keys in *. rewrite fmap_cons. cbn [dict_get fst snd json_key].
  destruct (decide (n = m)) as [->|Hne].
  - by rewrite !decide_True.
  - rewrite !decide_False; [done| |].
    + intros [= ->]. done.
    + intros Heq. by apply (inj str_key) in Heq.
Qed.

Lemma reverse_mapping_int_keyed (mapping : dict string nat) :
  int_keyed (reverse_mapping mapping).
Proof. apply Forall_fmap, Forall_forall. intros [v i] _. by exists i. Qed.

Section tables.
Context `{SetIteration}.

Lemma reverse_index_of_sorted (values : gset string) :
  reverse_mapping (index_of_sorted values)
  = (λ iv : nat * string, (KInt iv.1, iv.2))
      <$> enumerate (sorted_set String.le values).
Proof.
  unfold reverse_mapping, index_of_sorted. rewrite <-list_fmap_compose.
  by apply list_fmap_ext.
Qed.

(** A value present in the set gets an id, and the reverse table maps
    the id back to the value. *)
Lemma index_of_sorted_Some (values : gset string) (v : string) :
  v ∈ values →
  ∃ i, dict_get v (index_of_sorted values) = Some i
       ∧ dict_get (KInt i) (reverse_mapping (index_of_sorted values)) = Some v.
Proof.
  intros Hv. apply (elem_of_sorted_set String.le) in Hv.
  apply list_elem_of_lookup_1 in Hv as [i Hi]. exists i. split.
  - unfold index_of_sorted, enumerate.
    rewrite (dict_get_index_Some _ 0 i v); [done| |done].
    apply (sorted_set_NoDup String.le).
  - rewrite reverse_index_of_sorted. unfold enumerate.
    by rewrite (dict_get_enumerated KInt _ 0 i).
Qed.

Lemma index_of_sorted_None (values : gset string) (v : string) :
  v ∉ values → dict_get v (index_of_sorted values) = None.
Proof.
  intros Hv. unfold index_of_sorted, enumerate. apply dict_get_index_None.
  by rewrite (elem_of_sorted_set String.le).
Qed.

(** The ids of a table are [0 .. n-1], in the order of the sorted
    values. *)
Lemma reverse_mapping_dense (values : gset string) :
  dict_keys (reverse_mapping (index_of_sorted values))
  = KInt <$> seq 0 (size values)
  ∧ (reverse_mapping (index_of_sorted values)).*2
    = sorted_set String.le values.
Proof.
  rewrite reverse_index_of_sorted. unfold dict_keys, enumerate. split.
  - rewrite <-(length_sorted_set String.le).
    rewrite <-(enumerate_from_fst (sorted_set String.le values) 0).
    rewrite <-!list_fmap_compose. by apply list_fmap_ext.
  - rewrite <-(enumerate_from_snd (sorted_set String.le values) 0) at 2.
    rewrite <-!list_fmap_compose. by apply list_fmap_ext.
Qed.
End tables.

End OptimizerFacts.

Module ReaderFacts.
Import Py PyFacts Optimizer Reader OptimizerFacts.

Lemma enumerate_from_fmap {A B} (f : A → B) (l : list A) start :
  enumerate_from start (f <$> l)
  = (λ iv : nat * A, (iv.1, f iv.2)) <$> enumerate_from start l.
Proof.
  revert start. induction l as [|x l IH]; intros start; [done|].
  simpl. by rewrite IH.
Qed.

Lemma dict_get_fmap_values {K V W} `{EqDecision K} (f : V → W)
    (d : dict K V) (k : K) :
  dict_get k ((λ kv : K * V, (kv.1, f kv.2)) <$> d) = f <$> dict_get k d.
Proof.
  induction d as [|[k' v] d IH]; [done|].
  rewrite fmap_cons. cbn [dict_get fst snd]. by case_decide.
Qed.

Lemma data_tuple_zip (combo : list string) :
  length combo = 5 → data_tuple (zip static_names combo) = Some <$> combo.
Proof.
  intros Hlen.
  destruct combo as [|a [|b [|c [|d [|e [|]]]]]]; try discriminate Hlen.
  reflexivity.
Qed.

Lemma find_taxonomic_id_index (combos : list (list string)) start i combo :
  NoDup combos → Forall (λ c, length c = 5) combos →
  combos !! i = Some combo →
  find_taxonomic_id
    ((λ ic : nat * list string, (ic.1, zip static_names ic.2))
       <$> enumerate_from start combos) combo
  = Some (start + i).
Proof.
  revert start i.
  induction combos as [|c0 combos IH]; intros start i Hnd Hlen Hi; [done|].
  apply NoDup_cons in Hnd as [Hc0 Hnd].
  apply Forall_cons in Hlen as [Hlen0 Hlen].
  cbn [enumerate_from]. rewrite fmap_cons. cbn [find_taxonomic_id fst snd].
  rewrite data_tuple_zip by done.
  destruct i as [|i]; simpl in Hi.
  - injection Hi as ->. rewrite decide_True by done. f_equal. lia.
  - rewrite decide_False.
    + rewrite (IH (S start) i) by done. f_equal. lia.
    + intros Heq. apply (inj (fmap Some)) in Heq. subst c0.
      apply Hc0. by eapply list_elem_of_lookup_2.
Qed.

Section round_trip.
Context `{SetIteration}.
Variable trade_records : list TradeRecord.

Let sorted_combos : list (list string) :=
  sorted_set tuple_le (static_combinations trade_records).

Lemma taxonomic_table :
  taxonomic (lookup_tables_of trade_records)
  = (λ iv : nat * dict string string, (KInt iv.1, iv.2))
      <$> enumerate (zip static_names <$> sorted_combos).
Proof.
  unfold lookup_tables_of, static_lookup, enumerate. simpl.
  rewrite enumerate_from_fmap, <-!list_fmap_compose. by apply list_fmap_ext.
Qed.

Lemma sorted_combos_length :
  Forall (λ c, length c = 5) sorted_combos.
Proof.
  apply Forall_forall. intros c Hc.
  apply (elem_of_sorted_set tuple_le) in Hc.
  apply elem_of_list_to_set, list_elem_of_fmap in Hc as [r [-> _]]. done.
Qed.

(** The taxonomic id of a record of the list points at its own tuple. *)
Lemma taxonomic_id_of_record (record : TradeRecord) :
  record ∈ trade_records →
  ∃ i, n_taxonomic_id (normalize trade_records record) = Some i
       ∧ dict_get (KInt i) (taxonomic (lookup_tables_of trade_records))
         = Some (zip static_names (static_combo record)).
Proof.
  intros Hr.
  assert (static_combo record ∈ sorted_combos) as Hin.
  { apply (elem_of_sorted_set tuple_le), elem_of_list_to_set.
    by apply list_elem_of_fmap_2. }
  apply list_elem_of_lookup_1 in Hin as [i Hi]. exists i. split.
  - simpl. unfold static_lookup, enumerate.
    rewrite (find_taxonomic_id_index _ 0 i (static_combo record)); [done| | |done].
    + apply (sorted_set_NoDup tuple_le).
    + apply sorted_combos_length.
  - rewrite taxonomic_table. unfold enumerate.
    rewrite (dict_get_enumerated KInt _ 0 i), list_lookup_fmap.
    fold sorted_combos. by rewrite Hi.
Qed.

Lemma location_in_table (record : TradeRecord) (f : field) :
  record ∈ trade_records → f ∈ location_fields → rget record f ≠ "" →
  rget record f ∈ all_locations trade_records.
Proof.
  intros Hr Hf Hne. unfold all_locations.
  apply elem_of_list_to_set, list_elem_of_filter.
  split; [done|]. apply list_elem_of_bind. exists record. split; [|done].
  by apply list_elem_of_fmap_2.
Qed.

Lemma empty_not_location : "" ∉ all_locations trade_records.
Proof.
  unfold all_locations. intros Hin.
  apply elem_of_list_to_set, list_elem_of_filter in Hin as [Hne _].
  done.
Qed.

Lemma value_in_field_values (record : TradeRecord) (f : field) :
  record ∈ trade_records → rget record f ≠ "" →
  rget record f ∈ field_values trade_records f.
Proof.
  intros Hr Hne. unfold field_values. apply elem_of_difference. split.
  - apply elem_of_list_to_set.
    by apply (list_elem_of_fmap_2 (flip rget f)).
  - by rewrite elem_of_singleton.
Qed.

Lemma empty_not_field_value (f : field) : "" ∉ field_values trade_records f.
Proof.
  unfold field_values. intros Hin. apply elem_of_difference in Hin as [_ Hin].
  apply Hin. by apply elem_of_singleton.
Qed.
End round_trip.

End ReaderFacts.

Module RoundTrip.
Import Py PyFacts Optimizer Reader OptimizerFacts ReaderFacts.

(** Which step of the reader decides a key of the reconstructed record. *)
Lemma full_get_denormalize (key_of : nat → key) (lt : LookupTables)
    (record : NormalizedRecord) (f : field) :
  full_get (denormalize key_of lt record) f
  = if is_static f
    then dict_get (field_name f) (add_taxonomic key_of lt record [])
    else if is_location f then Some (location_value key_of lt record f)
    else Some (categorical_value key_of lt record f).
Proof.
  unfold full_get, denormalize, add_categorical, add_locations.
  cbn [f_fields foldl]. rewrite !dict_get_set.
  destruct f; reflexivity.
Qed.

Section in_memory.
Context `{SetIteration}.
Variable trade_records : list TradeRecord.

Let lookup_tables := lookup_tables_of trade_records.

Lemma static_round_trip (record : TradeRecord) (f : field) :
  record ∈ trade_records → is_static f = true →
  dict_get (field_name f)
    (add_taxonomic KInt lookup_tables (normalize trade_records record) [])
  = Some (rget record f).
Proof.
  intros Hr Hf. unfold add_taxonomic.
  destruct (taxonomic_id_of_record trade_records record Hr) as (i & -> & Hi).
  fold lookup_tables in Hi. rewrite Hi.
  destruct f; try discriminate Hf; reflexivity.
Qed.

Lemma location_round_trip (record : TradeRecord) (f : field) :
  record ∈ trade_records → is_location f = true →
  location_value KInt lookup_tables (normalize trade_records record) f
  = rget record f.
Proof.
  intros Hr Hf. unfold location_value.
  assert (id_of (normalize trade_records record) f
          = dict_get (rget record f) (location_lookup trade_records)) as ->.
  { destruct f; try discriminate Hf; reflexivity. }
  destruct (decide (rget record f = "")) as [Heq|Hne].
  - rewrite Heq. unfold location_lookup.
    rewrite index_of_sorted_None; [done|]. apply empty_not_location.
  - destruct (index_of_sorted_Some (all_locations trade_records) (rget record f))
      as (i & Hi & Hrev).
    { apply location_in_table; [done| |done].
      destruct f; try discriminate Hf; set_solver. }
    unfold location_lookup. rewrite Hi. simpl.
    unfold location_reverse, location_lookup. by rewrite Hrev.
Qed.

Lemma categorical_round_trip (record : TradeRecord) (f : field) :
  record ∈ trade_records → is_static f = false → is_location f = false →
  categorical_value KInt lookup_tables (normalize trade_records record) f
  = rget record f.
Proof.
  intros Hr Hs Hl. unfold categorical_value.
  assert (id_of (normalize trade_records record) f
          = dict_get (rget record f)
              (index_of_sorted (field_values trade_records f))) as ->.
  { destruct f; try discriminate Hs; try discriminate Hl; reflexivity. }
  assert (dict_get (field_name f) (categorical_reverse lookup_tables)
          = Some (reverse_mapping
                    (index_of_sorted (field_values trade_records f)))) as Hrev.
  { destruct f; try discriminate Hs; try discriminate Hl; reflexivity. }
  destruct (decide (rget record f = "")) as [Heq|Hne].
  - rewrite Heq, index_of_sorted_None; [done|]. apply empty_not_field_value.
  - destruct (index_of_sorted_Some (field_values trade_records f) (rget record f))
      as (i & Hi & Hback).
    { by apply value_in_field_values. }
    by rewrite Hi, Hrev, Hback.
Qed.

(** With the tables as the optimizer builds them in memory, the reader
    restores each of the thirteen fields of each record. *)
Lemma in_memory_round_trip (record : TradeRecord) (f : field) :
  record ∈ trade_records →
  full_get (denormalize KInt lookup_tables (normalize trade_records record)) f
  = Some (rget record f).
Proof.
  intros Hr. rewrite full_get_denormalize.
  destruct (is_static f) eqn:Hs; [by apply static_round_trip|].
  destruct (is_location f) eqn:Hl.
  - f_equal. by apply location_round_trip.
  - f_equal. by apply categorical_round_trip.
Qed.

Lemma lookup_tables_int_keyed :
  int_keyed (taxonomic lookup_tables)
  ∧ int_keyed (locations lookup_tables)
  ∧ Forall (λ fm, int_keyed fm.2) (categorical_reverse lookup_tables).
Proof.
  split_and!.
  - apply Forall_fmap, Forall_forall. intros [i d] _. by exists i.
  - apply reverse_mapping_int_keyed.
  - apply Forall_fmap, Forall_forall. intros [name mapping] _.
    apply reverse_mapping_int_keyed.
Qed.
End in_memory.

End RoundTrip.

(** ** The optimized file read back *)

Module JsonFacts.
Import Py PyFacts Optimizer Reader OptimizerFacts ReaderFacts RoundTrip.

(** [optimized_reader.py] on tables that went through JSON: no id is found,
    so no taxonomic key is set and every other key is the empty string. *)
Lemma reader_after_json (lt : LookupTables) (record : NormalizedRecord)
    (f : field) :
  full_get (denormalize KInt (json_round_trip lt) record) f
  = if is_static f then None else Some "".
Proof.
  rewrite full_get_denormalize.
  destruct (is_static f) eqn:Hs.
  - unfold add_taxonomic. destruct (n_taxonomic_id record); [|done].
    simpl. by rewrite dict_get_int_after_json.
  - destruct (is_location f).
    + unfold location_value. destruct (id_of record f); [|done].
      simpl. by rewrite dict_get_int_after_json.
    + unfold categorical_value. destruct (id_of record f); [|done].
      simpl. rewrite dict_get_fmap_values.
      destruct (dict_get (field_name f) (categorical_reverse lt)); [|done].
      simpl. by rewrite dict_get_int_after_json.
Qed.

(** The reader of [load_optimized_trade_data.py] on tables that went
    through JSON does what the in-memory lookup does. *)
Lemma loader_reader_after_json (lt : LookupTables) (record : NormalizedRecord) :
  int_keyed (taxonomic lt) → int_keyed (locations lt) →
  Forall (λ fm, int_keyed fm.2) (categorical_reverse lt) →
  denormalize str_key (json_round_trip lt) record = denormalize KInt lt record.
Proof.
  intros Htax Hloc Hcat.
  assert (∀ f, location_value str_key (json_round_trip lt) record f
               = location_value KInt lt record f) as Hl.
  { intros f. unfold location_value. destruct (id_of record f); [|done].
    simpl. by rewrite dict_get_str_after_json. }
  assert (∀ f, categorical_value str_key (json_round_trip lt) record f
               = categorical_value KInt lt record f) as Hc.
  { intros f. unfold categorical_value. destruct (id_of record f); [|done].
    simpl. rewrite dict_get_fmap_values.
    destruct (dict_get (field_name f) (categorical_reverse lt)) as [mapping|] eqn:Hm;
      [|done].
    simpl. rewrite dict_get_str_after_json; [done|].
    clear -Hcat Hm. induction Hcat as [|[name m] d Hd _ IH]; [done|].
    simpl in Hm. case_decide; [by simplify_eq|by apply IH]. }
  assert (∀ full, add_taxonomic str_key (json_round_trip lt) record full
                  = add_taxonomic KInt lt record full) as Ht.
  { intros full. unfold add_taxonomic. destruct (n_taxonomic_id record); [|done].
    simpl. by rewrite dict_get_str_after_json. }
  unfold denormalize, add_categorical, add_locations. cbn [foldl].
  by rewrite Ht, !Hl, !Hc.
Qed.

Section runs.
Lemma index_of_sorted_run (run1 run2 : SetIteration) (values : gset string) :
  @index_of_sorted run1 values = @index_of_sorted run2 values.
Proof.
  unfold index_of_sorted.
  by rewrite (sorted_set_run_independent String.le run1 run2).
Qed.

Lemma static_lookup_run (run1 run2 : SetIteration) trade_records :
  @static_lookup run1 trade_records = @static_lookup run2 trade_records.
Proof.
  unfold static_lookup.
  by rewrite (sorted_set_run_independent tuple_le run1 run2).
Qed.

Lemma categorical_lookup_run (run1 run2 : SetIteration) trade_records :
  @categorical_lookup run1 trade_records
  = @categorical_lookup run2 trade_records.
Proof.
  unfold categorical_lookup. apply list_fmap_ext. intros _ f _.
  by rewrite (index_of_sorted_run run1 run2).
Qed.

Lemma extract_lookup_tables_run (run1 run2 : SetIteration) trade_records :
  @extract_lookup_tables run1 trade_records
  = @extract_lookup_tables run2 trade_records.
Proof.
  unfold extract_lookup_tables. f_equal.
  - unfold lookup_tables_of, location_reverse, location_lookup.
    by rewrite (static_lookup_run run1 run2), (index_of_sorted_run run1 run2),
      (categorical_lookup_run run1 run2).
  - apply list_fmap_ext. intros _ record _.
    unfold normalize, location_lookup.
    by rewrite (static_lookup_run run1 run2), (index_of_sorted_run run1 run2),
      (categorical_lookup_run run1 run2).
Qed.
End runs.

End JsonFacts.

(** ** Round trip and determinism of the normalization engine *)

Module Normalization.
Import Py PyFacts Optimizer Reader OptimizerFacts ReaderFacts RoundTrip JsonFacts.
Import Examples.

(** The round trip holds for the reader of [load_optimized_trade_data.py],
    which reads the file the optimizer wrote and looks ids up as
    [str(id)]. *)
Lemma loader_categorical_loop `{SetIteration}
    (trade_records : list TradeRecord) (record : NormalizedRecord)
    (full : dict string string) :
  loader_add_categorical (read_optimized_file trade_records).1 record full
  = add_categorical str_key (read_optimized_file trade_records).1 record full.
Proof. reflexivity. Qed.

Lemma loader_round_trip `{SetIteration} (trade_records : list TradeRecord)
    (record : TradeRecord) (f : field) :
  record ∈ trade_records →
  full_get
    (loader_denormalize (read_optimized_file trade_records).1
       (normalize trade_records record)) f
  = Some (rget record f).
Proof.
  intros Hr.
  assert (loader_denormalize (read_optimized_file trade_records).1
            (normalize trade_records record)
          = denormalize str_key (read_optimized_file trade_records).1
              (normalize trade_records record)) as ->.
  { unfold loader_denormalize, denormalize.
    by rewrite loader_categorical_loop. }
  unfold read_optimized_file, extract_lookup_tables. simpl.
  destruct (lookup_tables_int_keyed trade_records) as (Ht & Hl & Hc).
  rewrite loader_reader_after_json by done.
  by apply in_memory_round_trip.
Qed.

(** For every record list, [optimized_reader.py] on the file the
    optimizer wrote reconstructs no taxonomic key and the empty string
    for every other lookup-covered key. *)
Lemma reader_loses_every_lookup_field `{SetIteration}
    (trade_records : list TradeRecord) (f : field) :
  let '(lookup_tables, normalized_records) := read_optimized_file trade_records in
  Forall (λ full, full_get full f = if is_static f then None else Some "")
    (get_denormalized_records lookup_tables normalized_records).
Proof.
  unfold read_optimized_file, extract_lookup_tables, get_denormalized_records.
  apply Forall_fmap, Forall_forall. intros record _. simpl.
  apply reader_after_json.
Qed.

(** C1 (code defect).  For the one-record list [polar_bear_skin], whose
    importer is "US", exporter "CA" and appendix "II", the records that
    [OptimizedTradeDataReader.get_denormalized_records] returns for the
    file written by the optimizer have the importer and the exporter
    reconstructed as the empty string and no appendix key at all: the
    round trip does not reproduce the original values. *)
Theorem optimized_reader_round_trip_fails :
  let '(lookup_tables, normalized_records) :=
    @read_optimized_file a_run [polar_bear_skin] in
  let denormalized := get_denormalized_records lookup_tables normalized_records in
  (λ full, (full_get full Importer, full_get full Exporter, full_get full Appendix))
    <$> denormalized
  = [(Some "", Some "", None)]
  ∧ (rget polar_bear_skin Importer, rget polar_bear_skin Exporter,
     rget polar_bear_skin Appendix) = ("US", "CA", "II").
Proof. split; vm_compute; reflexivity. Qed.

Lemma sorted_set_listing `{SetIteration} {A} `{Countable A} (R : relation A)
    `{!RelDecision R} `{!PartialOrder R} `{!Total R} (s : gset A)
    (present : A → Prop) :
  (∀ x, x ∈ s ↔ present x) →
  increasing_listing R present (sorted_set R s).
Proof.
  intros Hs. split_and!.
  - by apply sorted_set_sorted.
  - by apply sorted_set_NoDup.
  - intros x. rewrite <- Hs. by apply elem_of_sorted_set.
Qed.

(** What the three collecting loops put into their sets. *)
Lemma elem_of_static_combinations (trade_records : list TradeRecord)
    (combo : list string) :
  combo ∈ static_combinations trade_records
  ↔ ∃ record, record ∈ trade_records
              ∧ combo = [tr_appendix record; tr_class record; tr_order record;
                         tr_family record; tr_genus record].
Proof.
  unfold static_combinations.
  rewrite elem_of_list_to_set, list_elem_of_fmap.
  split; intros (record & ? & ?); exists record; by split.
Qed.

Lemma elem_of_all_locations (trade_records : list TradeRecord) (v : string) :
  v ∈ all_locations trade_records
  ↔ v ≠ ""
    ∧ ∃ record, record ∈ trade_records
                ∧ (v = tr_importer record ∨ v = tr_exporter record
                   ∨ v = tr_origin record).
Proof.
  unfold all_locations.
  rewrite elem_of_list_to_set, list_elem_of_filter, list_elem_of_bind.
  split.
  - intros (Hne & record & Hv & Hr). split; [done|]. exists record.
    split; [done|]. unfold location_fields in Hv. simpl in Hv.
    rewrite !elem_of_cons in Hv.
    destruct Hv as [?|[?|[?|Hnil]]]; [tauto..|].
    by apply elem_of_nil in Hnil.
  - intros (Hne & record & Hr & Hv). split; [done|]. exists record.
    split; [|done]. unfold location_fields. simpl. rewrite !elem_of_cons.
    tauto.
Qed.

Lemma elem_of_field_values (trade_records : list TradeRecord) (f : field)
    (v : string) :
  v ∈ field_values trade_records f
  ↔ v ≠ "" ∧ ∃ record, record ∈ trade_records ∧ v = rget record f.
Proof.
  unfold field_values.
  rewrite elem_of_difference, elem_of_list_to_set, list_elem_of_fmap,
    elem_of_singleton.
  split.
  - intros [(record & -> & Hr) Hne]. split; [done|]. by exists record.
  - intros (Hne & record & Hr & ->). split; [|done]. by exists record.
Qed.

Lemma enumerated_keys {A B K} (key_of : nat → K) (g : A → B) (l : list A) :
  dict_keys ((λ iv : nat * A, (key_of iv.1, g iv.2)) <$> enumerate l)
  = key_of <$> seq 0 (length l).
Proof.
  unfold dict_keys, enumerate. rewrite <-(enumerate_from_fst l 0).
  rewrite <-!list_fmap_compose. by apply list_fmap_ext.
Qed.

(** C4.  Two runs of [extract_lookup_tables] on the same record list, each
    with its own set iteration order, return the same tables and the same
    normalized records; and in each table the ids are [0 .. n-1], given in
    increasing order of the distinct tuples or values present in the
    records.  The taxonomic table lists the tuples (appendix, class,
    order, family, genus) of the records; the locations table lists the
    non-empty importers, exporters and origins of the records; the
    categorical table of a field, and its reverse table, list the
    non-empty values of that field in the records. *)
Theorem extract_lookup_tables_deterministic (run1 run2 : SetIteration)
    (trade_records : list TradeRecord) :
  @extract_lookup_tables run1 trade_records
  = @extract_lookup_tables run2 trade_records
  ∧ (let lookup_tables := (@extract_lookup_tables run1 trade_records).1 in
     let categorical_table (name : string) (value : TradeRecord → string) :=
       ∃ values,
         increasing_listing String.le
           (λ v, v ≠ "" ∧ ∃ record, record ∈ trade_records ∧ v = value record)
           values
         ∧ dict_get name (categorical lookup_tables)
           = Some ((λ iv : nat * string, (iv.2, iv.1)) <$> enumerate values)
         ∧ dict_get name (categorical_reverse lookup_tables)
           = Some ((λ iv : nat * string, (KInt iv.1, iv.2))
                     <$> enumerate values) in
     (∃ combos,
        increasing_listing tuple_le
          (λ combo, ∃ record,
             record ∈ trade_records
             ∧ combo = [tr_appendix record; tr_class record; tr_order record;
                        tr_family record; tr_genus record])
          combos
        ∧ taxonomic lookup_tables
          = (λ ic : nat * list string,
               (KInt ic.1,
                zip ["appendix"; "class"; "order"; "family"; "genus"] ic.2))
              <$> enumerate combos
        ∧ dict_keys (taxonomic lookup_tables) = KInt <$> seq 0 (length combos))
     ∧ (∃ values,
          increasing_listing String.le
            (λ v, v ≠ ""
                  ∧ ∃ record,
                      record ∈ trade_records
                      ∧ (v = tr_importer record ∨ v = tr_exporter record
                         ∨ v = tr_origin record))
            values
          ∧ locations lookup_tables
            = (λ iv : nat * string, (KInt iv.1, iv.2)) <$> enumerate values
          ∧ dict_keys (locations lookup_tables)
            = KInt <$> seq 0 (length values))
     ∧ categorical_table "term" tr_term
     ∧ categorical_table "purpose" tr_purpose
     ∧ categorical_table "source" tr_source
     ∧ categorical_table "reporter_type" tr_reporter_type
     ∧ categorical_table "unit" tr_unit
     ∧ dict_keys (categorical lookup_tables)
       = ["term"; "purpose"; "source"; "reporter_type"; "unit"]
     ∧ dict_keys (categorical_reverse lookup_tables)
       = ["term"; "purpose"; "source"; "reporter_type"; "unit"]).
Proof.
  split; [apply extract_lookup_tables_run|]. cbv zeta.
  assert (∀ f, f ∈ categorical_fields →
            ∃ values,
              increasing_listing String.le
                (λ v, v ≠ ""
                      ∧ ∃ record, record ∈ trade_records ∧ v = rget record f)
                values
              ∧ dict_get (field_name f)
                  (categorical (@extract_lookup_tables run1 trade_records).1)
                = Some ((λ iv : nat * string, (iv.2, iv.1)) <$> enumerate values)
              ∧ dict_get (field_name f)
                  (categorical_reverse
                     (@extract_lookup_tables run1 trade_records).1)
                = Some ((λ iv : nat * string, (KInt iv.1, iv.2))
                          <$> enumerate values)) as Hcategorical.
  { intros f Hf.
    exists (@sorted_set run1 _ _ _ String.le _ (field_values trade_records f)).
    split;
      [apply (sorted_set_listing String.le), elem_of_field_values|].
    rewrite <-reverse_index_of_sorted.
    repeat (apply elem_of_cons in Hf as [->|Hf]; [split; reflexivity|]).
    by apply elem_of_nil in Hf. }
  split_and!;
    [| |apply (Hcategorical Term)|apply (Hcategorical Purpose)
     |apply (Hcategorical Source)|apply (Hcategorical ReporterType)
     |apply (Hcategorical Unit)|reflexivity|reflexivity];
    [| |unfold categorical_fields; repeat constructor..]; simpl.
  - exists (@sorted_set run1 _ _ _ tuple_le _ (static_combinations trade_records)).
    split;
      [apply (sorted_set_listing tuple_le), elem_of_static_combinations|].
    assert (∀ l : list (list string),
              (λ td : nat * dict string string, (KInt td.1, td.2))
                <$> ((λ ic : nat * list string, (ic.1, zip static_names ic.2))
                       <$> enumerate l)
              = (λ ic : nat * list string, (KInt ic.1, zip static_names ic.2))
                  <$> enumerate l) as Heq.
    { intros l. rewrite <-list_fmap_compose. by apply list_fmap_ext. }
    unfold static_lookup. rewrite Heq. split; [done|].
    apply (enumerated_keys KInt (zip static_names)).
  - exists (@sorted_set run1 _ _ _ String.le _ (all_locations trade_records)).
    split;
      [apply (sorted_set_listing String.le), elem_of_all_locations|].
    unfold location_reverse, location_lookup. rewrite reverse_index_of_sorted.
    split; [done|]. apply (enumerated_keys KInt id).
Qed.

End Normalization.

(** ** The store monad *)

Module StoreFacts.
Import Py Store.

Create HintDb store discriminated.
#[global] Hint Unfold mbind mret M_bind M_ret bind ret raise try_except gets
  modify record_call request select_count select_species select_range
  set_staging set_production delete_all_staging logged with_staging
  with_production : store.

Ltac unfold_store := autounfold with store in *; simpl in *.

Lemma select_count_available (t : table) (d : db) :
  available d = true →
  select_count t d = (inr (Z.of_nat (length (rows_of t d))), logged (SelectCount t) d).
Proof. intros Ha. unfold_store. by rewrite Ha. Qed.

Lemma select_count_unavailable (t : table) (d : db) :
  available d = false →
  select_count t d = (inl Unavailable, logged (SelectCount t) d).
Proof. intros Ha. unfold_store. by rewrite Ha. Qed.

End StoreFacts.

(** ** The record-count check of the validation gate *)

Module ValidatorFacts.
Import Py Store StoreFacts Validator Examples.

Lemma too_many_missing_spec (missing : Z) :
  too_many_missing missing = true ↔ (expected_count < 10 * missing)%Z.
Proof.
  unfold too_many_missing. rewrite negb_true_iff, <-not_true_iff_false.
  rewrite Qle_bool_iff. unfold Qle, expected_count. simpl. lia.
Qed.

(** C7, as stated, fails: with the store out of reach the check returns
    False and records a critical issue, although the staging table holds
    exactly the expected number of rows. *)
Lemma check_record_count_fails_without_shortfall :
  (check_record_count initial_results unreachable_full_store).1
  = inr (false, fail (RecordCountCheckFailed Unavailable) initial_results)
  ∧ Z.of_nat (length (staging unreachable_full_store)) = expected_count.
Proof.
  split.
  - unfold check_record_count, try_except, mbind, M_bind, bind.
    rewrite select_count_unavailable; reflexivity.
  - unfold unreachable_full_store. cbn [staging].
    rewrite length_replicate. apply Z2Nat.id. unfold expected_count. lia.
Qed.

(** C7, amended.  The check returns False exactly when the count query
    raises or the staging count is below the expected count by more than
    10% of the expected count; whenever it returns False it records one
    critical issue.  With an answered query, a smaller shortfall records a
    warning and passes, and a staging count above the expected count
    records a warning and passes. *)
Theorem check_record_count_verdict (results : ValidationResults) (d : db) :
  let staging_count := Z.of_nat (length (staging d)) in
  let missing := (expected_count - staging_count)%Z in
  ∃ passed results',
    (check_record_count results d).1 = inr (passed, results')
    ∧ (passed = false
       ↔ available d = false ∨ (expected_count < 10 * missing)%Z)
    ∧ (passed = false →
       ∃ issue, critical_issues results' = critical_issues results ++ [issue]
                ∧ checks_failed results' = checks_failed results + 1)
    ∧ (passed = true →
       critical_issues results' = critical_issues results
       ∧ checks_passed results' = checks_passed results + 1)
    ∧ (available d = true → (0 < missing)%Z → (10 * missing ≤ expected_count)%Z →
       passed = true
       ∧ warnings results' = warnings results ++ [MissingRecords missing])
    ∧ (available d = true → (expected_count < staging_count)%Z →
       passed = true
       ∧ warnings results'
         = warnings results ++ [ExtraRecords (staging_count - expected_count)]).
Proof.
  intros staging_count missing.
  unfold check_record_count, try_except, mbind, M_bind, bind.
  destruct (available d) eqn:Ha.
  - rewrite select_count_available by done. simpl. fold staging_count.
    destruct (Z.eqb_spec staging_count expected_count) as [Heq|Hne].
    { eexists true, _. split; [done|]. split_and!; try done.
      - split; [done|]. intros [?|?]; [done|]. subst missing. lia.
      - subst missing. lia.
      - lia. }
    destruct (Z.ltb_spec staging_count expected_count) as [Hlt|Hge].
    + fold missing. destruct (too_many_missing missing) eqn:Hmany.
      * apply too_many_missing_spec in Hmany.
        eexists false, _. split; [done|]. split_and!; try done.
        -- split; [by right | done].
        -- intros _. by eexists.
        -- lia.
        -- lia.
      * apply not_true_iff_false in Hmany. rewrite too_many_missing_spec in Hmany.
        eexists true, _. split; [done|]. split_and!; try done.
        -- split; [done|]. intros [?|?]; [done|lia].
        -- lia.
    + eexists true, _. split; [done|]. split_and!; try done.
      * split; [done|]. intros [?|?]; [done|]. subst missing. lia.
      * subst missing. lia.
  - rewrite select_count_unavailable by done.
    eexists false, _. split; [done|]. split_and!; try done.
    + split; [by left | done].
    + intros _. by eexists.
Qed.

(** The amended statement at a reachable store whose staging table is
    empty: every expected row is missing, the check fails. *)
Lemma check_record_count_verdict_witness :
  ∃ passed results',
    (check_record_count initial_results
       {| species := the_species; staging := []; production := [];
          available := true; calls := [] |}).1 = inr (passed, results')
    ∧ passed = false
    ∧ ∃ issue, critical_issues results' = [issue].
Proof.
  destruct (check_record_count_verdict initial_results
              {| species := the_species; staging := []; production := [];
                 available := true; calls := [] |})
    as (passed & results' & Hrun & Hfalse & Hissue & _).
  exists passed, results'. split; [exact Hrun|].
  assert (passed = false) as Hp.
  { apply Hfalse. right. simpl. unfold expected_count. lia. }
  split; [exact Hp|]. destruct (Hissue Hp) as (issue & Hi & _).
  exists issue. exact Hi.
Defined.

End ValidatorFacts.

(** ** The staging loader *)

Module StageLoaderFacts.
Import Py PyFacts Store StoreFacts StageLoader Examples.

Section mapping.
Variable species_mapping : gmap string string.

Local Abbreviation mapped := (mapped species_mapping).
Local Abbreviation unresolved := (unresolved species_mapping).
Local Abbreviation resolve := (resolve species_mapping).

Lemma length_mapped_unresolved (df : list Row) :
  length df = length (filter mapped df) + length (filter unresolved df).
Proof.
  induction df as [|row df IH]; [done|].
  rewrite !filter_cons. unfold mapped, unresolved in *.
  destruct (species_mapping !! cTaxon row) eqn:Hrow.
  - rewrite decide_True by done. rewrite decide_False by done. simpl. lia.
  - rewrite decide_False by (by intros [? ?]). rewrite decide_True by done.
    simpl. lia.
Qed.

Lemma assign_species_ids_spec (df : list Row) :
  assign_species_ids species_mapping df
  = (resolve <$> df, length (filter mapped df)).
Proof.
  induction df as [|row df IH]; [done|].
  simpl. rewrite IH, filter_cons. unfold resolve, mapped.
  destruct (species_mapping !! cTaxon row) eqn:Hrow.
  - by rewrite decide_True.
  - by rewrite decide_False by (by intros [? ?]).
Qed.

Lemma filter_resolved (df : list Row) :
  filter (λ row, is_Some (row_species_id row)) (resolve <$> df)
  = resolve <$> filter mapped df.
Proof.
  induction df as [|row df IH]; [done|].
  rewrite fmap_cons, !filter_cons, IH.
  unfold mapped, resolve. simpl.
  destruct (species_mapping !! cTaxon row) eqn:Hrow; simpl;
    repeat case_decide; try done.
  by rewrite Hrow.
Qed.

(** On a non-empty frame [map_species_ids] keeps the rows whose taxon is
    mapped, in order, and counts the others. *)
Lemma map_species_ids_nonempty (df : list Row) :
  df ≠ [] →
  map_species_ids species_mapping df
  = inr (resolve <$> filter mapped df,
         length (filter mapped df), length (filter unresolved df)).
Proof.
  intros Hne. unfold map_species_ids. rewrite assign_species_ids_spec.
  rewrite decide_False by (by destruct df).
  pose proof (length_mapped_unresolved df) as Hlen.
  replace (length df - length (filter mapped df))
    with (length (filter unresolved df)) by lia.
  case_decide as Hun.
  - by rewrite filter_resolved.
  - do 3 f_equal. symmetry. f_equal. apply filter_all.
    assert (filter unresolved df = []) as Hnil by (apply nil_length_inv; lia).
    intros row Hrow. unfold mapped.
    destruct (species_mapping !! cTaxon row) eqn:Hr; [by eexists|].
    assert (row ∈ filter unresolved df) as Hin
      by (by apply list_elem_of_filter).
    rewrite Hnil in Hin. by apply elem_of_nil in Hin.
Qed.

Lemma map_species_ids_empty :
  map_species_ids species_mapping [] = inl ZeroDivisionError.
Proof. done. Qed.
End mapping.

Section records.
Variable float_of_string : string → option pyfloat.

(** The record loop goes through exactly when every row has a year, and
    then gives one record per row, in order. *)
Lemma prepare_staging_records_inr (df : list Row)
    (records : list StagingRecord) :
  prepare_staging_records float_of_string df = inr records
  ↔ Forall2 (λ row record, staging_record_of float_of_string row = inr record)
      df records.
Proof.
  revert records. induction df as [|row df IH]; intros records.
  - simpl. split.
    + intros [= <-]. constructor.
    + intros Hnil. by apply Forall2_nil_inv_l in Hnil as ->.
  - cbn [prepare_staging_records]. split.
    + destruct (staging_record_of float_of_string row) as [e|record] eqn:Hrow;
        [done|].
      destruct (prepare_staging_records float_of_string df) as [e|rest];
        [done|].
      intros [= <-]. constructor; [done|]. by apply (IH rest).
    + intros (record & rest & Hrow & Hrest & ->)%Forall2_cons_inv_l.
      rewrite Hrow. apply IH in Hrest. by rewrite Hrest.
Qed.

Lemma prepare_staging_records_total (df : list Row) :
  Forall has_year df →
  ∃ records, prepare_staging_records float_of_string df = inr records.
Proof.
  induction 1 as [|row df [year Hyear] _ [records IH]]; [by exists []|].
  cbn [prepare_staging_records]. unfold staging_record_of at 1.
  rewrite Hyear, IH. by eexists.
Qed.

Lemma prepare_staging_records_raises (df : list Row) (e : exn) :
  prepare_staging_records float_of_string df = inl e →
  e = ValueError ∧ Exists (λ row, cYear row = None) df.
Proof.
  induction df as [|row df IH]; [done|].
  cbn [prepare_staging_records]. unfold staging_record_of at 1.
  destruct (cYear row) as [year|] eqn:Hyear.
  - destruct (prepare_staging_records float_of_string df) as [e'|rest];
      [|done].
    intros [= <-]. destruct (IH eq_refl) as [-> Hex].
    split; [done|]. by apply Exists_cons_tl.
  - intros [= <-]. split; [done|]. by apply Exists_cons_hd.
Qed.

Lemma prepare_staging_records_years (df : list Row)
    (records : list StagingRecord) :
  prepare_staging_records float_of_string df = inr records →
  Forall has_year df.
Proof.
  intros Hrun%prepare_staging_records_inr.
  eapply Forall2_Forall_l; [exact Hrun|]. apply Forall_true.
  intros record row. unfold staging_record_of, has_year.
  by destruct (cYear row).
Qed.

Lemma prepare_staging_records_length (df : list Row)
    (records : list StagingRecord) :
  prepare_staging_records float_of_string df = inr records →
  length records = length df.
Proof.
  intros Hrun%prepare_staging_records_inr. symmetry.
  by eapply Forall2_length.
Qed.

Lemma has_year_resolve (species_mapping : gmap string string) (df : list Row) :
  Forall has_year df → Forall has_year (resolve species_mapping <$> df).
Proof. intros Hdf. by apply Forall_fmap. Qed.
End records.

End StageLoaderFacts.

Module LoaderRun.
Import Py PyFacts Store StoreFacts StageLoader StageLoaderFacts Examples.

Lemma load_species_mapping_run (d : db) :
  load_species_mapping d
  = (if available d then inr (mapping_of (species d)) else inl Unavailable,
     logged (Select Species) d).
Proof.
  unfold load_species_mapping. unfold_store. by destruct (available d).
Qed.

Lemma delete_all_staging_run (d : db) :
  delete_all_staging d
  = if available d
    then (inr (), with_staging [] (logged (DeleteAll Staging) d))
    else (inl Unavailable, logged (DeleteAll Staging) d).
Proof. unfold_store. by destruct (available d). Qed.

Section load.
Context `{Schema}.

Lemma insert_staging_run (batch : list StagingRecord) (d : db) :
  insert_staging batch d
  = if accepted (available d) batch
    then (inr (),
          with_staging (staging d ++ batch)
            (logged (Insert Staging (length batch)) d))
    else (inl (if available d then ConstraintViolation else Unavailable),
          logged (Insert Staging (length batch)) d).
Proof.
  unfold insert_staging, accepted. unfold_store.
  destruct (available d); simpl; [|done].
  by destruct (forallb staging_row_ok batch).
Qed.

(** The batch loop stores the accepted batches, in order, and counts the
    rows of the others as failed. *)
Lemma load_batches_run (todo : list (list StagingRecord))
    (successful failed : nat) (d : db) :
  let taken := filter (λ b, accepted (available d) b = true) todo in
  let refused := filter (λ b, accepted (available d) b ≠ true) todo in
  load_batches todo successful failed d
  = (inr (successful + total_length taken, failed + total_length refused),
     {| species := species d;
        staging := staging d ++ concat taken;
        production := production d;
        available := available d;
        calls := calls d ++ ((λ b, Insert Staging (length b)) <$> todo) |}).
Proof.
  revert successful failed d.
  induction todo as [|batch todo IH]; intros successful failed d.
  - simpl. unfold total_length. simpl. rewrite !Nat.add_0_r, !app_nil_r.
    by destruct d.
  - cbn [load_batches]. unfold mbind, M_bind, bind, try_except.
    rewrite insert_staging_run. cbv zeta. rewrite !filter_cons.
    destruct (accepted (available d) batch) eqn:Hb.
    + cbv beta iota. unfold mret, M_ret, ret. cbv beta iota.
      rewrite IH. cbv zeta. simpl. unfold total_length. simpl.
      rewrite ?length_app, <-?app_assoc, ?Nat.add_assoc. reflexivity.
    + cbv beta iota. unfold mret, M_ret, ret. cbv beta iota.
      rewrite IH. cbv zeta. simpl. unfold total_length. simpl.
      rewrite ?length_app, <-?app_assoc, ?Nat.add_assoc. reflexivity.
Qed.
End load.

End LoaderRun.

Module LoaderMain.
Import Py PyFacts Store StoreFacts StageLoader StageLoaderFacts LoaderRun Examples.

Section main.
Context `{Schema}.
Variable float_of_string : string → option pyfloat.

Local Abbreviation prepared := (prepared float_of_string).

Lemma length_prepared (df : list Row) (d : db) (records : list StagingRecord) :
  prepared df d = inr records →
  length records
  = length df - length (filter (unresolved (mapping_of (species d))) df).
Proof.
  intros Hrecords%prepare_staging_records_length.
  rewrite Hrecords, length_fmap.
  pose proof (length_mapped_unresolved (mapping_of (species d)) df). lia.
Qed.

(** The rows whose taxon is mapped all have a year exactly when the
    record loop of [main] goes through. *)
Lemma prepared_total (df : list Row) (d : db) :
  Forall has_year (filter (mapped (mapping_of (species d))) df) →
  ∃ records, prepared df d = inr records.
Proof.
  intros Hyears. by apply prepare_staging_records_total, has_year_resolve.
Qed.

Lemma prepared_years (df : list Row) (d : db) (records : list StagingRecord) :
  prepared df d = inr records →
  Forall has_year (filter (mapped (mapping_of (species d))) df).
Proof.
  intros Hyears%prepare_staging_records_years.
  apply (proj1 (Forall_fmap _ _ _)) in Hyears.
  eapply Forall_impl; [exact Hyears|]. by intros row.
Qed.

Lemma prepared_raises (df : list Row) (d : db) (e : exn) :
  prepared df d = inl e →
  e = ValueError
  ∧ ¬ Forall has_year (filter (mapped (mapping_of (species d))) df).
Proof.
  intros [-> Hex]%prepare_staging_records_raises. split; [done|].
  intros Hall. apply Exists_exists in Hex as (row & Hrow & Hyear).
  apply list_elem_of_fmap in Hrow as (row' & -> & Hrow').
  apply (proj1 (Forall_forall _ _) Hall) in Hrow' as [year Hyear'].
  simpl in Hyear. congruence.
Qed.

(** A run, dry or real, on a frame with a mapped row without a year ends
    when the records are prepared, before the store is written to. *)
Lemma main_without_year (dry_run : bool) (batch_size : Z) (df : list Row)
    (d : db) (e : exn) :
  available d = true → df ≠ [] → prepared df d = inl e →
  main float_of_string dry_run batch_size df d
  = (inl e, logged (Select Species) d).
Proof.
  intros Ha Hdf Hrecords. unfold main, mbind, M_bind, bind.
  rewrite load_species_mapping_run, Ha.
  rewrite map_species_ids_nonempty by done.
  unfold prepared in Hrecords. by rewrite Hrecords.
Qed.

(** A real run goes through when the store answers, the frame is not
    empty, every mapped row has a year and the batch size is not zero. *)
Lemma main_completes (batch_size : Z) (df : list Row) (d : db)
    (records : list StagingRecord) :
  available d = true → df ≠ [] → batch_size ≠ 0%Z →
  prepared df d = inr records →
  let todo := range_batches batch_size records in
  let taken := filter (λ b, accepted true b = true) todo in
  let refused := filter (λ b, accepted true b ≠ true) todo in
  main float_of_string false batch_size df d
  = (inr {| total_records := length df;
            successful_loads := total_length taken;
            failed_loads := total_length refused;
            species_mapped :=
              length (filter (mapped (mapping_of (species d))) df) |},
     {| species := species d;
        staging := concat taken;
        production := production d;
        available := true;
        calls := calls d ++ [Select Species; DeleteAll Staging]
                 ++ ((λ b, Insert Staging (length b)) <$> todo) |}).
Proof.
  intros Ha Hdf Hbs Hrecords. cbv zeta. unfold main, mbind, M_bind, bind.
  rewrite load_species_mapping_run, Ha.
  rewrite map_species_ids_nonempty by done.
  unfold prepared in Hrecords. rewrite Hrecords.
  unfold clear_staging_table, try_except.
  rewrite delete_all_staging_run. simpl. rewrite Ha.
  unfold load_to_staging. simpl. rewrite decide_False by done.
  unfold mbind, M_bind, bind. rewrite load_batches_run. simpl. rewrite Ha.
  unfold mret, M_ret, ret. simpl.
  do 2 f_equal. by rewrite <-!app_assoc.
Qed.

(** Otherwise the run ends with an exception before any row is loaded. *)
Lemma main_aborts (batch_size : Z) (df : list Row) (d : db) :
  available d = false ∨ df = [] ∨ batch_size = 0%Z
  ∨ (∃ e, prepared df d = inl e) →
  ∃ e d', main float_of_string false batch_size df d = (inl e, d')
          ∧ (available d = true → df = [] → d' = logged (Select Species) d).
Proof.
  intros Hcase. unfold main, mbind, M_bind, bind.
  rewrite load_species_mapping_run.
  destruct (available d) eqn:Ha; [|by eexists _, _].
  destruct (decide (df = [])) as [->|Hdf].
  { rewrite map_species_ids_empty. by eexists _, _. }
  rewrite map_species_ids_nonempty by done.
  fold (prepared df d).
  destruct (prepared df d) as [e|records] eqn:Hrecords; [by eexists _, _|].
  destruct Hcase as [?|[?|[->|[e ?]]]]; [done..| |done].
  unfold clear_staging_table, try_except.
  rewrite delete_all_staging_run. simpl. rewrite Ha.
  unfold load_to_staging. simpl. eexists _, _. split; [done|]. done.
Qed.

(** A run that ends without an exception is one of those of
    [main_completes]. *)
Lemma main_returned (batch_size : Z) (df : list Row) (d d' : db)
    (stats : LoadStats) :
  main float_of_string false batch_size df d = (inr stats, d') →
  available d = true ∧ df ≠ [] ∧ batch_size ≠ 0%Z
  ∧ ∃ records, prepared df d = inr records.
Proof.
  intros Hrun.
  destruct (available d) eqn:Ha.
  2: { destruct (main_aborts batch_size df d) as (e & d0 & Hab & _);
         [by left|]. congruence. }
  destruct (decide (df = [])) as [Hdf|Hdf].
  { destruct (main_aborts batch_size df d) as (e & d0 & Hab & _);
      [by right; left|]. congruence. }
  destruct (decide (batch_size = 0%Z)) as [Hbs|Hbs].
  { destruct (main_aborts batch_size df d) as (e & d0 & Hab & _);
      [by right; right; left|]. congruence. }
  destruct (prepared df d) as [e|records] eqn:Hrecords.
  { destruct (main_aborts batch_size df d) as (e' & d0 & Hab & _);
      [right; right; right; by exists e|]. congruence. }
  split_and!; [done..|]. by exists records.
Qed.
End main.

Lemma total_length_zero (todo : list (list StagingRecord)) :
  total_length todo = 0 → Forall (λ b, b ≠ []) todo → todo = [].
Proof.
  intros Hlen Hne. destruct todo as [|b todo]; [done|].
  apply Forall_cons in Hne as [Hb _]. unfold total_length in Hlen. simpl in Hlen.
  rewrite length_app in Hlen. destruct b; [done|]. simpl in Hlen. lia.
Qed.

Lemma filter_complement_nil {A} (P : A → Prop) `{∀ x, Decision (P x)}
    (l : list A) :
  filter (λ x, ¬ P x) l = [] → filter P l = l.
Proof.
  intros Hnil. apply filter_all. intros x Hx.
  destruct (decide (P x)) as [|Hn]; [done|].
  assert (x ∈ filter (λ x, ¬ P x) l) as Hin by (by apply list_elem_of_filter).
  rewrite Hnil in Hin. by apply elem_of_nil in Hin.
Qed.

End LoaderMain.

(** ** Conservation of the staging load *)

Module Conservation.
Import Py PyFacts Store StoreFacts StageLoader StageLoaderFacts LoaderRun.
Import LoaderMain Examples.

(** C5, as stated, fails.  The loader is run with [--batch-size -1] on
    the frame of two rows, one of which has a mapped taxon: the staging
    table is cleared, the batch loop has no turn, and the run ends with
    no failed insert and an empty staging table, where the extracted
    count minus the unresolved count is 1. *)
Lemma negative_batch_size_loads_nothing :
  let run :=
    @main sql_schema no_text_float false (-1) two_row_frame reachable_store in
  (∃ stats, run.1 = inr stats
            ∧ failed_loads stats = 0 ∧ successful_loads stats = 0)
  ∧ staging run.2 = []
  ∧ calls run.2 = [Select Species; DeleteAll Staging]
  ∧ length two_row_frame
    - length (filter (unresolved (mapping_of the_species)) two_row_frame)
    = 1.
Proof.
  cbv zeta. split_and!.
  - eexists. split_and!; vm_compute; reflexivity.
  - vm_compute. reflexivity.
  - vm_compute. reflexivity.
  - vm_compute. reflexivity.
Qed.

(** C5, amended.  Every row whose taxon has no entry in the species
    mapping is left out of the frame that goes on to the preparation of
    the records, hence of the records prepared, and is counted: the
    unmapped count is the number of such rows and equals the total minus
    the mapped count.  And when a run of the loader with a positive batch
    size ends with no failed insert batch, the staging table holds
    exactly the prepared records, whose number is the extracted count
    minus the unresolved count. *)
Theorem staging_load_conservation `{Schema}
    (float_of_string : string → option pyfloat) (batch_size : Z)
    (df : list Row) (d : db) :
  (∀ (species_mapping : gmap string string) (row : Row),
     row ∈ df → unresolved species_mapping row →
     ∃ rows mapped_count unmapped_count,
       map_species_ids species_mapping df
       = inr (rows, mapped_count, unmapped_count)
       ∧ unmapped_count = length df - mapped_count
       ∧ unmapped_count = length (filter (unresolved species_mapping) df)
       ∧ Forall (λ kept, cTaxon kept ≠ cTaxon row) rows
       ∧ ∀ records,
           prepare_staging_records float_of_string rows = inr records →
           Forall (λ record, taxon record ≠ cTaxon row) records)
  ∧ ((0 < batch_size)%Z →
     ∀ (stats : LoadStats) (d' : db),
       main float_of_string false batch_size df d = (inr stats, d') →
       failed_loads stats = 0 →
       length (staging d')
       = length df - length (filter (unresolved (mapping_of (species d))) df)
       ∧ prepared float_of_string df d = inr (staging d')
       ∧ successful_loads stats = length (staging d')).
Proof.
  split.
  - intros species_mapping row Hrow Hun.
    assert (df ≠ []) as Hdf by (intros ->; by apply elem_of_nil in Hrow).
    eexists _, _, _. split; [by apply map_species_ids_nonempty|].
    pose proof (length_mapped_unresolved species_mapping df) as Hlen.
    assert (Forall (λ kept, cTaxon kept ≠ cTaxon row)
              (resolve species_mapping
                 <$> filter (mapped species_mapping) df)) as Hkept.
    { apply Forall_fmap, Forall_forall. intros r Hr. simpl.
      apply list_elem_of_filter in Hr as [[id Hid] _]. intros Heq.
      unfold unresolved in Hun. congruence. }
    split_and!; [lia|done|done|].
    intros records Hrecords%prepare_staging_records_inr.
    eapply Forall2_Forall_r; [exact Hrecords|].
    eapply Forall_impl; [exact Hkept|].
    intros kept Hne record Hrecord. unfold staging_record_of in Hrecord.
    destruct (cYear kept); [|done]. by injection Hrecord as <-.
  - intros Hsize stats d' Hrun Hfailed.
    destruct (main_returned float_of_string batch_size df d d' stats Hrun)
      as (Ha & Hdf & Hbs & records & Hrecords).
    rewrite (main_completes float_of_string batch_size df d records)
      in Hrun by done.
    cbv zeta in Hrun. injection Hrun as <- <-.
    cbn [failed_loads staging successful_loads] in *.
    unfold range_batches in *.
    rewrite (proj2 (Z.ltb_lt 0 batch_size)) in * by done.
    apply total_length_zero in Hfailed.
    2: { apply Forall_forall. intros b Hb.
         apply list_elem_of_filter in Hb as [_ Hb]. revert b Hb.
         apply Forall_forall, batches_nonempty. lia. }
    apply (filter_complement_nil (λ b, accepted true b = true)) in Hfailed.
    unfold accepted in Hfailed. simpl in Hfailed.
    rewrite Hfailed, concat_batches by lia.
    split_and!; [by apply (length_prepared float_of_string)|done|].
    unfold total_length. by rewrite concat_batches by lia.
Qed.

(** The loader on a frame of two rows, one of them with an unknown taxon:
    that row is counted and left out, and the run ends with the one
    prepared record in staging. *)
Lemma staging_load_conservation_witness :
  (∃ rows mapped_count unmapped_count,
     map_species_ids (mapping_of the_species) two_row_frame
     = inr (rows, mapped_count, unmapped_count)
     ∧ unmapped_count = 1
     ∧ Forall (λ kept, cTaxon kept ≠ "Branta hutchinsii") rows)
  ∧ length
      (staging (@main sql_schema no_text_float false 5000 two_row_frame
                  reachable_store).2) = 1.
Proof.
  destruct (@staging_load_conservation sql_schema no_text_float 5000
              two_row_frame reachable_store) as [Hexcluded Hloaded].
  split.
  - destruct (Hexcluded (mapping_of the_species) unknown_goose_row)
      as (rows & mapped_count & unmapped_count & Hmap & _ & Hcount & Hout & _).
    + right. left.
    + reflexivity.
    + exists rows, mapped_count, unmapped_count.
      split; [exact Hmap|]. split; [|exact Hout].
      rewrite Hcount. reflexivity.
  - destruct (@main sql_schema no_text_float false 5000 two_row_frame
                reachable_store) as [[e|stats] d'] eqn:Hrun.
    + vm_compute in Hrun. discriminate Hrun.
    + destruct (Hloaded ltac:(lia) stats d' eq_refl) as (Hlen & _ & _).
      * vm_compute in Hrun. injection Hrun as <- _. reflexivity.
      * simpl. rewrite Hlen. reflexivity.
Defined.

End Conservation.

(** ** The two reported quantities of a staging record *)

Module Quantities.
Import Py Store StageLoader StageLoaderFacts Examples.

Section paths.
Variable float_of_string : string → option pyfloat.

(** Both reported quantities of [record] are [quantity]. *)
Local Abbreviation both record quantity :=
  (importer_reported_quantity record = quantity
   ∧ exporter_reported_quantity record = quantity).

(** The fresh-load path, row by row. *)
Lemma staging_record_quantities (row : Row) (record : StagingRecord) :
  staging_record_of float_of_string row = inr record →
  (∀ x, cQuantity row = CFloat x → x ≠ NaN → both record (Some x))
  ∧ (cQuantity row = CFloat NaN → both record None)
  ∧ (∀ s, cQuantity row = CStr s →
       both record (if decide (s = "" ∨ lower s = "nan") then None
                    else float_of_string s)).
Proof.
  unfold staging_record_of. destruct (cYear row); [|done].
  intros [= <-]. cbn [importer_reported_quantity exporter_reported_quantity].
  split_and!.
  - intros x -> Hx. by destruct x.
  - by intros ->.
  - by intros s ->.
Qed.

(** The resume path, row by row. *)
Lemma resume_record_quantities (species_mapping : gmap string string)
    (row : Row) (record : StagingRecord) :
  resume_record_of float_of_string species_mapping row = inr record →
  (∀ x, cQuantity row = CFloat x → x ≠ NaN → both record (Some x))
  ∧ (cQuantity row = CFloat NaN → both record None)
  ∧ (∀ s, cQuantity row = CStr s →
       ∃ q, float_of_string s = Some q ∧ both record (Some q)).
Proof.
  unfold resume_record_of. destruct (cYear row); [|done].
  destruct (resume_quantity float_of_string (cQuantity row)) as [e|q] eqn:Hq;
    [done|].
  intros [= <-]. cbn [importer_reported_quantity exporter_reported_quantity].
  unfold resume_quantity in Hq. split_and!.
  - intros x Hcell Hx. rewrite Hcell in Hq. destruct x; by injection Hq as <-.
  - intros Hcell. rewrite Hcell in Hq. by injection Hq as <-.
  - intros s Hcell. rewrite Hcell in Hq.
    destruct (float_of_string s) as [q'|]; [|done].
    injection Hq as <-. by exists q'.
Qed.

Lemma resume_prepare_records_inr (species_mapping : gmap string string)
    (df_remaining : list Row) (records : list StagingRecord) :
  resume_prepare_records float_of_string species_mapping df_remaining
  = inr records
  ↔ Forall2 (λ row record,
               resume_record_of float_of_string species_mapping row
               = inr record) df_remaining records.
Proof.
  revert records. induction df_remaining as [|row df IH]; intros records.
  - simpl. split.
    + intros [= <-]. constructor.
    + intros Hnil. by apply Forall2_nil_inv_l in Hnil as ->.
  - cbn [resume_prepare_records]. split.
    + destruct (resume_record_of float_of_string species_mapping row)
        as [e|record] eqn:Hrow; [done|].
      destruct (resume_prepare_records float_of_string species_mapping df)
        as [e|rest]; [done|].
      intros [= <-]. constructor; [done|]. by apply (IH rest).
    + intros (record & rest & Hrow & Hrest & ->)%Forall2_cons_inv_l.
      rewrite Hrow. apply IH in Hrest. by rewrite Hrest.
Qed.

(** The resume path prepares a record for every row when every row has
    a year and no quantity cell holds unreadable text. *)
Lemma resume_prepare_records_total (species_mapping : gmap string string)
    (df_remaining : list Row) :
  Forall has_year df_remaining →
  Forall (λ row, ∀ s, cQuantity row = CStr s → is_Some (float_of_string s))
    df_remaining →
  ∃ records,
    resume_prepare_records float_of_string species_mapping df_remaining
    = inr records
    ∧ length records = length df_remaining.
Proof.
  intros Hyears Hcells. induction Hyears as [|row rest [year Hyear] _ IH];
    [by exists []|].
  apply Forall_cons in Hcells as [Hrow Hrest].
  destruct (IH Hrest) as (records & Hrecords & Hlen).
  simpl. unfold resume_record_of at 1. rewrite Hyear.
  assert (∃ q, resume_quantity float_of_string (cQuantity row) = inr q) as [q ->].
  { unfold resume_quantity.
    destruct (cQuantity row) as [[q|negative|]|s]; [by eexists..|].
    destruct (Hrow s eq_refl) as [q ->]. by eexists. }
  rewrite Hrecords. eexists. split; [done|]. simpl. by rewrite Hlen.
Qed.
End paths.

(** C10.  In every staging record prepared by the loader, and in every
    staging record prepared by the resume script, the importer-reported
    and the exporter-reported quantity are the same value, and that value
    is the one of the Quantity cell of the row the record was made from:
    a number read by pandas is stored in both fields, a missing value
    leaves both null.  Text is converted with [float]: the loader stores
    what it reads, and null for the empty text, for "nan" in any case and
    for text that [float] rejects; in the resume script text that [float]
    rejects ends the run.  Both paths give one record per row, in order,
    when every row has a year (and, in the resume script, no unreadable
    quantity). *)
Theorem reported_quantities_agree (float_of_string : string → option pyfloat) :
  let both record quantity :=
    importer_reported_quantity record = quantity
    ∧ exporter_reported_quantity record = quantity in
  (∀ (df : list Row) (records : list StagingRecord),
     prepare_staging_records float_of_string df = inr records →
     Forall quantities_agree records
     ∧ Forall2
         (λ row record,
            (∀ x, cQuantity row = CFloat x → x ≠ NaN → both record (Some x))
            ∧ (cQuantity row = CFloat NaN → both record None)
            ∧ (∀ s, cQuantity row = CStr s →
                 both record
                   (if decide (s = "" ∨ lower s = "nan") then None
                    else float_of_string s)))
         df records)
  ∧ (∀ (species_mapping : gmap string string) (df_remaining : list Row)
       (records : list StagingRecord),
       resume_prepare_records float_of_string species_mapping df_remaining
       = inr records →
       Forall quantities_agree records
       ∧ Forall2
           (λ row record,
              (∀ x, cQuantity row = CFloat x → x ≠ NaN →
                 both record (Some x))
              ∧ (cQuantity row = CFloat NaN → both record None)
              ∧ (∀ s, cQuantity row = CStr s →
                   ∃ q, float_of_string s = Some q ∧ both record (Some q)))
           df_remaining records)
  ∧ (∀ df : list Row,
       Forall has_year df →
       ∃ records, prepare_staging_records float_of_string df = inr records)
  ∧ (∀ (species_mapping : gmap string string) (df_remaining : list Row),
       Forall has_year df_remaining →
       Forall (λ row, ∀ s, cQuantity row = CStr s →
                        is_Some (float_of_string s)) df_remaining →
       ∃ records,
         resume_prepare_records float_of_string species_mapping df_remaining
         = inr records).
Proof.
  cbv zeta. split_and!.
  - intros df records Hrecords%prepare_staging_records_inr. split.
    + eapply Forall2_Forall_r; [exact Hrecords|]. apply Forall_true.
      intros row record Hrecord. unfold staging_record_of in Hrecord.
      destruct (cYear row); [|done]. by injection Hrecord as <-.
    + eapply Forall2_impl; [exact Hrecords|]. intros row record.
      apply staging_record_quantities.
  - intros species_mapping df_remaining records
      Hrecords%resume_prepare_records_inr. split.
    + eapply Forall2_Forall_r; [exact Hrecords|]. apply Forall_true.
      intros row record Hrecord. unfold resume_record_of in Hrecord.
      destruct (cYear row); [|done].
      destruct (resume_quantity float_of_string (cQuantity row)); [done|].
      by injection Hrecord as <-.
    + eapply Forall2_impl; [exact Hrecords|]. intros row record.
      apply resume_record_quantities.
  - intros df. apply prepare_staging_records_total.
  - intros species_mapping df_remaining Hyears Hcells.
    destruct (resume_prepare_records_total float_of_string species_mapping
                df_remaining Hyears Hcells) as (records & Hrecords & _).
    by exists records.
Qed.

(** Both paths on the two-row frame: the walrus row carries the quantity
    4 in both fields, the goose row, whose Quantity is missing, null in
    both. *)
Lemma reported_quantities_agree_witness :
  (∃ records,
     prepare_staging_records no_text_float two_row_frame = inr records
     ∧ Forall quantities_agree records
     ∧ (importer_reported_quantity <$> records) = [Some (Finite (4 # 1)); None]
     ∧ (exporter_reported_quantity <$> records)
       = [Some (Finite (4 # 1)); None])
  ∧ ∃ records,
      resume_prepare_records no_text_float (mapping_of the_species)
        two_row_frame = inr records
      ∧ Forall quantities_agree records
      ∧ (importer_reported_quantity <$> records)
        = [Some (Finite (4 # 1)); None]
      ∧ (exporter_reported_quantity <$> records)
        = [Some (Finite (4 # 1)); None].
Proof.
  destruct (reported_quantities_agree no_text_float)
    as (Hload & Hresume & _ & _).
  split.
  - eexists. split; [vm_compute; reflexivity|].
    split; [|split; vm_compute; reflexivity].
    eapply (Hload two_row_frame). vm_compute. reflexivity.
  - eexists. split; [vm_compute; reflexivity|].
    split; [|split; vm_compute; reflexivity].
    eapply (Hresume (mapping_of the_species) two_row_frame).
    vm_compute. reflexivity.
Defined.

End Quantities.

(** ** The merge into production *)

Module MigratorFacts.
Import Py PyFacts Store StoreFacts Migrator Examples.

Lemma page_size_pos : 0 < page_size.
Proof. unfold page_size. lia. Qed.

Lemma batch_size_pos : 0 < batch_size.
Proof. unfold batch_size. lia. Qed.

#[local] Opaque page_size batch_size.

Lemma select_range_run (t : table) (offset limit : nat) (d : db) :
  select_range t offset limit d
  = (if available d then inr (take limit (drop offset (rows_of t d)))
     else inl Unavailable,
     logged (Select t) d).
Proof. unfold_store. by destruct (available d). Qed.

(** With enough fuel the scan returns the rows from [offset] on and
    leaves the tables as they are. *)
Lemma fetch_pages_run (fuel offset : nat) (acc : list StagingRecord) (d : db) :
  available d = true → length (staging d) - offset < fuel →
  ∃ n, fetch_pages fuel offset acc d
       = (inr (acc ++ drop offset (staging d)),
          {| species := species d; staging := staging d;
             production := production d; available := available d;
             calls := calls d ++ replicate (S n) (Select Staging) |}).
Proof.
  revert offset acc d. induction fuel as [|fuel IH]; intros offset acc d Ha Hfuel;
    [lia|].
  cbn [fetch_pages]. unfold mbind, M_bind, bind.
  rewrite select_range_run, Ha. cbn [rows_of].
  destruct (take page_size (drop offset (staging d))) as [|r page] eqn:Hpage.
  - exists 0. unfold mret, M_ret, ret.
    assert (drop offset (staging d) = []) as ->.
    { destruct (drop offset (staging d)); [done|].
      pose proof page_size_pos. destruct page_size; [lia|done]. }
    rewrite app_nil_r. unfold logged. by rewrite Ha.
  - assert (0 < length (staging d) - offset) as Hpos.
    { destruct (drop offset (staging d)) as [|r' l] eqn:Hdrop.
      - by rewrite take_nil in Hpage.
      - apply (f_equal length) in Hdrop. rewrite length_drop in Hdrop.
        simpl in Hdrop. lia. }
    pose proof page_size_pos.
    destruct (IH (offset + page_size) (acc ++ r :: page)
                (logged (Select Staging) d)) as [n Hn]; [done|simpl; lia|].
    exists (S n). rewrite Hn. simpl. rewrite Ha. f_equal.
    + f_equal. rewrite <-Hpage, <-app_assoc. f_equal.
      rewrite <-drop_drop. apply take_drop.
    + by rewrite <-app_assoc.
Qed.

Lemma fetch_staging_records_run (d : db) :
  available d = true →
  ∃ n, fetch_staging_records d
       = (inr (staging d),
          {| species := species d; staging := staging d;
             production := production d; available := available d;
             calls := calls d ++ replicate (S n) (Select Staging) |}).
Proof.
  intros Ha. unfold fetch_staging_records, mbind, M_bind, bind, gets.
  destruct (fetch_pages_run (S (length (staging d))) 0 [] d) as [n Hn];
    [done|lia|].
  exists n. by rewrite Hn.
Qed.

Lemma fetch_staging_records_unavailable (d : db) :
  available d = false →
  fetch_staging_records d = (inl Unavailable, logged (Select Staging) d).
Proof.
  intros Ha. unfold fetch_staging_records, mbind, M_bind, bind, gets.
  cbn [fetch_pages]. unfold mbind, M_bind, bind.
  by rewrite select_range_run, Ha.
Qed.

Section merge.
Context `{Schema}.

Lemma insert_production_run (batch : list StagingRecord) (d : db) :
  insert_production batch d
  = if takes (available d) (production d) batch
    then (inr (),
          with_production (production d ++ batch)
            (logged (Insert Production (length batch)) d))
    else (inl (if available d
               then if forallb production_row_ok batch
                    then DuplicateKey else ConstraintViolation
               else Unavailable),
          logged (Insert Production (length batch)) d).
Proof.
  unfold insert_production, takes. unfold_store.
  destruct (available d); simpl; [|done].
  destruct (forallb production_row_ok batch); simpl; [|done].
  by destruct (decide (no_duplicate_key (production d) batch)) as [?|?];
    [rewrite bool_decide_eq_true_2|rewrite bool_decide_eq_false_2].
Qed.

(** The insert loop leaves [merged] in the production table and reports
    [inserted_count]. *)
Lemma insert_batches_run (todo : list (list StagingRecord))
    (inserted errors : nat) (d : db) :
  ∃ errors',
    insert_batches todo inserted errors d
    = (inr (inserted + inserted_count (available d) (production d) todo,
            errors'),
       {| species := species d; staging := staging d;
          production := merged (available d) (production d) todo;
          available := available d;
          calls := calls d ++ ((λ b, Insert Production (length b)) <$> todo) |}).
Proof.
  revert inserted errors d.
  induction todo as [|batch todo IH]; intros inserted errors d.
  - exists errors. simpl. rewrite Nat.add_0_r, app_nil_r. by destruct d.
  - cbn [insert_batches merged inserted_count].
    unfold mbind, M_bind, bind, try_except. rewrite insert_production_run.
    destruct (takes (available d) (production d) (clean_record <$> batch)).
    + cbv beta iota. unfold mret, M_ret, ret. cbv beta iota.
      destruct (IH (inserted + length (clean_record <$> batch)) errors
                  (with_production (production d ++ (clean_record <$> batch))
                     (logged (Insert Production
                                (length (clean_record <$> batch))) d)))
        as [errors' ->].
      exists errors'. simpl. rewrite !length_fmap, <-app_assoc, Nat.add_assoc.
      reflexivity.
    + cbv beta iota. unfold mret, M_ret, ret. cbv beta iota.
      destruct (IH inserted (errors + length batch)
                  (logged (Insert Production
                             (length (clean_record <$> batch))) d))
        as [errors' ->].
      exists errors'. simpl. rewrite !length_fmap, <-app_assoc.
      reflexivity.
Qed.

(** A batch the table has taken is refused from then on, and a refused
    batch stays refused while the table grows. *)
Lemma taken_then_refused (up : bool) (rows rows' batch : list StagingRecord) :
  batch ≠ [] → takes up ((rows ++ batch) ++ rows') batch = false.
Proof.
  intros Hne. unfold takes. apply andb_false_iff. right.
  apply bool_decide_eq_false_2. intros [_ Hfresh].
  destruct batch as [|r batch]; [done|].
  apply Forall_cons in Hfresh as [Hr _]. apply Hr.
  rewrite !fmap_app, fmap_cons.
  apply elem_of_app. left. apply elem_of_app. right. by left.
Qed.

Lemma refused_stays_refused (up : bool) (rows rows' batch : list StagingRecord) :
  takes up rows batch = false → takes up (rows ++ rows') batch = false.
Proof.
  unfold takes. rewrite !andb_false_iff.
  intros [[?|?]|Hdup]; [by left; left|by left; right|right].
  apply bool_decide_eq_false in Hdup. apply bool_decide_eq_false_2.
  intros [Hnd Hfresh]. apply Hdup. split; [done|].
  eapply Forall_impl; [exact Hfresh|]. intros r Hr Hin. simpl in *.
  apply Hr. rewrite fmap_app. apply elem_of_app. by left.
Qed.

Lemma merged_extends (up : bool) (rows : list StagingRecord)
    (todo : list (list StagingRecord)) :
  ∃ ext, merged up rows todo = rows ++ ext.
Proof.
  revert rows. induction todo as [|batch todo IH]; intros rows; simpl.
  - exists []. by rewrite app_nil_r.
  - destruct (takes up rows (clean_record <$> batch)).
    + destruct (IH (rows ++ (clean_record <$> batch))) as [ext ->].
      eexists. by rewrite <-app_assoc.
    + apply IH.
Qed.

(** After the loop, the table refuses every batch of the list, now and
    however it grows. *)
Lemma merged_refuses_all (up : bool) (rows : list StagingRecord)
    (todo : list (list StagingRecord)) :
  Forall (λ batch, batch ≠ []) todo →
  Forall (λ batch, ∀ rows',
            takes up (merged up rows todo ++ rows') (clean_record <$> batch)
            = false) todo.
Proof.
  intros Hne. revert rows.
  induction Hne as [|batch todo Hb _ IH]; intros rows; [constructor|].
  constructor; [|apply IH]. intros rows'. simpl.
  destruct (takes up rows (clean_record <$> batch)) eqn:Htakes.
  - destruct (merged_extends up (rows ++ (clean_record <$> batch)) todo)
      as [ext ->].
    rewrite <-(app_assoc _ ext rows'). apply taken_then_refused.
    by destruct batch.
  - destruct (merged_extends up rows todo) as [ext ->].
    rewrite <-app_assoc. by apply refused_stays_refused.
Qed.

Lemma merged_of_refused (up : bool) (rows : list StagingRecord)
    (todo : list (list StagingRecord)) :
  Forall (λ batch, ∀ rows',
            takes up (rows ++ rows') (clean_record <$> batch) = false) todo →
  merged up rows todo = rows ∧ inserted_count up rows todo = 0.
Proof.
  induction 1 as [|batch todo Hb _ IH]; [done|]. simpl.
  specialize (Hb []). rewrite app_nil_r in Hb. by rewrite Hb.
Qed.

(** Running the loop again on the same batches changes nothing. *)
Lemma merged_idempotent (up : bool) (rows : list StagingRecord)
    (todo : list (list StagingRecord)) :
  Forall (λ batch, batch ≠ []) todo →
  merged up (merged up rows todo) todo = merged up rows todo
  ∧ inserted_count up (merged up rows todo) todo = 0.
Proof. intros Hne. by apply merged_of_refused, merged_refuses_all. Qed.

Lemma merged_unavailable (rows : list StagingRecord)
    (todo : list (list StagingRecord)) :
  merged false rows todo = rows.
Proof. induction todo as [|batch todo IH]; [done|]. simpl. apply IH. Qed.

(** [execute_migration] in a real run. *)
Lemma execute_migration_run (stats : MigrationStats) (d : db) :
  let todo := batches batch_size (staging d) in
  ∃ stats' log,
    execute_migration false stats d
    = (inr (available d, stats'),
       {| species := species d; staging := staging d;
          production := merged (available d) (production d) todo;
          available := available d;
          calls := calls d ++ log |})
    ∧ records_migrated stats'
      = (if available d then inserted_count true (production d) todo
         else records_migrated stats)
    ∧ (available d = false → log = [Select Staging]).
Proof.
  cbv zeta. unfold execute_migration, try_except, mbind, M_bind, bind.
  destruct (available d) eqn:Ha.
  - destruct (fetch_staging_records_run d Ha) as [n ->].
    match goal with
    | |- context [insert_batches ?t ?i ?e ?d0] =>
        destruct (insert_batches_run t i e d0) as [errors' ->]
    end.
    simpl. rewrite Ha, <-app_assoc. unfold mret, M_ret, ret.
    eexists _, _. split_and!; [reflexivity|reflexivity|done].
  - rewrite fetch_staging_records_unavailable by done.
    unfold mret, M_ret, ret. eexists _, [Select Staging].
    split; [unfold logged; rewrite Ha, merged_unavailable; reflexivity|].
    done.
Qed.
(** When the reachability never changes during the run, the loop is
    [insert_batches] and the run is [execute_migration]. *)
Lemma insert_batches_during_nil (todo : list (list StagingRecord))
    (inserted errors : nat) (d : db) :
  insert_batches_during [] todo inserted errors d
  = insert_batches todo inserted errors d.
Proof.
  revert inserted errors d.
  induction todo as [|batch todo IH]; intros inserted errors d; [done|].
  cbn [insert_batches_during insert_batches tail].
  unfold mbind, M_bind, bind, mret, M_ret, ret. cbv beta iota.
  destruct (try_except _ _ d) as [[e|[|]] d1]; [done|apply IH..].
Qed.

Lemma execute_migration_during_nil (stats : MigrationStats) (d : db) :
  execute_migration_during [] stats d = execute_migration false stats d.
Proof.
  unfold execute_migration_during, execute_migration, try_except.
  unfold mbind, M_bind, bind.
  destruct (fetch_staging_records d) as [[e|staging_records] d1]; [done|].
  by rewrite insert_batches_during_nil.
Qed.

(** A batch that a reachable store refuses is refused whatever the
    reachability. *)
Lemma refused_when_reachable (up : bool) (rows batch : list StagingRecord) :
  takes true rows batch = false → takes up rows batch = false.
Proof. unfold takes. by destruct up. Qed.

(** Batches that the table refuses are refused by the loop whatever
    happens to the reachability of the store: nothing is inserted, and the
    tables stay as they are. *)
Lemma insert_batches_during_refused (reach : list bool)
    (todo : list (list StagingRecord)) (inserted errors : nat) (d : db) :
  Forall (λ batch, ∀ rows',
            takes true (production d ++ rows') (clean_record <$> batch)
            = false) todo →
  ∃ errors' d',
    insert_batches_during reach todo inserted errors d
    = (inr (inserted, errors'), d')
    ∧ tables d' = tables d.
Proof.
  intros Hrefused. revert reach inserted errors d Hrefused.
  induction todo as [|batch todo IH]; intros reach inserted errors d Hrefused.
  - by exists errors, d.
  - apply Forall_cons in Hrefused as [Hbatch Hrest].
    specialize (Hbatch []). rewrite app_nil_r in Hbatch.
    cbn [insert_batches_during].
    set (d1 := match reach with
               | up :: _ => with_available up d
               | [] => d
               end).
    assert (tables d1 = tables d) as Htables by (by destruct reach).
    assert (production d1 = production d) as Hprod by (by destruct reach).
    assert (∀ {A} (rest : M A),
              (match reach with
               | up :: _ => reachability_becomes up
               | [] => mret ()
               end;; rest) d = rest d1) as Hstep by (by destruct reach).
    rewrite Hstep. unfold mbind, M_bind, bind, try_except.
    rewrite insert_production_run, Hprod.
    rewrite (refused_when_reachable _ _ _ Hbatch).
    unfold mret, M_ret, ret. cbv beta iota.
    destruct (IH (tail reach) inserted (errors + length batch)
                (logged (Insert Production
                           (length (clean_record <$> batch))) d1))
      as (errors' & d' & -> & Htables').
    { cbn [production logged]. by rewrite Hprod. }
    exists errors', d'. split; [done|].
    by rewrite Htables', <- Htables.
Qed.

(** [execute_migration] on a table that refuses every batch of the
    staging table, whatever happens to the reachability of the store
    while the run inserts. *)
Lemma execute_migration_during_refused (reach : list bool)
    (stats : MigrationStats) (d : db) :
  Forall (λ batch, ∀ rows',
            takes true (production d ++ rows') (clean_record <$> batch)
            = false) (batches batch_size (staging d)) →
  ∃ stats' d',
    execute_migration_during reach stats d = (inr (available d, stats'), d')
    ∧ tables d' = tables d
    ∧ records_migrated stats'
      = if available d then 0 else records_migrated stats.
Proof.
  intros Hrefused.
  unfold execute_migration_during, try_except, mbind, M_bind, bind.
  destruct (available d) eqn:Ha.
  - destruct (fetch_staging_records_run d Ha) as [n ->].
    match goal with
    | |- context [insert_batches_during reach ?t ?i ?e ?d0] =>
        destruct (insert_batches_during_refused reach t i e d0)
          as (errors' & d' & -> & Htables); [done|]
    end.
    unfold mret, M_ret, ret. eexists _, d'. split_and!; [done|done|done].
  - rewrite fetch_staging_records_unavailable by done.
    unfold mret, M_ret, ret. eexists _, _. split_and!; done.
Qed.
End merge.

End MigratorFacts.

Module Merge.
Import Py PyFacts Store StoreFacts Migrator MigratorFacts Examples.

(** C2, as stated, fails.  Two rows are staged for an empty production
    table, whose uniqueness constraint is enforced.  In the first run the
    store answers the scan of the staging table and cannot be reached
    when the insert of the one batch is sent: the loop counts the batch
    as failed and goes on, the run returns True with zero records
    migrated, and the production table is still empty.  When the second
    run starts the store can be reached again: on the same staging
    contents it inserts both rows. *)
Lemma second_merge_after_a_failed_insert_adds_rows :
  let first :=
    @execute_migration_during sql_schema [false] initial_stats
      Scenarios.empty_production_store in
  let second :=
    (reachability_becomes true;;
     @execute_migration sql_schema false initial_stats) first.2 in
  (∃ stats', first.1 = inr (true, stats') ∧ records_migrated stats' = 0)
  ∧ staging first.2 = staging Scenarios.empty_production_store
  ∧ length (production first.2) = 0
  ∧ staging second.2 = staging first.2
  ∧ length (production second.2) = 2
  ∧ ∃ stats', second.1 = inr (true, stats') ∧ records_migrated stats' = 2.
Proof.
  cbv zeta. split_and!; try (vm_compute; reflexivity).
  - eexists. split; vm_compute; reflexivity.
  - eexists. split; vm_compute; reflexivity.
Qed.

(** C2, amended.  Given that the production table enforces the
    uniqueness constraint over the natural key, whatever that key is, and
    that the store could be reached during the whole first run, a second
    [execute_migration] on the same staging contents inserts nothing,
    whether or not the store can be reached when it starts ([up]) and
    when it sends its inserts ([reach]): the first run returns True and
    leaves staging as it was, the second run leaves the production table
    as the first run left it, so the row count is the same, and it
    reports zero migrated records when it returns True.  The same holds
    for a second run during which the reachability does not change. *)
Theorem second_merge_adds_no_row `{Schema} (d : db)
    (stats1 stats2 : MigrationStats) (up : bool) (reach : list bool) :
  available d = true →
  let first := execute_migration false stats1 d in
  let second :=
    (reachability_becomes up;; execute_migration_during reach stats2)
      first.2 in
  let plain_second := execute_migration false stats2 first.2 in
  (∃ stats', first.1 = inr (true, stats'))
  ∧ staging first.2 = staging d
  ∧ staging second.2 = staging d
  ∧ production second.2 = production first.2
  ∧ length (production second.2) = length (production first.2)
  ∧ (∃ stats', second.1 = inr (up, stats')
               ∧ records_migrated stats'
                 = if up then 0 else records_migrated stats2)
  ∧ production plain_second.2 = production first.2
  ∧ ∃ stats', plain_second.1 = inr (true, stats')
              ∧ records_migrated stats' = 0.
Proof.
  intros Ha. cbv zeta.
  destruct (execute_migration_run stats1 d) as (s1 & log1 & -> & _ & _).
  rewrite Ha. cbn [fst snd staging].
  set (d1 := {| species := species d; staging := staging d;
                production := merged true (production d)
                                (batches batch_size (staging d));
                available := true; calls := calls d ++ log1 |}).
  assert (Forall (λ batch : list StagingRecord, batch ≠ [])
            (batches batch_size (staging d))) as Hne
    by apply batches_nonempty, batch_size_pos.
  pose proof (merged_refuses_all true (production d) _ Hne) as Hrefused.
  assert (∀ up',
            Forall (λ batch, ∀ rows',
                      takes true (production (with_available up' d1) ++ rows')
                        (clean_record <$> batch) = false)
              (batches batch_size (staging (with_available up' d1))))
    as Hrefused' by (by intros up').
  destruct (execute_migration_during_refused reach stats2
              (with_available up d1) (Hrefused' up))
    as (s2 & d2 & Hsecond & Htables & Hs2).
  destruct (execute_migration_during_refused [] stats2
              (with_available true d1) (Hrefused' true))
    as (s3 & d3 & Hplain & Htables3 & Hs3).
  rewrite execute_migration_during_nil in Hplain.
  assert (with_available true d1 = d1) as Hd1 by done.
  rewrite Hd1 in Hplain, Htables3.
  assert ((reachability_becomes up;; execute_migration_during reach stats2) d1
          = (inr (up, s2), d2)) as -> by exact Hsecond.
  rewrite Hplain. cbn [fst snd].
  unfold tables in Htables, Htables3. cbn in Htables, Htables3.
  injection Htables as _ Hstaging Hproduction.
  injection Htables3 as _ _ Hproduction3.
  split_and!; [by eexists|done|done|done|by rewrite Hproduction| |done|].
  - exists s2. split; [done|]. exact Hs2.
  - exists s3. split; [done|]. exact Hs3.
Qed.

(** The reachable store of the examples, a second run that starts while
    the store can be reached and sends its first insert when it cannot. *)
Lemma second_merge_adds_no_row_witness :
  let first := @execute_migration sql_schema false initial_stats
                 reachable_store in
  let second :=
    (reachability_becomes true;;
     @execute_migration_during sql_schema [false; true] initial_stats)
      first.2 in
  production second.2 = production first.2.
Proof.
  destruct (@second_merge_adds_no_row sql_schema reachable_store
              initial_stats initial_stats true [false; true])
    as (_ & _ & _ & Hproduction & _).
  - reflexivity.
  - exact Hproduction.
Defined.

(** C3 (code defect).  Production already holds the Greenland row; the
    staging table holds that row and a new Canada row, which go into one
    batch.  The insert of the batch is rejected for the duplicate, and
    the loop moves on: the Canada row, whose natural key is not in
    production, is not inserted either, and zero records are reported as
    migrated. *)
Theorem duplicate_rejection_loses_the_batch :
  let run := @execute_migration sql_schema false initial_stats overlapping_store in
  production run.2 = [walrus_tusks_from_greenland]
  ∧ (∃ stats', run.1 = inr (true, stats') ∧ records_migrated stats' = 0)
  ∧ (sql_natural_key (clean_record walrus_tusks_from_canada)
     ∉ (sql_natural_key <$> production run.2))
  ∧ (@insert_production sql_schema
       (clean_record <$> staging overlapping_store) overlapping_store
     = (inl DuplicateKey,
        logged (Insert Production 2) overlapping_store)).
Proof.
  cbv zeta. split_and!.
  - vm_compute. reflexivity.
  - eexists. split; vm_compute; reflexivity.
  - assert (production
              (@execute_migration sql_schema false initial_stats
                 overlapping_store).2 = [walrus_tusks_from_greenland]) as ->
      by (vm_compute; reflexivity).
    intros Hin. apply list_elem_of_singleton in Hin. discriminate Hin.
  - vm_compute. reflexivity.
Qed.

End Merge.

(** ** Dry runs *)

Module DryRun.
Import Py PyFacts Store StoreFacts Examples.
Import StageLoaderFacts LoaderRun LoaderMain Migrator MigratorFacts.

Lemma only_reads_logged (c : call) (d : db) :
  mutating c = false → only_reads d (logged c d).
Proof.
  intros Hc. split_and!; [done..|]. exists [c]. split; [done|].
  by constructor.
Qed.

Lemma only_reads_trans (d1 d2 d3 : db) :
  only_reads d1 d2 → only_reads d2 d3 → only_reads d1 d3.
Proof.
  intros (Ht1 & Ha1 & r1 & Hc1 & Hr1) (Ht2 & Ha2 & r2 & Hc2 & Hr2).
  split_and!; [congruence..|].
  exists (r1 ++ r2). split; [by rewrite Hc2, Hc1, app_assoc|].
  by apply Forall_app.
Qed.

Lemma loader_main_dry_run `{Schema} (float_of_string : string → option pyfloat)
    (batch_size : Z) (df : list StageLoader.Row) (d : db) :
  (StageLoader.main float_of_string true batch_size df d).2
  = logged (Select Species) d.
Proof.
  unfold StageLoader.main, mbind, M_bind, bind.
  rewrite load_species_mapping_run.
  destruct (available d); [|done].
  destruct (StageLoader.map_species_ids _ df) as [e|[[rows m] u]]; [done|].
  by destruct (StageLoader.prepare_staging_records _ rows).
Qed.

Lemma pre_migration_checks_reads (stats : MigrationStats) (d : db) :
  ∃ ok stats' reads,
    pre_migration_checks stats d
    = (inr (ok, stats'),
       {| species := species d; staging := staging d;
          production := production d; available := available d;
          calls := calls d ++ SelectCount Staging :: reads |})
    ∧ Forall (λ c, mutating c = false) reads.
Proof.
  unfold pre_migration_checks, try_except, mbind, M_bind, bind.
  destruct (decide (available d = true)) as [Ha|Ha].
  - rewrite select_count_available by done.
    rewrite select_count_available by done. simpl.
    destruct (Z.ltb _ 0).
    + unfold mret, M_ret, ret, logged. simpl. rewrite <-app_assoc. simpl.
      eexists _, _, [_]. split; [reflexivity|]. by repeat constructor.
    + unfold_store. rewrite Ha, <-!app_assoc. simpl.
      eexists _, _, [_; _]. split; [reflexivity|]. by repeat constructor.
  - apply not_true_is_false in Ha.
    rewrite select_count_unavailable by done.
    eexists _, _, []. unfold mret, M_ret, ret, logged.
    split; [reflexivity|constructor].
Qed.

Lemma migrator_main_dry_run `{Schema} (answer : string) (d : db) :
  ∃ status reads,
    MigrationScript.main true answer d
    = (inr status,
       {| species := species d; staging := staging d;
          production := production d; available := available d;
          calls := calls d ++ SelectCount Staging :: reads |})
    ∧ Forall (λ c, mutating c = false) reads.
Proof.
  unfold MigrationScript.main, mbind, M_bind, bind.
  destruct (pre_migration_checks_reads initial_stats d)
    as (ok & stats' & reads & -> & Hreads).
  exists (if ok then 0 else 1), reads. split; [|done].
  by destruct ok.
Qed.

(** C8.  With dry-run enabled, [clear_staging_table], [load_to_staging]
    and [execute_migration] return without touching the store; a whole
    run of the staging loader and of the final migration leaves every
    table as it was and sends only reads, however the run ends.  The
    reads and the preparation still take place: the migration starts
    with the count of the staging table, and the loader reads the species
    table and, when that succeeds on a non-empty frame, maps the taxa and
    prepares the records, which gives the statistics with the mapped
    count when every mapped row has a year, and ends the run with
    [ValueError] when one has none. *)
Theorem dry_run_changes_no_table `{Schema}
    (float_of_string : string → option pyfloat) (batch_size : Z)
    (df : list StageLoader.Row) (staging_records : list StagingRecord)
    (load_stats : StageLoader.LoadStats) (migration_stats : MigrationStats)
    (answer : string) (d : db) :
  let loader_run := StageLoader.main float_of_string true batch_size df d in
  let migration_run := MigrationScript.main true answer d in
  let mapped_rows :=
    filter (StageLoader.mapped (StageLoader.mapping_of (species d))) df in
  StageLoader.clear_staging_table true d = (inr (), d)
  ∧ StageLoader.load_to_staging true batch_size staging_records load_stats d
    = (inr load_stats, d)
  ∧ execute_migration true migration_stats d = (inr (true, migration_stats), d)
  ∧ only_reads d loader_run.2
  ∧ only_reads d migration_run.2
  ∧ calls loader_run.2 = calls d ++ [Select Species]
  ∧ (∃ status reads,
       migration_run.1 = inr status
       ∧ calls migration_run.2 = calls d ++ SelectCount Staging :: reads)
  ∧ (available d = true → df ≠ [] →
     (Forall StageLoader.has_year mapped_rows →
      loader_run.1
      = inr {| StageLoader.total_records := length df;
               StageLoader.successful_loads := 0;
               StageLoader.failed_loads := 0;
               StageLoader.species_mapped := length mapped_rows |})
     ∧ (¬ Forall StageLoader.has_year mapped_rows →
        loader_run.1 = inl ValueError)).
Proof.
  cbv zeta. split_and!; try done.
  - rewrite loader_main_dry_run. by apply only_reads_logged.
  - destruct (migrator_main_dry_run answer d) as (status & reads & -> & Hreads).
    split_and!; [done..|]. exists (SelectCount Staging :: reads).
    split; [done|]. by constructor.
  - by rewrite loader_main_dry_run.
  - destruct (migrator_main_dry_run answer d) as (status & reads & -> & _).
    by exists status, reads.
  - intros Ha Hdf. unfold StageLoader.main, mbind, M_bind, bind.
    rewrite load_species_mapping_run, Ha.
    rewrite map_species_ids_nonempty by done.
    fold (StageLoader.prepared float_of_string df d).
    destruct (StageLoader.prepared float_of_string df d) as [e|records]
      eqn:Hrecords.
    + apply LoaderMain.prepared_raises in Hrecords as [-> Hyear].
      split; [done|]. by intros _.
    + split; [by intros _|]. intros Hyear. destruct Hyear.
      by apply (LoaderMain.prepared_years float_of_string df d records).
Qed.

(** A dry run of the loader on the two-row frame: the species table is
    read, one of the two rows is mapped, and the stale staging row is
    still there. *)
Lemma dry_run_changes_no_table_witness :
  let loader_run :=
    @StageLoader.main sql_schema no_text_float true 5000 two_row_frame
      reachable_store in
  (∃ stats, loader_run.1 = inr stats ∧ StageLoader.species_mapped stats = 1)
  ∧ staging loader_run.2 = [walrus_tusks_from_canada]
  ∧ calls loader_run.2 = [Select Species].
Proof.
  cbv zeta.
  destruct (@dry_run_changes_no_table sql_schema no_text_float 5000
              two_row_frame [] StageLoader.initial_stats initial_stats "y"
              reachable_store)
    as (_ & _ & _ & Hloader & _ & Hcalls & _ & Hprep).
  split_and!.
  - destruct Hprep as [Hrun _].
    + reflexivity.
    + discriminate.
    + eexists. split; [apply Hrun|reflexivity].
      repeat constructor. by eexists.
  - destruct Hloader as (Htables & _).
    exact (f_equal (λ t : _ * list StagingRecord * _, t.1.2) Htables).
  - exact Hcalls.
Defined.

End DryRun.

(** ** Validation of the backup *)

Module BackupFacts.
Import Py Store StoreFacts Backup Examples.

Lemma get_current_record_count_run (d : db) :
  get_current_record_count d
  = (inr (if available d then Z.of_nat (length (production d)) else 0%Z),
     logged (SelectCount Production) d).
Proof.
  unfold get_current_record_count, try_except.
  destruct (available d) eqn:Ha.
  - by rewrite select_count_available.
  - by rewrite select_count_unavailable.
Qed.

(** When the count query is answered, the backup is declared valid only
    if its row count is the row count of the production table (and the
    required columns are there). *)
Lemma validate_backup_sound (file : backup_file) (d : db) :
  available d = true →
  (validate_backup file d).1 = inr true →
  ∃ df, file = Csv df
        ∧ n_rows df = length (production d)
        ∧ Forall (λ col, col ∈ columns df) required_columns.
Proof.
  intros Ha. unfold validate_backup, try_except.
  destruct file as [| |df]; [done..|].
  unfold mbind, M_bind, bind. rewrite get_current_record_count_run, Ha.
  destruct (Z.eqb_spec (Z.of_nat (n_rows df))
              (Z.of_nat (length (production d)))) as [Heq|Hne]; [|done].
  simpl.
  destruct (filter (λ col, col ∉ columns df) required_columns) eqn:Hmissing;
    [|done].
  intros _. exists df. split_and!; [done|lia|].
  apply Forall_forall. intros col Hcol.
  destruct (decide (col ∈ columns df)) as [|Hn]; [done|].
  assert (col ∈ filter (λ col, col ∉ columns df) required_columns) as Hin
    by (by apply list_elem_of_filter).
  rewrite Hmissing in Hin. by apply elem_of_nil in Hin.
Qed.

(** In every case a declared-valid backup has the row count that
    [get_current_record_count] returned. *)
Lemma validate_backup_compares_with_helper (file : backup_file) (d : db) :
  (validate_backup file d).1 = inr true →
  ∃ df, file = Csv df
        ∧ inr (Z.of_nat (n_rows df)) = (get_current_record_count d).1.
Proof.
  unfold validate_backup, try_except.
  destruct file as [| |df]; [done..|].
  unfold mbind, M_bind, bind. rewrite get_current_record_count_run.
  destruct (Z.eqb_spec (Z.of_nat (n_rows df))
              (if available d then Z.of_nat (length (production d)) else 0%Z))
    as [Heq|Hne]; [|done].
  intros _. exists df. split; [done|]. simpl. by rewrite Heq.
Qed.

(** A backup file with at least one row is declared valid only when the
    count query was answered and the file has as many rows as the
    production table, and it is declared invalid whenever the two numbers
    differ: for such a file the 0 that [get_current_record_count] returns
    when the query raises is a mismatch. *)
Lemma validate_backup_with_rows (df : DataFrame) (d : db) :
  n_rows df ≠ 0 →
  ((validate_backup (Csv df) d).1 = inr true →
   available d = true ∧ n_rows df = length (production d))
  ∧ (n_rows df ≠ length (production d) →
     (validate_backup (Csv df) d).1 = inr false).
Proof.
  intros Hrows. split.
  - intros Hvalid.
    destruct (validate_backup_compares_with_helper _ d Hvalid)
      as (df' & [= <-] & Hcount).
    rewrite get_current_record_count_run in Hcount.
    injection Hcount as Hcount.
    destruct (available d); [split; [done|lia]|lia].
  - intros Hne. unfold validate_backup, try_except.
    unfold mbind, M_bind, bind. rewrite get_current_record_count_run.
    destruct (Z.eqb_spec (Z.of_nat (n_rows df))
                (if available d then Z.of_nat (length (production d))
                 else 0%Z)) as [Heq|?]; [|done].
    destruct (available d); lia.
Qed.

(** Outside the script, on a file that no run of the script writes: a
    file with a header and no rows, checked while the store cannot be
    reached, passes the comparison on the 0 of the swallowed error. *)
Lemma validate_backup_header_only_unreachable :
  (validate_backup (Csv header_only_backup) unreachable_store).1 = inr true
  ∧ n_rows header_only_backup = 0
  ∧ length (production unreachable_store) = 1
  ∧ (get_current_record_count unreachable_store).1 = inr 0%Z.
Proof. split_and!; vm_compute; reflexivity. Qed.

End BackupFacts.

(** ** The per-species counters of the extraction *)

Module ExtractorFacts.
Import Py Store StageLoader Extractor Examples.

Lemma track_species_count (result : FileStats) (counts : gmap string nat)
    (species s : string) :
  count_of (track_species result counts species) s
  = count_of counts s + (if decide (s = species) then arctic_records result else 0).
Proof.
  unfold track_species, count_of.
  destruct (counts !! species) as [count|] eqn:Hc.
  - destruct (decide (s = species)) as [->|Hne].
    + by rewrite lookup_insert_eq, Hc.
    + rewrite lookup_insert_ne by done. lia.
  - destruct (decide (s = species)) as [->|Hne].
    + by rewrite lookup_insert_eq, Hc.
    + rewrite lookup_insert_ne by done. lia.
Qed.

Lemma track_all_species_count (result : FileStats) (l : list string)
    (counts : gmap string nat) (s : string) :
  NoDup l →
  count_of (foldl (track_species result) counts l) s
  = count_of counts s + (if decide (s ∈ l) then arctic_records result else 0).
Proof.
  intros Hnd. revert counts.
  induction Hnd as [|x l Hx Hnd IH]; intros counts; cbn [foldl].
  - rewrite decide_False by apply not_elem_of_nil. lia.
  - rewrite IH, track_species_count.
    destruct (decide (s = x)) as [->|Hne].
    + rewrite decide_False by done. rewrite decide_True by left. lia.
    + destruct (decide (s ∈ l)) as [Hin|Hnin].
      * rewrite decide_True by (by right). lia.
      * rewrite decide_False; [lia|].
        intros Hin. apply elem_of_cons in Hin as [?|?]; done.
Qed.

(** What the aggregation loop computes: every species found in a file is
    credited with all the matching rows of that file. *)
Lemma aggregate_counts (results : list FileStats)
    (acc : ExtractionStats * gset string) (s : string) :
  count_of (species_match_counts (foldl aggregate acc results).1) s
  = count_of (species_match_counts acc.1) s + credited results s.
Proof.
  revert acc. induction results as [|result results IH]; intros [stats seen].
  - unfold credited. simpl. lia.
  - cbn [foldl]. rewrite IH. unfold aggregate at 1. cbn [fst species_match_counts].
    rewrite track_all_species_count by apply NoDup_elements.
    unfold credited. rewrite filter_cons.
    destruct (decide (s ∈ species_found result)) as [Hin|Hnin].
    + rewrite decide_True by (by apply elem_of_elements).
      rewrite fmap_cons. change (sum_list (?x :: ?l)) with (x + sum_list l). lia.
    + rewrite decide_False by (by rewrite elem_of_elements). lia.
Qed.

Lemma extract_all_arctic_data_counts (arctic_species : gset string)
    (files : list SourceFile) (s : string) :
  count_of (species_match_counts (extract_all_arctic_data arctic_species files)) s
  = credited ((λ f, (process_single_file arctic_species f).1) <$> files) s.
Proof.
  unfold extract_all_arctic_data.
  pose proof (aggregate_counts
                ((λ f, (process_single_file arctic_species f).1) <$> files)
                ({| files_processed := 0; total_records_scanned := 0;
                    arctic_records_found := 0; species_match_counts := ∅;
                    unique_species_found := 0 |}, ∅) s) as Hagg.
  destruct (foldl aggregate _ _) as [stats seen]. simpl in *.
  rewrite Hagg. unfold count_of. by rewrite lookup_empty.
Qed.

(** C6 (code defect).  One source file holds one walrus row and one polar
    bear row (and a row of an unlisted taxon).  After the extraction the
    counter of each of the two species is 2, the number of all matching
    rows of the file, although exactly one matched row has that taxon. *)
Theorem species_match_counts_credit_whole_file :
  let stats := extract_all_arctic_data arctic_species_list [one_source_file] in
  species_match_counts stats !! "Odobenus rosmarus" = Some 2
  ∧ species_match_counts stats !! "Ursus maritimus" = Some 2
  ∧ matched_rows arctic_species_list "Odobenus rosmarus" [one_source_file] = 1
  ∧ matched_rows arctic_species_list "Ursus maritimus" [one_source_file] = 1
  ∧ arctic_records_found stats = 2.
Proof. cbv zeta. split_and!; vm_compute; reflexivity. Qed.

End ExtractorFacts.

(** ** The records of a whole file, there and back *)

Module RecordsRoundTrip.
Import Py PyFacts Optimizer Reader OptimizerFacts ReaderFacts RoundTrip.
Import JsonFacts Normalization.

(** X1.  Before the tables are written to a file, they invert the
    normalization: the reconstruction loop of
    [get_denormalized_records], run on the tables and records that
    [extract_lookup_tables] returns, gives back every lookup-covered field
    of every record, in the order of the input, and the keys that are
    copied as they are ([id], [year], [quantity_raw],
    [quantity_normalized], [source_file], [row_number]). *)
Theorem in_memory_records_round_trip `{SetIteration}
    (trade_records : list TradeRecord) (f : field) :
  let '(lookup_tables, normalized_records) := extract_lookup_tables trade_records in
  let denormalized := get_denormalized_records lookup_tables normalized_records in
  (λ full, full_get full f) <$> denormalized
  = (λ record, Some (rget record f)) <$> trade_records
  ∧ (λ full, (f_id full, f_year full, f_quantity_raw full,
               f_quantity_normalized full, f_source_file full,
               f_row_number full)) <$> denormalized
    = (λ record, (tr_id record, tr_year record, tr_quantity_raw record,
                   tr_quantity_normalized record, tr_source_file record,
                   tr_row_number record)) <$> trade_records.
Proof.
  unfold extract_lookup_tables, get_denormalized_records. cbv zeta.
  rewrite <- !list_fmap_compose. split.
  - apply Forall_fmap_ext, Forall_forall. intros record Hr. simpl.
    by apply in_memory_round_trip.
  - apply Forall_fmap_ext, Forall_forall. by intros record _.
Qed.

(** X2.  The reader of the same name in [load_optimized_trade_data.py]
    looks every id up as [str(id)], which is what the keys of the tables
    are once the file has been written and loaded again: on the file that
    the optimizer writes it gives back every lookup-covered field of every
    record, and the keys that are copied as they are. *)
Theorem loader_records_round_trip `{SetIteration}
    (trade_records : list TradeRecord) (f : field) :
  let '(lookup_tables, normalized_records) := read_optimized_file trade_records in
  let denormalized :=
    loader_get_denormalized_records lookup_tables normalized_records in
  (λ full, full_get full f) <$> denormalized
  = (λ record, Some (rget record f)) <$> trade_records
  ∧ (λ full, (f_id full, f_year full, f_quantity_raw full,
               f_quantity_normalized full, f_source_file full,
               f_row_number full)) <$> denormalized
    = (λ record, (tr_id record, tr_year record, tr_quantity_raw record,
                   tr_quantity_normalized record, tr_source_file record,
                   tr_row_number record)) <$> trade_records.
Proof.
  pose proof (loader_round_trip trade_records) as Hloader.
  unfold read_optimized_file, extract_lookup_tables in *.
  unfold loader_get_denormalized_records. cbv zeta. simpl in *.
  rewrite <- !list_fmap_compose. split.
  - apply Forall_fmap_ext, Forall_forall. intros record Hr. simpl.
    by apply Hloader.
  - apply Forall_fmap_ext, Forall_forall. by intros record _.
Qed.

Section ids.
Context `{SetIteration}.
Variable trade_records : list TradeRecord.

Lemma id_of_location (record : TradeRecord) (f : field) :
  is_location f = true →
  id_of (normalize trade_records record) f
  = dict_get (rget record f) (location_lookup trade_records).
Proof. intros Hf. destruct f; try discriminate Hf; reflexivity. Qed.

Lemma id_of_categorical (record : TradeRecord) (f : field) :
  is_static f = false → is_location f = false →
  id_of (normalize trade_records record) f
  = dict_get (rget record f) (index_of_sorted (field_values trade_records f))
  ∧ dict_get (field_name f)
      (categorical_reverse (lookup_tables_of trade_records))
    = Some (reverse_mapping (index_of_sorted (field_values trade_records f))).
Proof.
  intros Hs Hl.
  destruct f; try discriminate Hs; try discriminate Hl; split; reflexivity.
Qed.

(** The id stored for a field that is not static: none when the value is
    empty, else a key of the table of the field, under which the table
    holds the value. *)
Lemma id_of_normalized (record : TradeRecord) (f : field) :
  record ∈ trade_records → is_static f = false →
  match id_of (normalize trade_records record) f with
  | None => rget record f = ""
  | Some i =>
      rget record f ≠ ""
      ∧ Some (rget record f)
        = if is_location f
          then dict_get (KInt i) (locations (lookup_tables_of trade_records))
          else mapping ← dict_get (field_name f)
                           (categorical_reverse (lookup_tables_of trade_records));
               dict_get (KInt i) mapping
  end.
Proof.
  intros Hr Hs. destruct (is_location f) eqn:Hl.
  - rewrite id_of_location by done.
    destruct (decide (rget record f = "")) as [Heq|Hne].
    + unfold location_lookup. rewrite index_of_sorted_None; [done|].
      rewrite Heq. apply empty_not_location.
    + destruct (index_of_sorted_Some (all_locations trade_records)
                  (rget record f)) as (i & Hi & Hrev).
      { apply location_in_table; [done| |done].
        destruct f; try discriminate Hl; set_solver. }
      unfold location_lookup. rewrite Hi. split; [done|].
      simpl. unfold location_reverse, location_lookup. by rewrite Hrev.
  - destruct (id_of_categorical record f Hs Hl) as [-> ->].
    destruct (decide (rget record f = "")) as [Heq|Hne].
    + rewrite index_of_sorted_None; [done|].
      rewrite Heq. apply empty_not_field_value.
    + destruct (index_of_sorted_Some (field_values trade_records f)
                  (rget record f)) as (i & Hi & Hback).
      { by apply value_in_field_values. }
      rewrite Hi. split; [done|]. simpl. by rewrite Hback.
Qed.
End ids.

(** X3.  What [extract_lookup_tables] stores in a normalized record: a
    [taxonomic_id] always, which is the key of the record's taxonomic
    tuple; and for each location and categorical field an id exactly when
    the value is not the empty string (the key is removed otherwise),
    which is then a key of the field's table holding that value.  So
    looking an id of a normalized record up in the tables never fails. *)
Theorem normalized_ids_are_table_keys `{SetIteration}
    (trade_records : list TradeRecord) :
  let '(lookup_tables, normalized_records) := extract_lookup_tables trade_records in
  Forall2
    (λ record normalized,
       (∃ i, n_taxonomic_id normalized = Some i
             ∧ dict_get (KInt i) (taxonomic lookup_tables)
               = Some (zip static_names (static_combo record)))
       ∧ ∀ f, is_static f = false →
           match id_of normalized f with
           | None => rget record f = ""
           | Some i =>
               rget record f ≠ ""
               ∧ Some (rget record f)
                 = if is_location f
                   then dict_get (KInt i) (locations lookup_tables)
                   else mapping ← dict_get (field_name f)
                                    (categorical_reverse lookup_tables);
                        dict_get (KInt i) mapping
           end)
    trade_records normalized_records.
Proof.
  unfold extract_lookup_tables.
  apply Forall2_fmap_r, Forall_Forall2_diag, Forall_forall.
  intros record Hr. split.
  - by apply taxonomic_id_of_record.
  - intros f Hs. by apply id_of_normalized.
Qed.

End RecordsRoundTrip.

(** ** The staging loader beyond the counts of a clean run *)

Module StagingRun.
Import Py PyFacts Store StoreFacts StageLoader StageLoaderFacts LoaderRun.
Import LoaderMain Examples.

Lemma total_length_app (todo1 todo2 : list (list StagingRecord)) :
  total_length (todo1 ++ todo2) = total_length todo1 + total_length todo2.
Proof. unfold total_length. by rewrite concat_app, length_app. Qed.

(** Every batch is either taken or refused. *)
Lemma total_length_split (P : list StagingRecord → Prop)
    `{∀ b, Decision (P b)} (todo : list (list StagingRecord)) :
  total_length (filter P todo) + total_length (filter (λ b, ¬ P b) todo)
  = total_length todo.
Proof.
  induction todo as [|batch todo IH]; [done|].
  rewrite !filter_cons. change (batch :: todo) with ([batch] ++ todo).
  rewrite (total_length_app [batch] todo).
  destruct (decide (P batch)) as [Hb|Hb].
  - rewrite decide_False by tauto.
    change (batch :: filter P todo) with ([batch] ++ filter P todo).
    rewrite total_length_app. lia.
  - rewrite decide_True by done.
    change (batch :: filter (λ b, ¬ P b) todo)
      with ([batch] ++ filter (λ b, ¬ P b) todo).
    rewrite total_length_app. lia.
Qed.

(** X4.  A real run of [load_to_staging] with a batch size that is not
    zero never raises, whatever the store does.  With a positive batch
    size it accounts for every record: [successful_loads + failed_loads]
    is the number of records it was given; a rejected batch does not stop
    the loop, the staging table gains exactly the batches that the store
    accepted, in order, and [successful_loads] is the number of rows
    gained.  With a negative batch size nothing is sent and both counts
    are zero.  The production table is not touched. *)
Theorem load_to_staging_counts_every_record `{Schema} (batch_size : Z)
    (staging_records : list StagingRecord) (stats : LoadStats) (d : db) :
  batch_size ≠ 0%Z →
  let stored :=
    concat (filter (λ b, accepted (available d) b = true)
              (range_batches batch_size staging_records)) in
  ∃ stats' d',
    load_to_staging false batch_size staging_records stats d = (inr stats', d')
    ∧ successful_loads stats' + failed_loads stats'
      = (if (0 <? batch_size)%Z then length staging_records else 0)
    ∧ successful_loads stats' = length stored
    ∧ staging d' = staging d ++ stored
    ∧ production d' = production d
    ∧ total_records stats' = total_records stats
    ∧ species_mapped stats' = species_mapped stats
    ∧ ((batch_size < 0)%Z → stored = [] ∧ calls d' = calls d).
Proof.
  intros Hsize stored. unfold load_to_staging.
  rewrite decide_False by done.
  unfold mbind, M_bind, bind. rewrite load_batches_run. cbv zeta.
  unfold mret, M_ret, ret. eexists _, _. split; [reflexivity|].
  cbn [successful_loads failed_loads total_records species_mapped fst snd
       staging production calls].
  split_and!; try done.
  - rewrite !Nat.add_0_l.
    rewrite (total_length_split (λ b, accepted (available d) b = true)).
    unfold total_length.
    destruct (Z.ltb_spec 0 batch_size) as [Hpos|Hneg].
    + by rewrite concat_range_batches.
    + by rewrite range_batches_neg.
  - intros Hneg. unfold stored. rewrite range_batches_neg by lia.
    split; [done|]. simpl. by rewrite app_nil_r.
Qed.

(** Two records sent one by one to a store that cannot be reached: both
    are counted as failed. *)
Lemma load_to_staging_counts_every_record_witness :
  ∃ stats' d',
    @load_to_staging sql_schema false 1
      [walrus_tusks_from_greenland; walrus_tusks_from_canada] initial_stats
      unreachable_store = (inr stats', d')
    ∧ successful_loads stats' + failed_loads stats' = 2
    ∧ successful_loads stats' = 0
    ∧ staging d' = []
    ∧ production d' = [walrus_tusks_from_greenland].
Proof.
  destruct (@load_to_staging_counts_every_record sql_schema 1
              [walrus_tusks_from_greenland; walrus_tusks_from_canada]
              initial_stats unreachable_store)
    as (stats' & d' & Hrun & Hsum & Hstored & Hstaging & Hproduction & _).
  - lia.
  - exists stats', d'. split; [exact Hrun|]. split; [exact Hsum|].
    split; [exact Hstored|]. split; [exact Hstaging|exact Hproduction].
Defined.

(** X5.  On an extracted CSV without data rows the loader stops in
    [map_species_ids], at the log line that divides by [len(df)]: the run
    ends with [ZeroDivisionError] (or with the store's error when the
    species table cannot be read), in a dry run as in a real one, and the
    only request sent is the one for the species table; the staging
    table is not cleared. *)
Theorem empty_frame_stops_the_loader `{Schema}
    (float_of_string : string → option pyfloat) (dry_run : bool)
    (batch_size : Z) (d : db) :
  main float_of_string dry_run batch_size [] d
  = (inl (if available d then ZeroDivisionError else Unavailable),
     logged (Select Species) d).
Proof.
  unfold main. unfold mbind at 1. unfold M_bind, bind.
  rewrite load_species_mapping_run.
  destruct (available d); [|done].
  by rewrite map_species_ids_empty.
Qed.

Lemma mapping_of_snoc (data : list (string * string)) (kv : string * string) :
  mapping_of (data ++ [kv]) = <[kv.1 := kv.2]> (mapping_of data).
Proof. unfold mapping_of. by rewrite foldl_app. Qed.

(** X6.  The species mapping that [load_species_mapping] builds from the
    rows of the species table: a scientific name that occurs in several
    rows is mapped to the id of the last of them, and a name that occurs
    in none has no entry. *)
Theorem mapping_of_last_wins (data : list (string * string)) (name : string) :
  mapping_of data !! name = snd <$> last (filter (λ kv, kv.1 = name) data).
Proof.
  induction data as [|kv data IH] using rev_ind; [done|].
  rewrite mapping_of_snoc, filter_app, filter_cons, filter_nil.
  destruct (decide (kv.1 = name)) as [<-|Hne].
  - by rewrite lookup_insert_eq, last_snoc.
  - rewrite lookup_insert_ne by done. by rewrite app_nil_r.
Qed.

End StagingRun.

(** ** Resuming a load *)

Module ResumeFacts.
Import Py PyFacts Store StoreFacts StageLoader StageLoaderFacts LoaderRun.
Import LoaderMain Resume Examples Scenarios.

Lemma get_loaded_record_ids_run (d : db) :
  get_loaded_record_ids d
  = if available d
    then (inr (Z.of_nat (length (staging d))),
          logged (Select Staging) (logged (SelectCount Staging) d))
    else (inl Unavailable, logged (SelectCount Staging) d).
Proof. unfold get_loaded_record_ids. unfold_store. by destruct (available d). Qed.

Lemma select_species_run (d : db) :
  select_species d
  = (if available d then inr (species d) else inl Unavailable,
     logged (Select Species) d).
Proof. unfold select_species. unfold_store. by destruct (available d). Qed.

Section resume.
Context `{Schema}.
Variable float_of_string : string → option pyfloat.

Lemma insert_remaining_run (todo : list (list StagingRecord)) (loaded : nat)
    (d : db) :
  let taken := filter (λ b, accepted (available d) b = true) todo in
  insert_remaining todo loaded d
  = (inr (loaded + total_length taken),
     {| species := species d;
        staging := staging d ++ concat taken;
        production := production d;
        available := available d;
        calls := calls d ++ ((λ b, Insert Staging (length b)) <$> todo) |}).
Proof.
  revert loaded d.
  induction todo as [|batch todo IH]; intros loaded d.
  - simpl. unfold total_length. simpl. rewrite !Nat.add_0_r, !app_nil_r.
    by destruct d.
  - cbn [insert_remaining]. unfold mbind, M_bind, bind, try_except.
    rewrite insert_staging_run. cbv zeta. rewrite !filter_cons.
    destruct (accepted (available d) batch) eqn:Hb.
    + cbv beta iota. unfold mret, M_ret, ret. cbv beta iota.
      rewrite IH. cbv zeta. simpl. unfold total_length. simpl.
      rewrite ?length_app, <-?app_assoc, ?Nat.add_assoc. reflexivity.
    + cbv beta iota. unfold mret, M_ret, ret. cbv beta iota.
      rewrite IH. cbv zeta. simpl. unfold total_length. simpl.
      rewrite ?length_app, <-?app_assoc, ?Nat.add_assoc. reflexivity.
Qed.

Lemma resume_run (batch_size : Z) (df : list Row)
    (records : list StagingRecord) (d : db) :
  available d = true →
  (Z.of_nat (length (staging d)) < target_count)%Z →
  batch_size ≠ 0%Z →
  resume_prepare_records float_of_string (mapping_of (species d))
    (drop (length (staging d)) df) = inr records →
  let todo := range_batches batch_size records in
  load_remaining_records float_of_string batch_size df d
  = (inr (),
     {| species := species d;
        staging := staging d
                   ++ concat (filter (λ b, accepted true b = true) todo);
        production := production d;
        available := true;
        calls := calls d ++ [SelectCount Staging; Select Staging; Select Species]
                 ++ ((λ b, Insert Staging (length b)) <$> todo)
                 ++ [SelectCount Staging] |}).
Proof.
  intros Ha Hcount Hsize Hrecords todo.
  unfold load_remaining_records. unfold mbind at 1. unfold M_bind, bind.
  rewrite get_loaded_record_ids_run, Ha.
  destruct (target_count <=? _)%Z eqn:Hle; [lia|].
  unfold mbind at 1. unfold M_bind, bind.
  rewrite select_species_run. cbn [available logged species staging].
  rewrite Ha, Nat2Z.id, Hrecords. rewrite decide_False by done.
  unfold mbind at 1. unfold M_bind, bind.
  rewrite insert_remaining_run. cbv zeta.
  cbn [available logged species staging production calls].
  unfold mbind at 1. unfold M_bind, bind.
  rewrite select_count_available by done.
  unfold mret, M_ret, ret. rewrite Ha. unfold logged. simpl.
  rewrite <- !app_assoc. reflexivity.
Qed.

(** When the record loop raises, the run ends there: three reads have
    been sent and nothing is staged. *)
Lemma resume_run_raises (batch_size : Z) (df : list Row) (e : exn) (d : db) :
  available d = true →
  (Z.of_nat (length (staging d)) < target_count)%Z →
  resume_prepare_records float_of_string (mapping_of (species d))
    (drop (length (staging d)) df) = inl e →
  load_remaining_records float_of_string batch_size df d
  = (inl e,
     logged (Select Species)
       (logged (Select Staging) (logged (SelectCount Staging) d))).
Proof.
  intros Ha Hcount Hrecords.
  unfold load_remaining_records. unfold mbind at 1. unfold M_bind, bind.
  rewrite get_loaded_record_ids_run, Ha.
  destruct (target_count <=? _)%Z eqn:Hle; [lia|].
  unfold mbind at 1. unfold M_bind, bind.
  rewrite select_species_run. cbn [available logged species staging].
  by rewrite Ha, Nat2Z.id, Hrecords.
Qed.

(** The record loop goes through exactly on convertible rows. *)
Lemma resume_record_of_convertible (species_mapping : gmap string string)
    (row : Row) :
  convertible float_of_string row
  ↔ ∃ record,
      resume_record_of float_of_string species_mapping row = inr record.
Proof.
  unfold convertible, has_year, resume_record_of, resume_quantity. split.
  - intros [[year ->] Htext].
    destruct (cQuantity row) as [[q|negative|]|s]; [by eexists..|].
    destruct (Htext s eq_refl) as [q ->]. by eexists.
  - intros [record Hrecord].
    destruct (cYear row) as [year|]; [|done]. split; [by eexists|].
    intros s Hs. rewrite Hs in Hrecord.
    by destruct (float_of_string s).
Qed.

Lemma resume_prepare_records_convertible
    (species_mapping : gmap string string) (df : list Row) :
  Forall (convertible float_of_string) df
  ↔ ∃ records,
      resume_prepare_records float_of_string species_mapping df = inr records.
Proof.
  induction df as [|row df IH].
  - split; [by exists []|constructor].
  - cbn [resume_prepare_records]. rewrite Forall_cons.
    rewrite (resume_record_of_convertible species_mapping), IH.
    destruct (resume_record_of float_of_string species_mapping row)
      as [e|record].
    + split; [by intros [[? ?] _]|by intros [? ?]].
    + destruct (resume_prepare_records float_of_string species_mapping df)
        as [e|records].
      * split; [by intros [_ [? ?]]|by intros [? ?]].
      * split; [by eexists|]. intros _. split; by eexists.
Qed.

(** Rows are sent whether their taxon is in the species table or not. *)
Lemma resume_species_ids (species_mapping : gmap string string)
    (df : list Row) (records : list StagingRecord) :
  resume_prepare_records float_of_string species_mapping df = inr records →
  species_id <$> records = (λ row, species_mapping !! cTaxon row) <$> df
  ∧ taxon <$> records = cTaxon <$> df.
Proof.
  revert records. induction df as [|row df IH]; intros records Hrun.
  - by injection Hrun as <-.
  - cbn [resume_prepare_records] in Hrun.
    destruct (resume_record_of float_of_string species_mapping row)
      as [e|record] eqn:Hrow; [done|].
    destruct (resume_prepare_records float_of_string species_mapping df)
      as [e|rest]; [done|].
    injection Hrun as <-. rewrite !fmap_cons.
    destruct (IH rest eq_refl) as [-> ->].
    unfold resume_record_of in Hrow.
    destruct (cYear row); [|done].
    destruct (resume_quantity float_of_string (cQuantity row)); [done|].
    by injection Hrow as <-.
Qed.

(** When the table takes every row, it takes every batch. *)
Lemma all_batches_accepted (size : nat) (records : list StagingRecord) :
  forallb staging_row_ok records = true →
  filter (λ b, accepted true b = true) (batches size records)
  = batches size records.
Proof.
  intros Hok. apply filter_all. intros batch Hbatch.
  unfold batches in Hbatch. apply list_elem_of_fmap in Hbatch as (k & -> & _).
  unfold accepted. simpl.
  apply Is_true_true, forallb_True, Forall_take, Forall_drop.
  by apply forallb_True, Is_true_true.
Qed.

(** On a numeric [Quantity] cell the resumed load builds what the first
    load builds from the row with its species id. *)
Lemma resume_record_of_numeric (species_mapping : gmap string string)
    (row : Row) :
  numeric row →
  resume_record_of float_of_string species_mapping row
  = staging_record_of float_of_string (resolve species_mapping row).
Proof.
  intros [x Hx]. unfold resume_record_of, staging_record_of, resolve.
  simpl. rewrite Hx. destruct (cYear row); [|done]. by destruct x.
Qed.

Lemma resume_prepare_records_numeric (species_mapping : gmap string string)
    (df : list Row) :
  Forall numeric df →
  resume_prepare_records float_of_string species_mapping df
  = prepare_staging_records float_of_string (resolve species_mapping <$> df).
Proof.
  induction 1 as [|row df Hrow _ IH]; [done|].
  cbn [resume_prepare_records fmap list_fmap prepare_staging_records].
  by rewrite resume_record_of_numeric, IH.
Qed.
End resume.

(** X7.  What a resumed load does when the store answers, the target
    count is not reached and the batch size is not zero.  It skips as
    many rows of the frame as the staging table holds and converts all
    the others, also those whose taxon is not in the species table (they
    get no [species_id]).  When each of them has a year and a quantity
    that is a number, missing, or text that [float] reads, the staging
    table gains the batches that the store accepted: all records when the
    batch size is positive and the table takes every row, none when the
    batch size is negative, in which case nothing is sent; the script
    ends with exit status 0 whether batches were rejected or not.  When
    one of them has no year or an unreadable quantity, nothing is staged
    and the script ends with exit status 1. *)
Theorem resume_appends_the_remaining_rows `{Schema}
    (float_of_string : string → option pyfloat) (batch_size : Z)
    (df : list Row) (d : db) :
  available d = true →
  (Z.of_nat (length (staging d)) < target_count)%Z →
  batch_size ≠ 0%Z →
  let df_remaining := drop (length (staging d)) df in
  (Forall (convertible float_of_string) df_remaining →
   ∃ records d',
     let stored :=
       concat (filter (λ b, accepted true b = true)
                 (range_batches batch_size records)) in
     resume_prepare_records float_of_string (mapping_of (species d))
       df_remaining = inr records
     ∧ load_remaining_records float_of_string batch_size df d = (inr (), d')
     ∧ main float_of_string batch_size df d = (inr 0, d')
     ∧ staging d' = staging d ++ stored
     ∧ production d' = production d
     ∧ taxon <$> records = cTaxon <$> df_remaining
     ∧ species_id <$> records
       = (λ row, mapping_of (species d) !! cTaxon row) <$> df_remaining
     ∧ ((0 < batch_size)%Z → forallb staging_row_ok records = true →
        stored = records)
     ∧ ((batch_size < 0)%Z → stored = []))
  ∧ (¬ Forall (convertible float_of_string) df_remaining →
     ∃ d',
       main float_of_string batch_size df d = (inr 1, d')
       ∧ only_reads d d').
Proof.
  intros Ha Hcount Hsize df_remaining. split.
  - intros [records Hrecords]%(resume_prepare_records_convertible
                                 float_of_string (mapping_of (species d))).
    pose proof (resume_run float_of_string batch_size df records d
                  Ha Hcount Hsize Hrecords) as Hrun.
    cbv zeta in Hrun. eexists records, _. cbv zeta.
    split; [exact Hrecords|]. split; [exact Hrun|].
    destruct (resume_species_ids float_of_string _ _ _ Hrecords)
      as [Hids Htaxa].
    split_and!; [|done..| |].
    + unfold main, try_except, mbind, M_bind, bind. by rewrite Hrun.
    + intros Hpos Hok. rewrite range_batches_pos by done.
      rewrite all_batches_accepted by done. apply concat_batches. lia.
    + intros Hneg. by rewrite range_batches_neg by lia.
  - intros Hno.
    destruct (resume_prepare_records float_of_string
                (mapping_of (species d)) df_remaining) as [e|records]
      eqn:Hrecords.
    + pose proof (resume_run_raises float_of_string batch_size df e d
                    Ha Hcount Hrecords) as Hrun.
      eexists. split.
      * unfold main, try_except, mbind, M_bind, bind. by rewrite Hrun.
      * eapply DryRun.only_reads_trans; [|by apply DryRun.only_reads_logged].
        eapply DryRun.only_reads_trans; by apply DryRun.only_reads_logged.
    + destruct Hno.
      apply (resume_prepare_records_convertible float_of_string
               (mapping_of (species d))). by exists records.
Qed.

(** A load that stopped after the walrus row is resumed on the frame of
    the walrus row and a polar bear row: the polar bear record is
    appended. *)
Lemma resume_appends_the_remaining_rows_witness :
  ∃ d',
    @main sql_schema no_text_float 1000 walrus_bear_frame interrupted_store
    = (inr 0, d')
    ∧ staging d'
      = [walrus_tusks_from_greenland;
         {| species_id := Some "77c1"; year := 2023; appendix := Some "II";
            taxon := "Ursus maritimus"; class := Some "Mammalia";
            order_name := Some "Carnivora"; family := Some "Ursidae";
            genus := Some "Ursus"; importer := Some "US";
            exporter := Some "CA"; origin := None;
            importer_reported_quantity := Some (Finite (1 # 1));
            exporter_reported_quantity := Some (Finite (1 # 1));
            term := Some "skins"; unit := None; purpose := Some "H";
            source := Some "W"; data_source := "CITES v2025.1" |}].
Proof.
  destruct (@resume_appends_the_remaining_rows sql_schema no_text_float 1000
              walrus_bear_frame interrupted_store) as [Hgood _].
  - reflexivity.
  - vm_compute. reflexivity.
  - lia.
  - destruct Hgood as (records & d' & Hrecords & _ & Hmain & Hstaging & _ & _
                       & _ & Hall & _).
    + repeat constructor; [by eexists|intros s; discriminate].
    + exists d'. split; [exact Hmain|].
      vm_compute in Hrecords. injection Hrecords as <-.
      rewrite Hstaging, Hall; [reflexivity|lia|reflexivity].
Defined.

(** X8.  A load that stopped part-way is completed by the resumed load.
    The store answers, fewer rows than the target count are staged, the
    batch size is positive, every taxon of the frame is in the species
    table, every row has a year and a [Quantity] that pandas read as a
    number, and the table takes every row: if the staging table holds
    the records of the first [k] rows, it holds after the resumed load
    exactly the records that an uninterrupted load prepares from the
    whole frame. *)
Theorem resume_completes_an_interrupted_load `{Schema}
    (float_of_string : string → option pyfloat) (batch_size : Z) (k : nat)
    (df : list Row) (d : db) :
  available d = true →
  (Z.of_nat k < target_count)%Z →
  (0 < batch_size)%Z →
  Forall (mapped (mapping_of (species d))) df →
  Forall has_year df →
  Forall numeric df →
  k ≤ length df →
  ∃ records,
    prepared float_of_string df d = inr records
    ∧ (forallb staging_row_ok records = true →
       staging d = take k records →
       ∃ d',
         load_remaining_records float_of_string batch_size df d = (inr (), d')
         ∧ staging d' = records
         ∧ production d' = production d).
Proof.
  intros Ha Hcount Hsize Hmapped Hyears Hnumeric Hk.
  assert (prepared float_of_string df d
          = prepare_staging_records float_of_string
              (resolve (mapping_of (species d)) <$> df)) as Hprepared.
  { unfold prepared. do 2 f_equal. apply filter_all.
    by apply Forall_forall. }
  destruct (prepare_staging_records_total float_of_string
              (resolve (mapping_of (species d)) <$> df))
    as [records Hrecords]; [by apply has_year_resolve|].
  exists records. split; [by rewrite Hprepared|].
  intros Hok Hstaging.
  pose proof (prepare_staging_records_length _ _ _ Hrecords) as Hlength.
  rewrite length_fmap in Hlength.
  assert (length (staging d) = k) as Hlen.
  { rewrite Hstaging, length_take. lia. }
  assert (resume_prepare_records float_of_string (mapping_of (species d))
            (drop (length (staging d)) df)
          = inr (drop k records)) as Hrest.
  { rewrite Hlen, resume_prepare_records_numeric by by apply Forall_drop.
    rewrite fmap_drop. apply prepare_staging_records_inr.
    apply prepare_staging_records_inr in Hrecords.
    by apply Forall2_drop. }
  rewrite <- Hlen in Hcount.
  pose proof (resume_run float_of_string batch_size df (drop k records) d
                Ha Hcount ltac:(lia) Hrest) as Hrun.
  cbv zeta in Hrun. eexists. split; [apply Hrun|].
  split; [|done]. cbn [staging]. rewrite range_batches_pos by done.
  rewrite all_batches_accepted; [rewrite concat_batches by lia|].
  - rewrite Hstaging. apply take_drop.
  - apply Is_true_true, forallb_True, Forall_drop.
    by apply forallb_True, Is_true_true.
Qed.

Lemma resume_completes_an_interrupted_load_witness :
  ∃ records d',
    @prepared no_text_float walrus_bear_frame interrupted_store = inr records
    ∧ @load_remaining_records sql_schema no_text_float 1000 walrus_bear_frame
        interrupted_store = (inr (), d')
    ∧ staging d' = records
    ∧ production d' = [].
Proof.
  destruct (@resume_completes_an_interrupted_load sql_schema no_text_float
              1000 1 walrus_bear_frame interrupted_store)
    as (records & Hrecords & Hresume).
  - reflexivity.
  - vm_compute. reflexivity.
  - lia.
  - repeat constructor; vm_compute; eexists; reflexivity.
  - repeat constructor; by eexists.
  - repeat constructor; eexists; reflexivity.
  - simpl. lia.
  - pose proof Hrecords as Hvalue. vm_compute in Hvalue.
    injection Hvalue as <-.
    destruct Hresume as (d' & Hrun & Hstaging & Hproduction).
    + reflexivity.
    + reflexivity.
    + eexists _, d'. split; [exact Hrecords|]. split; [exact Hrun|].
      split; [exact Hstaging|exact Hproduction].
Defined.

End ResumeFacts.

(** ** The merge beyond idempotence *)

Module MigrationRun.
Import Py PyFacts Store StoreFacts Migrator MigratorFacts Examples Scenarios.

#[local] Opaque page_size batch_size.

Lemma pre_migration_checks_run (stats : MigrationStats) (d : db) :
  let staging_count := Z.of_nat (length (staging d)) in
  let prod_count := Z.of_nat (length (production d)) in
  let counted :=
    {| initial_production_count := prod_count;
       initial_staging_count := staging_count;
       records_migrated := records_migrated stats;
       final_production_count := final_production_count stats;
       errors := errors stats |} in
  let counts := logged (SelectCount Production) (logged (SelectCount Staging) d) in
  pre_migration_checks stats d
  = if available d
    then if (staging_count - prod_count <? 0)%Z
         then (inr (false, counted), counts)
         else (inr (true, counted), logged (Select StagingSummary) counts)
    else (inr (false, add_error Unavailable stats),
          logged (SelectCount Staging) d).
Proof.
  cbv zeta. unfold pre_migration_checks, try_except, mbind, M_bind, bind.
  destruct (available d) eqn:Ha.
  - rewrite select_count_available by done.
    rewrite select_count_available by done. simpl.
    destruct (Z.ltb _ 0); [done|].
    unfold_store. by rewrite Ha.
  - by rewrite select_count_unavailable.
Qed.

Lemma post_migration_validation_run `{Schema} (stats : MigrationStats) (d : db) :
  let final_count := Z.of_nat (length (production d)) in
  post_migration_validation stats d
  = if available d
    then (inr (bool_decide (0 < final_count - initial_production_count stats)%Z,
               {| initial_production_count := initial_production_count stats;
                  initial_staging_count := initial_staging_count stats;
                  records_migrated := records_migrated stats;
                  final_production_count := final_count;
                  errors := errors stats |}),
          logged (SelectCount Production) (logged (SelectCount Production) d))
    else (inr (false, stats), logged (SelectCount Production) d).
Proof.
  cbv zeta. unfold post_migration_validation, try_except, mbind, M_bind, bind.
  destruct (available d) eqn:Ha.
  - rewrite select_count_available by done. simpl.
    unfold_store. by rewrite Ha.
  - by rewrite select_count_unavailable.
Qed.

(** Reads leave the store as it was. *)
Lemma only_reads_calls (d : db) (reads : list call) :
  Forall (λ c, mutating c = false) reads →
  only_reads d
    {| species := species d; staging := staging d;
       production := production d; available := available d;
       calls := calls d ++ reads |}.
Proof. intros Hr. split_and!; [done|done|]. by exists reads. Qed.

Section merge.
Context `{Schema}.

(** What the insert loop adds to the table: the rows it reports, all of
    them cleaned staging rows. *)
Lemma merged_adds (up : bool) (rows : list StagingRecord)
    (todo : list (list StagingRecord)) :
  ∃ added, merged up rows todo = rows ++ added
           ∧ length added = inserted_count up rows todo
           ∧ added ⊆ clean_record <$> concat todo.
Proof.
  revert rows. induction todo as [|batch todo IH]; intros rows.
  - exists []. by rewrite app_nil_r.
  - cbn [merged inserted_count concat].
    destruct (takes up rows (clean_record <$> batch)).
    + destruct (IH (rows ++ (clean_record <$> batch)))
        as (added & -> & Hlen & Hsub).
      exists ((clean_record <$> batch) ++ added).
      rewrite <- app_assoc, length_app, Hlen, fmap_app. split_and!; [done..|].
      intros r [Hr|Hr]%elem_of_app; apply elem_of_app; [by left|].
      right. by apply Hsub.
    + destruct (IH rows) as (added & -> & Hlen & Hsub).
      exists added. rewrite fmap_app. split_and!; [done..|].
      intros r Hr. apply elem_of_app. right. by apply Hsub.
Qed.

Lemma execute_migration_result (stats : MigrationStats) (d : db) :
  let todo := batches batch_size (staging d) in
  ∃ log,
    execute_migration false stats d
    = (inr (available d,
            if available d
            then {| initial_production_count := initial_production_count stats;
                    initial_staging_count := initial_staging_count stats;
                    records_migrated := inserted_count true (production d) todo;
                    final_production_count := final_production_count stats;
                    errors := errors stats |}
            else add_error Unavailable stats),
       {| species := species d; staging := staging d;
          production := merged (available d) (production d) todo;
          available := available d;
          calls := calls d ++ log |}).
Proof.
  cbv zeta. unfold execute_migration, try_except, mbind, M_bind, bind.
  destruct (available d) eqn:Ha.
  - destruct (fetch_staging_records_run d Ha) as [n ->].
    match goal with
    | |- context [insert_batches ?t ?i ?e ?d0] =>
        destruct (insert_batches_run t i e d0) as [errors' ->]
    end.
    simpl. rewrite Ha, <-app_assoc. unfold mret, M_ret, ret.
    eexists. reflexivity.
  - rewrite fetch_staging_records_unavailable by done.
    unfold mret, M_ret, ret. exists [Select Staging].
    unfold logged. rewrite Ha, merged_unavailable. reflexivity.
Qed.

(** On rows that the table accepts and whose keys are new and distinct,
    every batch is taken. *)
Lemma merged_clean (rows : list StagingRecord)
    (todo : list (list StagingRecord)) :
  forallb production_row_ok (clean_record <$> concat todo) = true →
  no_duplicate_key rows (clean_record <$> concat todo) →
  merged true rows todo = rows ++ (clean_record <$> concat todo)
  ∧ inserted_count true rows todo = length (concat todo).
Proof.
  revert rows. induction todo as [|batch todo IH]; intros rows Hok [Hnd Hnew].
  - by rewrite app_nil_r.
  - cbn [merged inserted_count concat] in *.
    rewrite !fmap_app in *. rewrite forallb_app in Hok.
    apply andb_true_iff in Hok as [Hok1 Hok2].
    apply NoDup_app in Hnd as (Hnd1 & Hdisj & Hnd2).
    apply Forall_app in Hnew as [Hnew1 Hnew2].
    assert (takes true rows (clean_record <$> batch) = true) as ->.
    { unfold takes. rewrite Hok1. simpl. by apply bool_decide_eq_true. }
    destruct (IH (rows ++ (clean_record <$> batch))) as [-> ->]; [done| |].
    + split; [done|]. apply Forall_forall. intros r Hr. rewrite fmap_app.
      intros [Hin|Hin]%elem_of_app.
      * by apply (proj1 (Forall_forall _ _) Hnew2 r Hr).
      * apply (Hdisj (natural_key r)); [done|].
        by apply list_elem_of_fmap_2.
    + by rewrite <- app_assoc, length_app, length_fmap.
Qed.

(** The script when it goes past the confirmation: a dry run, or a real
    run whose prompt is answered with "y". *)
Lemma main_past_confirmation (dry_run : bool) (answer : string) (d : db) :
  dry_run = true ∨ lower answer = "y" →
  let todo := batches batch_size (staging d) in
  let checked :=
    available d && (length (production d) <=? length (staging d)) in
  ∃ log,
    MigrationScript.main dry_run answer d
    = (inr (if checked && dry_run then 0 else 1),
       {| species := species d; staging := staging d;
          production := if checked && negb dry_run
                        then merged true (production d) todo
                        else production d;
          available := available d;
          calls := calls d ++ log |})
    ∧ (dry_run = true → Forall (λ c, mutating c = false) log).
Proof.
  intros Hpast. cbv zeta. unfold MigrationScript.main.
  unfold mbind at 1. unfold M_bind, bind.
  rewrite pre_migration_checks_run. cbv zeta.
  destruct (available d) eqn:Ha.
  - destruct (Z.ltb_spec (Z.of_nat (length (staging d))
                          - Z.of_nat (length (production d))) 0) as [Hlt|Hge].
    + rewrite (proj2 (Nat.leb_gt _ _)) by lia. simpl.
      unfold mret, M_ret, ret, logged. simpl.
      eexists. rewrite Ha, <- app_assoc. split; [reflexivity|].
      intros _. by repeat constructor.
    + rewrite (proj2 (Nat.leb_le _ _)) by lia.
      cbn [fst snd negb andb].
      assert (negb dry_run && negb (bool_decide (lower answer = "y")) = false)
        as ->.
      { destruct Hpast as [->| ->]; [done|].
        rewrite bool_decide_eq_true_2 by done. by destruct dry_run. }
      destruct dry_run.
      * unfold execute_migration, MigrationScript.generate_migration_report.
        unfold mbind, M_bind, bind, mret, M_ret, ret, logged. simpl.
        eexists. rewrite Ha, <- !app_assoc. split; [reflexivity|].
        intros _. by repeat constructor.
      * unfold mbind at 1. unfold M_bind, bind.
        match goal with
        | |- context [execute_migration false ?s ?d0] =>
            destruct (execute_migration_result s d0) as (log & ->)
        end.
        cbn [available logged staging production species calls].
        rewrite Ha. cbn [fst snd negb].
        unfold mbind at 1. unfold M_bind, bind.
        rewrite post_migration_validation_run. cbv zeta.
        cbn [available production initial_production_count].
        unfold mret, M_ret, ret, logged.
        cbn [available logged staging production species calls fst snd].
        eexists. split; [|intros [=]].
        rewrite ?Ha, <- !app_assoc.
        by destruct (bool_decide _).
  - simpl. unfold mret, M_ret, ret, logged. simpl. eexists.
    rewrite Ha. split; [reflexivity|]. intros _. by repeat constructor.
Qed.
End merge.

(** X9.  The paged scan of the staging table, which asks for pages of
    10,000 rows until an empty page comes back, returns every row of the
    table once, in table order, whatever the number of rows; it fails
    only when the store does not answer, and it only reads. *)
Theorem staging_scan_returns_every_row (d : db) :
  ∃ d',
    fetch_staging_records d
    = (if available d then inr (staging d) else inl Unavailable, d')
    ∧ only_reads d d'.
Proof.
  destruct (available d) eqn:Ha.
  - destruct (fetch_staging_records_run d Ha) as [n ->].
    eexists. split; [reflexivity|].
    apply only_reads_calls. by apply Forall_replicate.
  - rewrite fetch_staging_records_unavailable by done.
    eexists. split; [reflexivity|]. by apply DryRun.only_reads_logged.
Qed.


(** X11.  When the store answers, accepts every cleaned staging row, and
    no cleaned staging row repeats the natural key of a production row or
    of another staging row, the merge inserts every staging row: the
    production table afterwards is the table before followed by all
    cleaned staging rows, in order, and [records_migrated] is the number
    of staging rows. *)
Theorem clean_migration_inserts_every_row `{Schema} (stats : MigrationStats)
    (d : db) :
  available d = true →
  forallb production_row_ok (clean_record <$> staging d) = true →
  no_duplicate_key (production d) (clean_record <$> staging d) →
  ∃ stats' d',
    execute_migration false stats d = (inr (true, stats'), d')
    ∧ production d' = production d ++ (clean_record <$> staging d)
    ∧ records_migrated stats' = length (staging d)
    ∧ staging d' = staging d.
Proof.
  intros Ha Hok Hnew.
  destruct (execute_migration_result stats d) as (log & ->).
  rewrite Ha.
  destruct (merged_clean (production d) (batches batch_size (staging d)))
    as [-> ->];
    rewrite ?concat_batches by apply batch_size_pos; try done.
  by eexists _, _.
Qed.

Lemma clean_migration_inserts_every_row_witness :
  ∃ stats' d',
    @execute_migration sql_schema false initial_stats empty_production_store
    = (inr (true, stats'), d')
    ∧ production d'
      = [clean_record walrus_tusks_from_greenland;
         clean_record walrus_tusks_from_canada]
    ∧ records_migrated stats' = 2
    ∧ staging d' = [walrus_tusks_from_greenland; walrus_tusks_from_canada].
Proof.
  apply (@clean_migration_inserts_every_row sql_schema initial_stats
           empty_production_store).
  - reflexivity.
  - reflexivity.
  - apply (bool_decide_unpack _). vm_compute. exact I.
Defined.

(** X12.  [pre_migration_checks] lets the migration go on exactly when
    the store answers and the staging table has at least as many rows as
    the production table.  It only reads; when the store answers it
    records both counts, otherwise it records the error. *)
Theorem pre_migration_checks_verdict (stats : MigrationStats) (d : db) :
  ∃ ok stats' d',
    pre_migration_checks stats d = (inr (ok, stats'), d')
    ∧ (ok = true
       ↔ available d = true ∧ length (production d) ≤ length (staging d))
    ∧ only_reads d d'
    ∧ (if available d
       then initial_staging_count stats' = Z.of_nat (length (staging d))
            ∧ initial_production_count stats'
              = Z.of_nat (length (production d))
            ∧ errors stats' = errors stats
       else stats' = add_error Unavailable stats).
Proof.
  rewrite pre_migration_checks_run. cbv zeta.
  pose proof (only_reads_calls d) as Hreads.
  destruct (available d) eqn:Ha.
  - destruct (Z.ltb_spec (Z.of_nat (length (staging d))
                          - Z.of_nat (length (production d))) 0) as [Hlt|Hge].
    + eexists _, _, _. split; [reflexivity|]. split; [|split; [|done]].
      * split; [done|]. lia.
      * unfold logged. simpl. rewrite <- app_assoc.
        rewrite Ha. apply Hreads. by repeat constructor.
    + eexists _, _, _. split; [reflexivity|]. split; [|split; [|done]].
      * split; [|done]. split; [done|lia].
      * unfold logged. simpl. rewrite <- !app_assoc.
        rewrite Ha. apply Hreads. by repeat constructor.
  - eexists _, _, _. split; [reflexivity|]. split; [|split; [|done]].
    + split; [done|]. by intros [? _].
    + by apply DryRun.only_reads_logged.
Qed.

(** The script in a dry run. *)
Lemma migration_dry_run `{Schema} (answer : string) (d : db) :
  ∃ ok stats' status d',
    (pre_migration_checks initial_stats d).1 = inr (ok, stats')
    ∧ MigrationScript.main true answer d = (inr status, d')
    ∧ status = (if ok then 0 else 1)
    ∧ only_reads d d'.
Proof.
  destruct (main_past_confirmation true answer d) as (log & -> & Hlog);
    [by left|].
  rewrite pre_migration_checks_run. cbv zeta.
  pose proof (only_reads_calls d log (Hlog eq_refl)) as Hreads.
  destruct (available d) eqn:Ha; cbn [andb negb].
  - destruct (Z.ltb_spec (Z.of_nat (length (staging d))
                          - Z.of_nat (length (production d))) 0) as [Hlt|Hge].
    + rewrite (proj2 (Nat.leb_gt _ _)) by lia.
      eexists _, _, _, _. by do 3 (split; [reflexivity|]).
    + rewrite (proj2 (Nat.leb_le _ _)) by lia.
      eexists _, _, _, _. do 3 (split; [reflexivity|]).
      by rewrite andb_false_r.
  - eexists _, _, _, _. by do 3 (split; [reflexivity|]).
Qed.

(** X13.  The migration script writes nothing in a dry run and in a
    real run whose confirmation prompt is answered with anything but "y"
    or "Y": the store receives reads only, and the exit status is 0 when
    the pre-migration checks passed and 1 when they failed. *)
Theorem migration_without_confirmation_writes_nothing `{Schema}
    (dry_run : bool) (answer : string) (d : db) :
  dry_run = true ∨ lower answer ≠ "y" →
  ∃ ok stats' status d',
    (pre_migration_checks initial_stats d).1 = inr (ok, stats')
    ∧ MigrationScript.main dry_run answer d = (inr status, d')
    ∧ status = (if ok then 0 else 1)
    ∧ only_reads d d'.
Proof.
  intros Hpast. destruct dry_run; [apply migration_dry_run|].
  destruct Hpast as [[=]|Hanswer].
  unfold MigrationScript.main. unfold mbind at 1. unfold M_bind, bind.
  rewrite pre_migration_checks_run. cbv zeta.
  pose proof (only_reads_calls d) as Hreads.
  destruct (available d) eqn:Ha.
  - destruct (Z.ltb _ 0); cbn [fst snd negb andb];
      rewrite ?bool_decide_eq_false_2 by done; cbn [negb];
      eexists _, _, _, _; do 3 (split; [reflexivity|]);
      unfold logged; simpl; rewrite <- ?app_assoc, Ha;
      apply Hreads; by repeat constructor.
  - eexists _, _, _, _. do 3 (split; [reflexivity|]).
    by apply DryRun.only_reads_logged.
Qed.

Lemma migration_without_confirmation_writes_nothing_witness :
  ∃ ok stats' status d',
    (pre_migration_checks initial_stats overlapping_store).1 = inr (ok, stats')
    ∧ @MigrationScript.main sql_schema false "no" overlapping_store
      = (inr status, d')
    ∧ status = (if ok then 0 else 1)
    ∧ only_reads overlapping_store d'.
Proof.
  apply (@migration_without_confirmation_writes_nothing sql_schema false "no"
           overlapping_store).
  right. vm_compute. discriminate.
Defined.

(** X14.  A real run of the migration script that the operator confirmed
    always ends with exit status 1, also when it migrated rows and the
    post-migration validation passed: writing the report then raises,
    because the statistics hold the [datetime] objects of the run.  The
    rows are migrated all the same: when the store answers and the staging
    table has at least as many rows as the production table, the
    production table is left with the batches that the merge inserted. *)
Theorem confirmed_migration_exits_with_1 `{Schema} (answer : string) (d : db) :
  lower answer = "y" →
  ∃ d',
    MigrationScript.main false answer d = (inr 1, d')
    ∧ staging d' = staging d
    ∧ production d'
      = if available d && (length (production d) <=? length (staging d))
        then merged true (production d) (batches batch_size (staging d))
        else production d.
Proof.
  intros Hanswer.
  destruct (main_past_confirmation false answer d) as (log & -> & _);
    [by right|].
  cbv zeta. rewrite !andb_false_r, andb_true_r. by eexists.
Qed.

Lemma confirmed_migration_exits_with_1_witness :
  ∃ d',
    @MigrationScript.main sql_schema false "y" empty_production_store
    = (inr 1, d')
    ∧ production d'
      = [clean_record walrus_tusks_from_greenland;
         clean_record walrus_tusks_from_canada].
Proof.
  destruct (@confirmed_migration_exits_with_1 sql_schema "y"
              empty_production_store) as (d' & Hrun & _ & Hproduction).
  - reflexivity.
  - exists d'. split; [exact Hrun|]. rewrite Hproduction. reflexivity.
Defined.

End MigrationRun.

(** ** The streaming extraction beyond the per-species counters *)

Module ExtractionRun.
Import Py PyFacts Store StageLoader Extractor ExtractorFacts Scan.
Import Examples Scenarios.

Lemma chunk_size_pos : 0 < chunk_size.
Proof. unfold chunk_size. lia. Qed.

#[local] Opaque chunk_size.

Section file.
Variable arctic_species : gset string.

Local Abbreviation matching := (matching arctic_species).
Local Abbreviation after_reading := (after_reading arctic_species).

Lemma scan_chunk_run (chunk kept : list Row) (stats : FileStats) :
  scan_chunk arctic_species chunk kept stats
  = (kept ++ matching chunk, after_reading stats chunk).
Proof.
  unfold scan_chunk, after_reading, Scan.matching.
  case_decide as Hlen; [done|].
  assert (filter (λ row, cTaxon row ∈ arctic_species) chunk = []) as ->
    by (apply nil_length_inv; lia).
  simpl. by rewrite app_nil_r, Nat.add_0_r, (right_id_L ∅ (∪)).
Qed.

Lemma matching_app (rows1 rows2 : list Row) :
  matching (rows1 ++ rows2) = matching rows1 ++ matching rows2.
Proof. apply filter_app. Qed.

Lemma after_reading_app (stats : FileStats) (rows1 rows2 : list Row) :
  after_reading (after_reading stats rows1) rows2
  = after_reading stats (rows1 ++ rows2).
Proof.
  unfold after_reading.
  cbn [file records_scanned arctic_records species_found error].
  rewrite matching_app, fmap_app, list_to_set_app_L, !length_app.
  f_equal; [lia|lia|]. by rewrite (assoc_L (∪)).
Qed.

Lemma after_reading_nil (stats : FileStats) : after_reading stats [] = stats.
Proof.
  destruct stats. unfold after_reading. simpl. rewrite !Nat.add_0_r. f_equal.
  apply (right_id_L ∅ (∪)).
Qed.

(** The chunk loop when no chunk raises. *)
Lemma scan_chunks_run (chunks : list (list Row)) (chunk_num : nat)
    (kept : list Row) (stats : FileStats) :
  scan_chunks arctic_species None chunk_num chunks kept stats
  = (kept ++ matching (concat chunks), after_reading stats (concat chunks)).
Proof.
  revert chunk_num kept stats.
  induction chunks as [|chunk chunks IH]; intros chunk_num kept stats.
  - cbn [scan_chunks concat]. rewrite decide_False by done.
    by rewrite app_nil_r, after_reading_nil.
  - cbn [scan_chunks concat]. rewrite decide_False by done.
    rewrite scan_chunk_run, IH, after_reading_app, matching_app.
    by rewrite <- app_assoc.
Qed.

(** The chunk loop when reading chunk [chunk_num + j] raises. *)
Lemma scan_chunks_error (chunks : list (list Row)) (chunk_num j : nat)
    (kept : list Row) (stats : FileStats) :
  j ≤ length chunks →
  let read := concat (take j chunks) in
  scan_chunks arctic_species (Some (chunk_num + j)) chunk_num chunks kept stats
  = (kept ++ matching read, marked (after_reading stats read)).
Proof.
  revert chunks chunk_num kept stats.
  induction j as [|j IH]; intros chunks chunk_num kept stats Hj.
  - rewrite Nat.add_0_r, take_0. cbv zeta. cbn [concat].
    rewrite after_reading_nil, app_nil_r.
    destruct chunks; cbn [scan_chunks]; by rewrite decide_True by done.
  - destruct chunks as [|chunk chunks]; [simpl in Hj; lia|].
    cbn [scan_chunks]. rewrite decide_False by (intros [=]; lia).
    rewrite scan_chunk_run.
    replace (chunk_num + S j) with (S chunk_num + j) by lia.
    rewrite IH by (simpl in Hj; lia). cbv zeta.
    cbn [take concat].
    by rewrite after_reading_app, matching_app, <- app_assoc.
Qed.
End file.

(** The first [j] chunks hold the first [j * size] rows. *)
Lemma concat_take_batches {A} (size j : nat) (l : list A) :
  concat (take j (batches size l)) = take (j * size) l.
Proof.
  unfold batches. rewrite <- fmap_take, take_seq.
  assert (∀ k, concat ((λ k, take size (drop (k * size) l)) <$> seq 0 k)
               = take (k * size) l) as ->.
  { intros k. induction k as [|k IH]; [done|].
    rewrite seq_S, fmap_app, concat_app, IH. simpl.
    rewrite app_nil_r, take_take_drop. f_equal. lia. }
  destruct (decide (size = 0)) as [->|Hsize]; [by rewrite !Nat.mul_0_r|].
  destruct (Nat.min_spec j ((length l + size - 1) `div` size))
    as [[_ ->]|[Hle ->]]; [done|].
  pose proof (Nat.div_mod (length l + size - 1) size ltac:(lia)) as Hdiv.
  pose proof (Nat.mod_upper_bound (length l + size - 1) size ltac:(lia)).
  unfold Nat.div in *. rewrite !take_ge; [done|nia|nia].
Qed.

(** X15.  The chunked scan of a source file that reads without error is
    a plain filter: whatever the number of rows and chunks, the rows
    saved for the file are exactly the rows whose [Taxon] is on the
    species list, in file order, [records_scanned] is the number of rows
    of the file, [arctic_records] the number of rows saved, and
    [species_found] the set of their taxa.  No output is written for a
    file without a matching row. *)
Theorem chunked_extraction_is_a_filter (arctic_species : gset string)
    (source : SourceFile) :
  error_at source = None →
  let kept := matching arctic_species (file_rows source) in
  process_single_file arctic_species source
  = ({| file := file_name source;
        records_scanned := length (file_rows source);
        arctic_records := length kept;
        species_found := list_to_set (cTaxon <$> kept);
        error := false |},
     match kept with [] => None | _ :: _ => Some kept end).
Proof.
  intros Herr kept. unfold process_single_file.
  rewrite Herr, scan_chunks_run, concat_batches by apply chunk_size_pos.
  unfold after_reading. cbn [file records_scanned arctic_records species_found error].
  rewrite (left_id_L ∅ (∪)). reflexivity.
Qed.

Lemma chunked_extraction_is_a_filter_witness :
  process_single_file arctic_species_list one_source_file
  = ({| file := "trade_db_1.csv";
        records_scanned := 3;
        arctic_records := 2;
        species_found :=
          list_to_set ["Odobenus rosmarus"; "Ursus maritimus"];
        error := false |},
     Some [walrus_row; polar_bear_row]).
Proof.
  apply (chunked_extraction_is_a_filter arctic_species_list one_source_file).
  reflexivity.
Defined.

(** X16.  When reading a source file raises at chunk [k], the counters of
    the file keep what the chunks before it gave (the first
    [k * 50000] rows), the file is marked with the error, and no output
    is written for it: the rows counted in [arctic_records] are not
    saved. *)
Theorem read_error_keeps_the_counts_and_drops_the_rows
    (arctic_species : gset string) (source : SourceFile) (k : nat) :
  error_at source = Some k →
  k ≤ length (batches chunk_size (file_rows source)) →
  let read := take (k * chunk_size) (file_rows source) in
  process_single_file arctic_species source
  = (marked (after_reading arctic_species (fresh_stats source) read), None).
Proof.
  intros Herr Hk read. unfold process_single_file. rewrite Herr.
  pose proof (scan_chunks_error arctic_species
                (batches chunk_size (file_rows source)) 0 k []
                (fresh_stats source) Hk) as Hscan.
  cbv zeta in Hscan. rewrite concat_take_batches in Hscan.
  unfold fresh_stats in Hscan at 1. cbn [Nat.add] in Hscan.
  by rewrite Hscan.
Qed.

Lemma read_error_keeps_the_counts_and_drops_the_rows_witness :
  let result := process_single_file arctic_species_list failing_source_file in
  result.2 = None
  ∧ records_scanned result.1 = 3
  ∧ arctic_records result.1 = 2
  ∧ error result.1 = true.
Proof.
  pose proof (read_error_keeps_the_counts_and_drops_the_rows
                arctic_species_list failing_source_file 1 eq_refl) as Hrun.
  cbv zeta. rewrite Hrun; [|vm_compute; lia].
  split_and!; reflexivity.
Defined.

Section totals.
Variable arctic_species : gset string.

Local Abbreviation matching := (matching arctic_species).
Local Abbreviation result_of :=
  (λ source : SourceFile, (process_single_file arctic_species source).1).

Lemma file_stats_without_error (source : SourceFile) :
  error_at source = None →
  (process_single_file arctic_species source).1
  = after_reading arctic_species (fresh_stats source) (file_rows source).
Proof.
  intros Herr. unfold process_single_file.
  by rewrite Herr, scan_chunks_run, concat_batches by apply chunk_size_pos.
Qed.

(** The aggregation loop over files that read without error. *)
Lemma aggregate_without_error (files : list SourceFile)
    (acc : ExtractionStats * gset string) :
  Forall (λ source, error_at source = None) files →
  let rows := files ≫= file_rows in
  let total := foldl aggregate acc (result_of <$> files) in
  files_processed total.1 = files_processed acc.1 + length files
  ∧ total_records_scanned total.1
    = total_records_scanned acc.1 + length rows
  ∧ arctic_records_found total.1
    = arctic_records_found acc.1 + length (matching rows)
  ∧ total.2 = acc.2 ∪ list_to_set (cTaxon <$> matching rows).
Proof.
  intros Hfiles. revert acc.
  induction Hfiles as [|source files Herr _ IH]; intros [stats seen].
  - cbn. rewrite !Nat.add_0_r. by rewrite (right_id_L ∅ (∪)).
  - cbv zeta in *. rewrite fmap_cons. cbn [foldl].
    destruct (IH (aggregate (stats, seen)
                    (process_single_file arctic_species source).1))
      as (-> & -> & -> & ->).
    rewrite file_stats_without_error by done.
    unfold aggregate, after_reading, fresh_stats.
    cbn [fst snd files_processed total_records_scanned arctic_records_found
         records_scanned arctic_records species_found length].
    rewrite bind_cons, matching_app, fmap_app, list_to_set_app_L, !length_app.
    rewrite (left_id_L ∅ (∪)), (assoc_L (∪)).
    split_and!; [lia|lia|lia|done].
Qed.

(** What a species is credited with by a file that read without error. *)
Lemma credited_cons (result : FileStats) (results : list FileStats)
    (s : string) :
  credited (result :: results) s
  = (if decide (s ∈ species_found result) then arctic_records result else 0)
    + credited results s.
Proof.
  unfold credited. rewrite filter_cons. by case_decide.
Qed.

Lemma matched_rows_cons (source : SourceFile) (files : list SourceFile)
    (s : string) :
  matched_rows arctic_species s (source :: files)
  = length (filter (λ row, cTaxon row = s) (matching (file_rows source)))
    + matched_rows arctic_species s files.
Proof.
  unfold matched_rows, Scan.matching.
  rewrite bind_cons, filter_app, length_app. f_equal.
  induction (file_rows source) as [|row rows IH]; [done|].
  rewrite !filter_cons.
  destruct (decide (cTaxon row ∈ arctic_species)) as [Hin|Hnin].
  - rewrite filter_cons.
    destruct (decide (cTaxon row = s)) as [Hs|Hs].
    + rewrite decide_True by done. simpl. by rewrite IH.
    + rewrite decide_False by tauto. done.
  - rewrite decide_False by tauto. done.
Qed.

(** What one file that read without error credits to a species. *)
Lemma credit_of_file (source : SourceFile) (s : string) :
  error_at source = None →
  let result := (process_single_file arctic_species source).1 in
  let credit :=
    if decide (s ∈ species_found result) then arctic_records result else 0 in
  let of_taxon :=
    length (filter (λ row, cTaxon row = s) (matching (file_rows source))) in
  of_taxon ≤ credit
  ∧ ((∀ row1 row2,
        row1 ∈ matching (file_rows source) →
        row2 ∈ matching (file_rows source) →
        cTaxon row1 = cTaxon row2) →
     credit = of_taxon).
Proof.
  intros Herr. cbv zeta. rewrite file_stats_without_error by done.
  unfold after_reading, fresh_stats.
  cbn [species_found arctic_records Nat.add].
  set (kept := matching (file_rows source)).
  pose proof (length_filter (λ row, cTaxon row = s) kept) as Hfilter.
  destruct (decide (s ∈ ∅ ∪ list_to_set (cTaxon <$> kept))) as [Hin|Hnin].
  - split; [lia|]. intros Hone. f_equal.
    rewrite filter_all; [done|]. intros row Hrow.
    apply elem_of_union in Hin as [Hin|Hin]; [by apply elem_of_empty in Hin|].
    apply elem_of_list_to_set, list_elem_of_fmap in Hin as (row' & -> & Hrow').
    by apply Hone.
  - assert (filter (λ row, cTaxon row = s) kept = []) as ->; [|by split].
    destruct (filter (λ row, cTaxon row = s) kept) as [|row rest] eqn:Hf;
      [done|].
    assert (row ∈ filter (λ row, cTaxon row = s) kept) as Hrow
      by (rewrite Hf; left).
    apply list_elem_of_filter in Hrow as [Hs Hrow]. destruct Hnin.
    apply elem_of_union. right.
    apply elem_of_list_to_set, list_elem_of_fmap. by exists row.
Qed.
End totals.

(** X17.  The totals of an extraction in which every source file reads
    without error: [files_processed] is the number of files,
    [total_records_scanned] the number of rows of all files,
    [arctic_records_found] the number of rows whose [Taxon] is on the
    species list, and [unique_species_found] the number of distinct taxa
    among those rows. *)
Theorem extraction_totals (arctic_species : gset string)
    (files : list SourceFile) :
  Forall (λ source, error_at source = None) files →
  let rows := files ≫= file_rows in
  let stats := extract_all_arctic_data arctic_species files in
  files_processed stats = length files
  ∧ total_records_scanned stats = length rows
  ∧ arctic_records_found stats = length (matching arctic_species rows)
  ∧ unique_species_found stats
    = size (list_to_set (C := gset string)
              (cTaxon <$> matching arctic_species rows)).
Proof.
  intros Hfiles rows stats. subst stats. unfold extract_all_arctic_data.
  pose proof (aggregate_without_error arctic_species files
                ({| files_processed := 0; total_records_scanned := 0;
                    arctic_records_found := 0; species_match_counts := ∅;
                    unique_species_found := 0 |}, ∅) Hfiles) as Htotal.
  cbv zeta in Htotal.
  destruct (foldl aggregate _ _) as [stats seen].
  cbn [fst snd files_processed total_records_scanned arctic_records_found
       unique_species_found] in *.
  destruct Htotal as (-> & -> & -> & ->).
  by rewrite (left_id_L ∅ (∪)).
Qed.

Lemma extraction_totals_witness :
  let stats := extract_all_arctic_data arctic_species_list [one_source_file] in
  files_processed stats = 1
  ∧ total_records_scanned stats = 3
  ∧ arctic_records_found stats = 2
  ∧ unique_species_found stats
    = size (list_to_set (C := gset string)
              ["Odobenus rosmarus"; "Ursus maritimus"]).
Proof.
  apply (extraction_totals arctic_species_list [one_source_file]).
  repeat constructor.
Defined.

(** X18.  The per-species counters never undercount when every source
    file reads without error: [species_match_counts[s]] is at least the
    number of matched rows whose [Taxon] is [s].  It is that number
    exactly when no file holds matched rows of two different taxa. *)
Theorem species_match_counts_never_undercount (arctic_species : gset string)
    (files : list SourceFile) (s : string) :
  Forall (λ source, error_at source = None) files →
  let counts :=
    species_match_counts (extract_all_arctic_data arctic_species files) in
  matched_rows arctic_species s files ≤ count_of counts s
  ∧ (Forall (λ source,
               ∀ row1 row2,
                 row1 ∈ matching arctic_species (file_rows source) →
                 row2 ∈ matching arctic_species (file_rows source) →
                 cTaxon row1 = cTaxon row2) files →
     count_of counts s = matched_rows arctic_species s files).
Proof.
  intros Hfiles counts. subst counts.
  rewrite extract_all_arctic_data_counts.
  induction Hfiles as [|source files Herr _ [IHle IHeq]].
  - split; [done|]. intros _. done.
  - rewrite fmap_cons, credited_cons, matched_rows_cons.
    destruct (credit_of_file arctic_species source s Herr) as [Hle Heq].
    cbv zeta in Hle, Heq. split; [lia|].
    intros [Hone Hrest]%Forall_cons.
    by rewrite (Heq Hone), (IHeq Hrest).
Qed.

Lemma species_match_counts_never_undercount_witness :
  let counts :=
    species_match_counts
      (extract_all_arctic_data arctic_species_list [one_source_file]) in
  matched_rows arctic_species_list "Ursus maritimus" [one_source_file]
  ≤ count_of counts "Ursus maritimus".
Proof.
  apply (species_match_counts_never_undercount arctic_species_list
           [one_source_file] "Ursus maritimus").
  repeat constructor.
Defined.

End ExtractionRun.

(** ** The loader script and the backup script to their end *)

Module ScriptRuns.
Import Py PyFacts Store StoreFacts StageLoader StageLoaderFacts LoaderRun.
Import LoaderMain Backup BackupFacts Report Examples Scenarios.

Section loader.
Context `{Schema}.
Variable float_of_string : string → option pyfloat.
Variable staging_summary : list StagingRecord → list SummaryView.Summary.

Lemma validate_staging_load_run (stats : LoadStats) (d : db) :
  ∃ valid,
    LoaderScript.validate_staging_load staging_summary stats d
    = (inr valid, logged (Select StagingSummary) d).
Proof.
  unfold LoaderScript.validate_staging_load. unfold_store.
  destruct (available d); [|eexists; reflexivity]. cbn.
  destruct (staging_summary (staging d)) as [|summary rest];
    [eexists; reflexivity|].
  destruct (SummaryView.total_records summary),
    (SummaryView.appendix_i_count summary),
    (SummaryView.appendix_ii_count summary),
    (SummaryView.appendix_iii_count summary); try (eexists; reflexivity).
  destruct (negb _); [eexists; reflexivity|].
  destruct (SummaryView.latest_year summary); eexists; reflexivity.
Qed.

(** The loader in a dry run, up to the load. *)
Lemma loader_dry_run_result (batch_size : Z) (df : list Row) (d : db) :
  ∃ stats e,
    StageLoader.main float_of_string true batch_size df d
    = (if available d
       then if bool_decide (df ≠ [])
            then if bool_decide
                      (Forall has_year
                         (filter (mapped (mapping_of (species d))) df))
                 then inr stats else inl e
            else inl ZeroDivisionError
       else inl Unavailable,
       logged (Select Species) d).
Proof.
  unfold StageLoader.main. unfold mbind at 1. unfold M_bind, bind.
  rewrite load_species_mapping_run.
  destruct (available d); [|by exists initial_stats, ValueError].
  destruct (decide (df = [])) as [->|Hne].
  - rewrite map_species_ids_empty. by exists initial_stats, ValueError.
  - rewrite map_species_ids_nonempty by done.
    rewrite bool_decide_eq_true_2 by done.
    fold (prepared float_of_string df d).
    destruct (prepared float_of_string df d) as [e|records] eqn:Hrecords.
    + apply prepared_raises in Hrecords as [-> Hyears].
      rewrite bool_decide_eq_false_2 by done.
      by exists initial_stats, ValueError.
    + apply prepared_years in Hrecords.
      rewrite bool_decide_eq_true_2 by done.
      unfold clear_staging_table, load_to_staging, mbind, M_bind, bind, mret,
        M_ret, ret. eexists _, ValueError. reflexivity.
Qed.
End loader.

(** X19.  The exit status of the staging loader script.  A real run
    always ends with exit status 1, whatever it loaded and whatever the
    validation of the load said: when all went well, writing the report
    raises, because the statistics hold the [datetime] objects of the
    run; the tables stay as the load left them.  A dry run ends with exit
    status 0 exactly when the species table could be read, the extracted
    frame is not empty and every row of it whose taxon is mapped has a
    year, and it only reads. *)
Theorem loader_script_exit_status `{Schema}
    (float_of_string : string → option pyfloat)
    (staging_summary : list StagingRecord → list SummaryView.Summary)
    (batch_size : Z) (df : list Row) (d : db) :
  (∃ d',
     LoaderScript.main float_of_string staging_summary false batch_size df d
     = (inr 1, d')
     ∧ tables d'
       = tables (StageLoader.main float_of_string false batch_size df d).2)
  ∧ (∃ d',
       LoaderScript.main float_of_string staging_summary true batch_size df d
       = (inr (if available d && bool_decide (df ≠ [])
                  && bool_decide
                       (Forall has_year
                          (filter (mapped (mapping_of (species d))) df))
               then 0 else 1), d')
       ∧ only_reads d d').
Proof.
  split.
  - unfold LoaderScript.main, try_except. unfold mbind at 1.
    unfold M_bind, bind.
    destruct (StageLoader.main float_of_string false batch_size df d)
      as [[e|stats] d1]; [by eexists|].
    unfold mbind, M_bind, bind. cbn [snd].
    destruct (validate_staging_load_run staging_summary stats d1)
      as [valid ->].
    destruct valid; by eexists.
  - unfold LoaderScript.main, try_except. unfold mbind at 1.
    unfold M_bind, bind.
    destruct (loader_dry_run_result float_of_string batch_size df d)
      as (stats & e & ->).
    destruct (available d), (bool_decide (df ≠ [])),
      (bool_decide (Forall has_year _)); cbn [andb];
      (eexists; split; [reflexivity|]);
      by apply DryRun.only_reads_logged.
Qed.

Section backup.
Variable production_columns : list string.
Variable inverted_range : exn + list StagingRecord.

Local Abbreviation fetch_batches :=
  (BackupScript.fetch_batches inverted_range).
Local Abbreviation backup_cites_data :=
  (BackupScript.backup_cites_data production_columns inverted_range).

(** The fetch loop of the backup on a store that answers, for a positive
    batch size. *)
Lemma fetch_batches_run (fuel : nat) (batch_size : Z) (offset : nat)
    (acc : list StagingRecord) (d : db) :
  available d = true → (0 < batch_size)%Z →
  length (production d) - offset ≤ fuel →
  ∃ n,
    fetch_batches fuel batch_size (Z.of_nat (length (production d)))
      (Z.of_nat offset) acc d
    = (inr (acc ++ drop offset (production d)),
       {| species := species d; staging := staging d;
          production := production d; available := available d;
          calls := calls d ++ replicate n (Select Production) |}).
Proof.
  intros Ha Hsize. revert offset acc d Ha.
  induction fuel as [|fuel IH]; intros offset acc d Ha Hfuel.
  - cbn [BackupScript.fetch_batches].
    rewrite (proj2 (Z.ltb_ge _ _)) by lia.
    exists 0. unfold mret, M_ret, ret. rewrite drop_ge by lia.
    rewrite !app_nil_r. by destruct d.
  - cbn [BackupScript.fetch_batches].
    destruct (Z.ltb_spec (Z.of_nat offset) (Z.of_nat (length (production d))))
      as [Hlt|Hge].
    + rewrite decide_False by lia. unfold mbind, M_bind, bind.
      unfold BackupScript.select_batch.
      rewrite (proj2 (Z.ltb_lt _ _)) by done.
      rewrite MigratorFacts.select_range_run, Ha, Nat2Z.id. cbn [rows_of].
      destruct (take (Z.to_nat batch_size) (drop offset (production d)))
        as [|r batch] eqn:Hbatch.
      { apply (f_equal length) in Hbatch.
        rewrite length_take, length_drop in Hbatch. simpl in Hbatch. lia. }
      destruct (IH (offset + Z.to_nat batch_size) (acc ++ r :: batch)
                  (logged (Select Production) d)) as [n Hn];
        [done|simpl; lia|].
      exists (S n). cbn [production logged] in Hn.
      replace (Z.of_nat offset + batch_size)%Z
        with (Z.of_nat (offset + Z.to_nat batch_size)) by lia.
      rewrite Hn. simpl. rewrite Ha. f_equal.
      * f_equal. rewrite <- Hbatch, <- app_assoc. f_equal.
        rewrite <- drop_drop. apply take_drop.
      * by rewrite <- app_assoc.
    + exists 0. unfold mret, M_ret, ret. rewrite drop_ge by lia.
      rewrite !app_nil_r. by destruct d.
Qed.

(** [backup_cites_data] with a batch size that is not negative: its
    result and the requests it sends. *)
Lemma backup_cites_data_run (batch_size : Z) (d : db) :
  (0 ≤ batch_size)%Z →
  ∃ n,
    backup_cites_data batch_size d
    = (inr (if available d && bool_decide (production d ≠ [])
               && bool_decide (batch_size ≠ 0%Z)
            then (bool_decide ("species_id" ∈ production_columns),
                  Some (production d))
            else (false, None)),
       {| species := species d; staging := staging d;
          production := production d; available := available d;
          calls := calls d ++ [SelectCount Production]
                   ++ replicate n (Select Production) |}).
Proof.
  intros Hsize0.
  unfold BackupScript.backup_cites_data, try_except.
  unfold mbind at 1. unfold M_bind, bind.
  rewrite get_current_record_count_run.
  destruct (available d) eqn:Ha; cbn [andb].
  - destruct (decide (production d = [])) as [Hnil|Hrows].
    + rewrite Hnil, bool_decide_eq_false_2 by (by intros []).
      exists 0. simpl. unfold logged. by rewrite Ha, Hnil.
    + rewrite bool_decide_eq_true_2 by done. cbn [andb].
      assert (0 < length (production d)) as Hlen
        by (destruct (production d); [done|simpl; lia]).
      rewrite (proj2 (Z.eqb_neq _ _)) by lia.
      destruct (decide (batch_size = 0%Z)) as [->|Hsize].
      * rewrite Nat2Z.id.
        destruct (length (production d)) as [|fuel] eqn:Hfuel; [lia|].
        cbn [BackupScript.fetch_batches].
        rewrite (proj2 (Z.ltb_lt _ _)) by lia.
        exists 0. simpl. unfold logged. by rewrite Ha.
      * rewrite bool_decide_eq_true_2 by done.
        unfold mbind, M_bind, bind.
        destruct (fetch_batches_run (Z.to_nat (Z.of_nat (length (production d))))
                    batch_size 0 [] (logged (SelectCount Production) d))
          as [n Hn]; [done|lia|simpl; lia|].
        cbn [production logged] in Hn. rewrite drop_0, app_nil_l in Hn.
        change (Z.of_nat 0) with 0%Z in Hn.
        rewrite Hn. unfold BackupScript.frame_of. cbn [columns].
        assert (match production d with
                | [] => []
                | _ :: _ => production_columns
                end = production_columns) as ->
          by (by destruct (production d)).
        unfold mret, M_ret, ret, logged. cbn [species staging available calls].
        rewrite <- app_assoc. exists n.
        destruct (decide ("species_id" ∈ production_columns)) as [Hin|Hnin].
        -- by rewrite Ha, bool_decide_eq_true_2.
        -- by rewrite Ha, bool_decide_eq_false_2.
  - exists 0. simpl. unfold logged. by rewrite Ha.
Qed.

(** Whatever the batch size, a backup that is reported as taken has at
    least one row. *)
Lemma backup_cites_data_true (batch_size : Z) (d d' : db)
    (rows : list StagingRecord) :
  backup_cites_data batch_size d = (inr (true, Some rows), d') → rows ≠ [].
Proof.
  unfold BackupScript.backup_cites_data, try_except.
  unfold mbind at 1. unfold M_bind, bind.
  rewrite get_current_record_count_run.
  destruct (Z.eqb _ 0); [done|].
  unfold mbind, M_bind, bind.
  destruct (fetch_batches _ _ _ _ _ _) as [[e|all_records] d1]; [done|].
  destruct (decide ("species_id"
                    ∈ columns (BackupScript.frame_of production_columns
                                 all_records))) as [Hin|Hnin]; [|done].
  intros [= <- _] ->. by apply elem_of_nil in Hin.
Qed.
End backup.

(** [validate_backup] on a backup file that can be read. *)
Lemma validate_backup_run (df : DataFrame) (d : db) :
  validate_backup (Csv df) d
  = (inr (bool_decide
            (Z.of_nat (n_rows df)
             = if available d then Z.of_nat (length (production d)) else 0%Z)
          && bool_decide (Forall (λ col, col ∈ columns df) required_columns)),
     logged (SelectCount Production) d).
Proof.
  unfold validate_backup, try_except. unfold mbind, M_bind, bind.
  rewrite get_current_record_count_run.
  match goal with
  | |- context [Z.eqb ?a ?b] => destruct (Z.eqb_spec a b) as [Heq|Hne]
  end.
  - rewrite bool_decide_eq_true_2 by done. cbn [negb andb].
    destruct (filter _ required_columns) as [|col cols] eqn:Hmissing.
    + rewrite bool_decide_eq_true_2; [done|].
      apply Forall_forall. intros col Hcol.
      destruct (decide (col ∈ columns df)) as [Hin|Hnin]; [done|].
      assert (col ∈ filter (λ col, col ∉ columns df) required_columns) as Hf
        by (by apply list_elem_of_filter).
      rewrite Hmissing in Hf. by apply elem_of_nil in Hf.
    + rewrite bool_decide_eq_false_2; [done|].
      intros Hall.
      assert (col ∈ filter (λ col, col ∉ columns df) required_columns) as Hf
        by (rewrite Hmissing; left).
      apply list_elem_of_filter in Hf as [Hnin Hcol].
      by apply Hnin, (proj1 (Forall_forall _ _) Hall).
  - by rewrite bool_decide_eq_false_2.
Qed.

(** X20.  [backup_cites_data] with a batch size that is not negative.
    On a store that answers, with a table that is not empty and a
    positive batch size, the fetch loop gets every row of the production
    table once, in table order, whatever the number of rows and the batch
    size, and these are the records written to the backup file; the
    verdict is [True] when the rows have a [species_id] column.  When the
    store does not answer, the table is empty or the batch size is zero,
    the verdict is [False] and no file is written.  In every one of these
    cases the store receives reads only. *)
Theorem backup_holds_every_row (production_columns : list string)
    (inverted_range : exn + list StagingRecord) (batch_size : Z) (d : db) :
  (0 ≤ batch_size)%Z →
  ∃ d',
    BackupScript.backup_cites_data production_columns inverted_range
      batch_size d
    = (inr (if available d && bool_decide (production d ≠ [])
               && bool_decide (batch_size ≠ 0%Z)
            then (bool_decide ("species_id" ∈ production_columns),
                  Some (production d))
            else (false, None)),
       d')
    ∧ only_reads d d'.
Proof.
  intros Hsize.
  destruct (backup_cites_data_run production_columns inverted_range
              batch_size d Hsize) as [n ->].
  eexists. split; [reflexivity|].
  apply MigrationRun.only_reads_calls.
  constructor; [done|]. by apply Forall_replicate.
Qed.

(** The store of the examples, fetched two rows at a time: its one
    production row is in the backup. *)
Lemma backup_holds_every_row_witness :
  ∃ d',
    BackupScript.backup_cites_data required_columns (inl Unavailable) 2
      reachable_store
    = (inr (true, Some [walrus_tusks_from_greenland]), d')
    ∧ only_reads reachable_store d'.
Proof.
  apply (backup_holds_every_row required_columns (inl Unavailable) 2
           reachable_store).
  lia.
Defined.

(** X21.  A backup that has just been taken always passes the count
    comparison of [validate_backup], so that its validation succeeds
    exactly when the columns of the table include the six required ones
    ([id], [species_id], [year], [appendix], [taxon], [quantity]). *)
Theorem fresh_backup_validation (production_columns : list string)
    (inverted_range : exn + list StagingRecord) (batch_size : Z) (d : db) :
  available d = true → production d ≠ [] → (0 < batch_size)%Z →
  "species_id" ∈ production_columns →
  let backup :=
    BackupScript.backup_cites_data production_columns inverted_range
      batch_size d in
  backup.1 = inr (true, Some (production d))
  ∧ (validate_backup
       (Csv (BackupScript.frame_of production_columns (production d)))
       backup.2).1
    = inr (bool_decide
             (Forall (λ col, col ∈ production_columns) required_columns)).
Proof.
  intros Ha Hrows Hsize Hid backup. subst backup.
  destruct (backup_cites_data_run production_columns inverted_range
              batch_size d ltac:(lia)) as [n ->].
  rewrite Ha, !bool_decide_eq_true_2 by (done || lia). split; [done|].
  rewrite validate_backup_run. cbn [fst snd available production].
  unfold BackupScript.frame_of.
  destruct (production d) as [|r rows]; [done|]. cbn [n_rows columns].
  by rewrite bool_decide_eq_true_2.
Qed.

Lemma fresh_backup_validation_witness :
  let backup :=
    BackupScript.backup_cites_data required_columns (inl Unavailable) 500
      reachable_store in
  backup.1 = inr (true, Some (production reachable_store))
  ∧ (validate_backup
       (Csv (BackupScript.frame_of required_columns
               (production reachable_store)))
       backup.2).1
    = inr (bool_decide
             (Forall (λ col, col ∈ required_columns) required_columns)).
Proof.
  apply (fresh_backup_validation required_columns (inl Unavailable) 500
           reachable_store).
  - reflexivity.
  - discriminate.
  - lia.
  - vm_compute. repeat constructor.
Defined.

(** X22.  With a batch size that is not negative the backup script
    always ends with exit status 1, and the store receives reads only:
    when the backup fails or its validation fails the script leaves at
    once, and when both succeed, writing the manifest raises, because the
    statistics hold the [datetime] objects of the run. *)
Theorem backup_script_exits_with_1 (production_columns : list string)
    (inverted_range : exn + list StagingRecord) (batch_size : Z) (d : db) :
  (0 ≤ batch_size)%Z →
  ∃ d',
    BackupScript.main production_columns inverted_range batch_size d
    = (inr 1, d')
    ∧ only_reads d d'.
Proof.
  intros Hsize.
  unfold BackupScript.main. unfold mbind at 1. unfold M_bind, bind.
  destruct (backup_cites_data_run production_columns inverted_range
              batch_size d Hsize) as [n ->].
  assert (Forall (λ c, mutating c = false)
            ([SelectCount Production] ++ replicate n (Select Production)))
    as Hreads.
  { constructor; [done|]. by apply Forall_replicate. }
  destruct (available d && bool_decide (production d ≠ [])
            && bool_decide (batch_size ≠ 0%Z)); cbn [fst snd negb].
  - destruct (bool_decide ("species_id" ∈ production_columns)); cbn [negb].
    + unfold mbind, M_bind, bind. rewrite validate_backup_run.
      eexists. split; [by destruct (_ && _)|].
      unfold logged. cbn [species staging production available calls].
      rewrite <- app_assoc. apply MigrationRun.only_reads_calls.
      apply Forall_app. split; [done|]. by repeat constructor.
    + eexists. split; [reflexivity|].
      by apply MigrationRun.only_reads_calls.
  - eexists. split; [reflexivity|].
    by apply MigrationRun.only_reads_calls.
Qed.

(** The default batch size on the store of the examples, whose backup
    and validation succeed. *)
Lemma backup_script_exits_with_1_witness :
  ∃ d',
    BackupScript.main required_columns (inl Unavailable) 10000
      reachable_store = (inr 1, d')
    ∧ only_reads reachable_store d'.
Proof.
  apply (backup_script_exits_with_1 required_columns (inl Unavailable) 10000
           reachable_store).
  lia.
Defined.

End ScriptRuns.

(** ** The validation of a backup *)

Module BackupValidation.
Import Py Store StoreFacts Backup BackupFacts ScriptRuns Examples.

(** C9.  [validate_backup] is called by [main] of the backup script, on
    the file that [backup_cites_data] has just written, after
    [backup_cites_data] returned True; such a file has at least one row.
    Whatever the state of the store when the file is checked,
    [validate_backup] returns True only if the count query is answered
    and the number of rows of the file is the row count of the production
    table, and it returns False whenever the two numbers differ.  In
    full: it returns True exactly when the count query is answered, the
    two numbers are equal and the six required columns are there. *)
Theorem validate_backup_only_if_counts_match
    (production_columns : list string)
    (inverted_range : exn + list StagingRecord) (batch_size : Z)
    (d0 d1 d : db) (all_records : list StagingRecord) :
  BackupScript.backup_cites_data production_columns inverted_range
    batch_size d0
  = (inr (true, Some all_records), d1) →
  let file := Csv (BackupScript.frame_of production_columns all_records) in
  all_records ≠ []
  ∧ BackupScript.main production_columns inverted_range batch_size d0
    = (inr 1, (validate_backup file d1).2)
  ∧ ((validate_backup file d).1 = inr true →
     available d = true ∧ length all_records = length (production d))
  ∧ (length all_records ≠ length (production d) →
     (validate_backup file d).1 = inr false)
  ∧ (validate_backup file d).1
    = inr (bool_decide (available d = true
                        ∧ length all_records = length (production d))
           && bool_decide
                (Forall (λ col, col ∈ production_columns) required_columns)).
Proof.
  intros Hbackup. cbv zeta.
  pose proof (backup_cites_data_true _ _ _ _ _ _ Hbackup) as Hrows.
  assert (n_rows (BackupScript.frame_of production_columns all_records) ≠ 0)
    as Hn by (by destruct all_records).
  destruct (validate_backup_with_rows _ d Hn) as [Honly Hmismatch].
  split_and!; [done| |exact Honly|exact Hmismatch|].
  - unfold BackupScript.main. unfold mbind at 1. unfold M_bind, bind.
    rewrite Hbackup. cbn [fst snd negb]. unfold mbind, M_bind, bind.
    rewrite validate_backup_run. cbn [fst snd].
    by destruct (_ && _).
  - rewrite validate_backup_run. cbn [fst]. do 2 f_equal.
    + apply bool_decide_ext. unfold BackupScript.frame_of in *.
      cbn [n_rows] in *. destruct (available d); split.
      * intros Heq. split; [done|lia].
      * intros [_ Heq]. lia.
      * lia.
      * by intros [? _].
    + by destruct all_records.
Qed.

(** The backup of the store of the examples, fetched 500 rows at a time
    and checked right after it was taken: declared valid, one row in the
    file and one in the table. *)
Lemma validate_backup_only_if_counts_match_witness :
  let backup :=
    BackupScript.backup_cites_data required_columns (inl Unavailable) 500
      reachable_store in
  let file :=
    Csv (BackupScript.frame_of required_columns
           (production reachable_store)) in
  (validate_backup file backup.2).1 = inr true
  ∧ available backup.2 = true
  ∧ length (production reachable_store) = length (production backup.2).
Proof.
  cbv zeta.
  destruct (validate_backup_only_if_counts_match required_columns
              (inl Unavailable) 500 reachable_store
              (BackupScript.backup_cites_data required_columns
                 (inl Unavailable) 500 reachable_store).2
              (BackupScript.backup_cites_data required_columns
                 (inl Unavailable) 500 reachable_store).2
              (production reachable_store))
    as (_ & _ & Honly & _).
  - vm_compute. reflexivity.
  - assert ((validate_backup
               (Csv (BackupScript.frame_of required_columns
                       (production reachable_store)))
               (BackupScript.backup_cites_data required_columns
                  (inl Unavailable) 500 reachable_store).2).1 = inr true)
      as Hvalid by (vm_compute; reflexivity).
    split; [exact Hvalid|]. exact (Honly Hvalid).
Defined.

End BackupValidation.

(** ** The validation gate *)

Module GateFacts.
Import Py PyFacts Store StoreFacts SummaryView ValidationSuite.
Import Examples Scenarios.

Lemma select_count_where_run (t : table) (P : StagingRecord → bool) (d : db) :
  select_count_where t P d
  = (if available d
     then inr (Z.of_nat (length (filter (λ r, P r = true) (rows_of t d))))
     else inl Unavailable,
     logged (SelectCount t) d).
Proof. unfold select_count_where. unfold_store. by destruct (available d). Qed.

Lemma select_count_run (t : table) (d : db) :
  select_count t d
  = (if available d then inr (Z.of_nat (length (rows_of t d)))
     else inl Unavailable,
     logged (SelectCount t) d).
Proof. unfold_store. by destruct (available d). Qed.

(** [compare_with_production], branch by branch. *)
Lemma compare_with_production_run (results : Results) (d : db) :
  let prod_count := Z.of_nat (length (production d)) in
  let staging_count := Z.of_nat (length (staging d)) in
  compare_with_production results d
  = if available d
    then (inr (if (prod_count <? staging_count)%Z
               then if (prod_count =? 0)%Z
                    then crashed ProductionComparison
                           (Raised ZeroDivisionError) results
                    else (true,
                          passed (with_new_records
                                    (staging_count - prod_count) results))
               else (true, passed (warned [FewerRecordsThanProduction] results))),
          logged (SelectCount Staging) (logged (SelectCount Production) d))
    else (inr (crashed ProductionComparison (Raised Unavailable) results),
          logged (SelectCount Production) d).
Proof.
  cbv zeta. unfold compare_with_production, try_except.
  unfold mbind at 1. unfold M_bind, bind. rewrite select_count_run.
  destruct (available d) eqn:Ha; [|done].
  unfold mbind at 1. unfold M_bind, bind. rewrite select_count_run.
  cbn [available logged rows_of staging production]. rewrite Ha.
  destruct (Z.ltb _ _); [|done]. by destruct (Z.eqb _ 0).
Qed.

Lemma check_species_mapping_run (results : Results) (d : db) :
  let null_species :=
    Z.of_nat (length (filter (λ r, bool_decide (species_id r = None) = true)
                        (staging d))) in
  check_species_mapping results d
  = (inr (if available d
          then if (0 <? null_species)%Z
               then (false, failed_with (NullSpeciesIds null_species) results)
               else (true, passed results)
          else crashed SpeciesMapping (Raised Unavailable) results),
     logged (SelectCount Staging) d).
Proof.
  cbv zeta. unfold check_species_mapping, try_except.
  unfold mbind, M_bind, bind. rewrite select_count_where_run.
  destruct (available d); [|done]. cbn [rows_of].
  by destruct (Z.ltb 0 _).
Qed.

Lemma check_data_completeness_run (results : Results) (d : db) :
  let recent_count :=
    Z.of_nat (length (filter (λ r, (2020 <=? year r)%Z = true) (staging d))) in
  check_data_completeness results d
  = if available d
    then (inr (true,
               passed (if (recent_count <? 10000)%Z
                       then warned [LimitedRecentData] results else results)),
          logged (SelectCount Staging) (logged (SelectCount Staging) d))
    else (inr (crashed DataCompleteness (Raised Unavailable) results),
          logged (SelectCount Staging) d).
Proof.
  cbv zeta. unfold check_data_completeness, try_except.
  unfold mbind at 1. unfold M_bind, bind. rewrite select_count_where_run.
  destruct (available d) eqn:Ha; [|done].
  assert (filter (λ r : StagingRecord, false = true) (rows_of Staging d) = [])
    as ->.
  { induction (rows_of Staging d) as [|r rows IH]; [done|].
    by rewrite filter_cons_False. }
  cbn [length]. change (0 <? Z.of_nat 0)%Z with false. cbv iota.
  unfold mbind, M_bind, bind. rewrite select_count_where_run.
  cbn [available logged rows_of staging]. rewrite Ha.
  by destruct (Z.ltb _ 10000).
Qed.

Section quality.
Variable staging_summary : list StagingRecord → list Summary.

Lemma check_data_quality_run (results : Results) (d : db) :
  check_data_quality staging_summary results d
  = (inr
       (if available d
        then match staging_summary (staging d) with
             | [] => (false, failed_with SummaryViewEmpty results)
             | summary :: _ =>
                 let results := with_data_quality summary results in
                 match total_records summary, unique_species summary,
                       latest_year summary, appendix_i_count summary,
                       appendix_ii_count summary,
                       appendix_iii_count summary with
                 | Some total, Some species, Some latest,
                   Some i, Some ii, Some iii =>
                     let issues :=
                       quality_issues total species latest (i + ii + iii) in
                     (true,
                      passed
                        (foldl (λ acc _,
                                  warned (DataQualityIssue <$> issues) acc)
                           results issues))
                 | _, _, _, _, _, _ => crashed DataQuality TypeError results
                 end
             end
        else crashed DataQuality (Raised Unavailable) results),
     logged (Select StagingSummary) d).
Proof.
  unfold check_data_quality. unfold_store.
  destruct (available d); [|done]. cbn.
  destruct (staging_summary (staging d)) as [|summary rest]; [done|].
  by destruct (total_records summary), (unique_species summary),
    (latest_year summary), (appendix_i_count summary),
    (appendix_ii_count summary), (appendix_iii_count summary).
Qed.
End quality.

(** What [check_record_count] adds to fresh results. *)
Lemma record_count_delta (d : db) :
  ∃ ok out,
    Validator.check_record_count Validator.initial_results d
    = (inr (ok, out), logged (SelectCount Staging) d)
    ∧ Validator.checks_passed out = (if ok then 1 else 0)
    ∧ Validator.checks_failed out = (if ok then 0 else 1)
    ∧ (if ok then Validator.critical_issues out = []
       else ∃ issue, Validator.critical_issues out = [issue])
    ∧ (available d = false → ok = false).
Proof.
  unfold Validator.check_record_count, try_except.
  unfold mbind, M_bind, bind. rewrite select_count_run.
  destruct (available d); cbn [rows_of].
  - destruct (Z.eqb _ _).
    { eexists _, _. split; [reflexivity|]. by split_and!. }
    destruct (Z.ltb _ _).
    + destruct (Validator.too_many_missing _).
      * eexists _, _. split; [reflexivity|]. split_and!; try done.
        by eexists.
      * eexists _, _. split; [reflexivity|]. by split_and!.
    + eexists _, _. split; [reflexivity|]. by split_and!.
  - eexists _, _. split; [reflexivity|]. split_and!; try done. by eexists.
Qed.

Lemma only_reads_logged2 (c1 c2 : call) (d : db) :
  mutating c1 = false → mutating c2 = false →
  only_reads d (logged c2 (logged c1 d)).
Proof.
  intros H1 H2. eapply DryRun.only_reads_trans;
    by apply DryRun.only_reads_logged.
Qed.

Lemma counted_passed (results : Results) : counted true results (passed results).
Proof. by split_and!. Qed.

Lemma counted_failed (issue : critical_text) (results : Results) :
  counted false results (failed_with issue results).
Proof. split_and!; try done. by eexists. Qed.

Lemma check_record_count_well_behaved : well_behaved check_record_count.
Proof.
  intros results d. unfold check_record_count, mbind, M_bind, bind.
  destruct (record_count_delta d)
    as (ok & out & -> & Hpassed & Hfailed & Hissues & Hdown).
  unfold mret, M_ret, ret. eexists _, _, _. split; [reflexivity|].
  split_and!; [|by apply DryRun.only_reads_logged|done].
  cbn [fst snd]. destruct ok; unfold counted;
    cbn [checks_passed checks_failed critical_issues];
    rewrite Hpassed, Hfailed.
  - rewrite Hissues. simpl. rewrite app_nil_r. split_and!; [done|lia|done].
  - destruct Hissues as [issue ->]. split_and!; [lia|done|]. by eexists.
Qed.

Lemma check_species_mapping_well_behaved : well_behaved check_species_mapping.
Proof.
  intros results d. rewrite check_species_mapping_run. cbv zeta.
  destruct (available d); [destruct (Z.ltb 0 _)|];
    eexists _, _, _; (split; [reflexivity|]);
    (split_and!; [|by apply DryRun.only_reads_logged|done]);
    first [apply counted_failed|apply counted_passed].
Qed.

Lemma check_data_completeness_well_behaved :
  well_behaved check_data_completeness.
Proof.
  intros results d. rewrite check_data_completeness_run. cbv zeta.
  destruct (available d) eqn:Ha.
  - eexists _, _, _. split; [reflexivity|].
    split_and!; [|by apply only_reads_logged2|done].
    by destruct (Z.ltb _ 10000).
  - eexists _, _, _. split; [reflexivity|].
    split_and!; [apply counted_failed|by apply DryRun.only_reads_logged|done].
Qed.

Lemma compare_with_production_well_behaved :
  well_behaved compare_with_production.
Proof.
  intros results d. rewrite compare_with_production_run. cbv zeta.
  destruct (available d) eqn:Ha.
  - destruct (Z.ltb _ _); [destruct (Z.eqb _ 0)|];
      eexists _, _, _; (split; [reflexivity|]);
      (split_and!; [|by apply only_reads_logged2|done]);
      first [apply counted_failed|done].
  - eexists _, _, _. split; [reflexivity|].
    split_and!; [apply counted_failed|by apply DryRun.only_reads_logged|done].
Qed.

Lemma warned_each_time {A} (ws : list warning_text) (turns : list A)
    (results : Results) :
  let results' := foldl (λ acc _, warned ws acc) results turns in
  warnings results' = warnings results ++ concat (replicate (length turns) ws)
  ∧ checks_passed results' = checks_passed results
  ∧ checks_failed results' = checks_failed results
  ∧ critical_issues results' = critical_issues results
  ∧ data_quality results' = data_quality results.
Proof.
  revert results. induction turns as [|turn turns IH]; intros results.
  - simpl. by rewrite app_nil_r.
  - cbn [foldl length replicate concat].
    destruct (IH (warned ws results)) as (-> & -> & -> & -> & ->).
    cbn [warnings warned]. by rewrite <- app_assoc.
Qed.

Lemma check_data_quality_well_behaved
    (staging_summary : list StagingRecord → list Summary) :
  well_behaved (check_data_quality staging_summary).
Proof.
  intros results d. rewrite check_data_quality_run.
  assert (∀ out : bool * Results,
            counted out.1 results out.2 →
            (available d = false → out.1 = false) →
            ∃ ok results' d',
              (inr out, logged (Select StagingSummary) d)
              = (@inr exn _ (ok, results'), d')
              ∧ counted ok results results'
              ∧ only_reads d d'
              ∧ (available d = false → ok = false)) as Hout.
  { intros [ok results'] Hcounted Hdown. eexists _, _, _.
    split; [reflexivity|]. split_and!; [done| |done].
    by apply DryRun.only_reads_logged. }
  apply Hout; [|by intros ->]. unfold crashed.
  destruct (available d); [|apply counted_failed].
  destruct (staging_summary (staging d)) as [|summary rest];
    [apply counted_failed|]. cbv zeta.
  destruct (total_records summary), (unique_species summary),
    (latest_year summary), (appendix_i_count summary),
    (appendix_ii_count summary), (appendix_iii_count summary);
    try apply (counted_failed _ results).
  unfold counted.
  cbn [fst snd passed checks_passed checks_failed critical_issues].
  match goal with
  | |- context [foldl ?f ?r ?l] =>
      destruct (warned_each_time
                  (DataQualityIssue <$> l) l r) as (_ & -> & -> & -> & _)
  end.
  done.
Qed.

(** The loop of the gate over checks that are well behaved. *)
Lemma run_checks_well_behaved (todo : list (Results → M (bool * Results)))
    (all_passed : bool) (results : Results) (d : db) :
  Forall well_behaved todo →
  ∃ all_passed' results' d' issues,
    run_checks todo all_passed results d = (inr (all_passed', results'), d')
    ∧ checks_passed results' + checks_failed results'
      = checks_passed results + checks_failed results + length todo
    ∧ critical_issues results' = critical_issues results ++ issues
    ∧ checks_failed results' = checks_failed results + length issues
    ∧ all_passed' = all_passed && bool_decide (issues = [])
    ∧ only_reads d d'
    ∧ (available d = false → length issues = length todo).
Proof.
  intros Htodo. revert all_passed results d.
  induction Htodo as [|check_func todo Hcheck _ IH];
    intros all_passed results d.
  - exists all_passed, results, d, []. cbn [run_checks].
    rewrite app_nil_r, andb_true_r, !Nat.add_0_r.
    do 5 (split; [done|]). split; [|done].
    split_and!; [done..|]. exists []. by rewrite app_nil_r.
  - cbn [run_checks]. unfold mbind, M_bind, bind, try_except.
    destruct (Hcheck results d) as (ok & r1 & d1 & -> & Hcounted & Hreads & Hdown).
    cbn [fst snd].
    destruct (IH (if ok then all_passed else false) r1 d1)
      as (all' & r' & d' & issues & -> & Hsum & Hissues & Hfailed & Hall
          & Hreads' & Hdown').
    assert (available d1 = available d) as Hsame by apply Hreads.
    destruct ok; unfold counted in Hcounted.
    + destruct Hcounted as (Hp & Hf & Hc).
      exists all', r', d', issues. split; [done|].
      rewrite Hsum, Hissues, Hfailed, Hp, Hf, Hc. cbn [length].
      split; [lia|]. do 3 (split; [done|]). split.
      * by eapply DryRun.only_reads_trans.
      * intros Ha. by specialize (Hdown Ha).
    + destruct Hcounted as (Hp & Hf & issue & Hc).
      exists all', r', d', (issue :: issues). split; [done|].
      rewrite Hsum, Hissues, Hfailed, Hp, Hf, Hc. cbn [length].
      split; [lia|].
      split; [by rewrite <- app_assoc|].
      split; [lia|].
      split; [|split].
      * rewrite Hall.
        rewrite (bool_decide_eq_false_2 (issue :: issues = [])) by done.
        by rewrite andb_false_r.
      * by eapply DryRun.only_reads_trans.
      * intros Ha. rewrite Hdown' by by rewrite Hsame. done.
Qed.

Lemma checks_well_behaved
    (staging_summary : list StagingRecord → list Summary) :
  Forall well_behaved (checks staging_summary).
Proof.
  unfold checks. repeat apply Forall_cons_2; [| | | | |done].
  - apply check_record_count_well_behaved.
  - apply check_data_quality_well_behaved.
  - apply check_species_mapping_well_behaved.
  - apply check_data_completeness_well_behaved.
  - apply compare_with_production_well_behaved.
Qed.

(** One check of the loop that returns [False] whatever was read before
    it makes the loop return [False]. *)
Lemma run_checks_failing_check (todo : list (Results → M (bool * Results)))
    (check_func : Results → M (bool * Results)) (all_passed : bool)
    (results : Results) (d : db) :
  Forall well_behaved todo → check_func ∈ todo →
  (∀ results d1, only_reads d d1 →
     ∃ results' d2, check_func results d1 = (inr (false, results'), d2)) →
  ∃ results' d',
    run_checks todo all_passed results d = (inr (false, results'), d').
Proof.
  intros Htodo. revert all_passed results d.
  induction Htodo as [|first todo Hfirst Htodo IH];
    intros all_passed results d Hin Hfails.
  { by apply elem_of_nil in Hin. }
  cbn [run_checks]. unfold mbind, M_bind, bind, try_except.
  destruct (Hfirst results d) as (ok & r1 & d1 & Hrun & _ & Hreads & _).
  apply elem_of_cons in Hin as [<-|Hin].
  - destruct (Hfails results d) as (r1' & d1' & Hrun').
    { repeat split. exists []. by rewrite app_nil_r. }
    rewrite Hrun'. cbn [fst snd].
    destruct (run_checks_well_behaved todo false r1' d1' Htodo)
      as (a & r' & d' & issues & -> & _ & _ & _ & -> & _).
    by eexists _, _.
  - rewrite Hrun. cbn [fst snd]. apply IH; [done|].
    intros results1 d2 Hreads2. apply Hfails.
    by eapply DryRun.only_reads_trans.
Qed.

Lemma record_count_empty_staging (results : Results) (d : db) :
  staging d = [] →
  ∃ results' d', check_record_count results d = (inr (false, results'), d').
Proof.
  intros Hempty. unfold check_record_count, Validator.check_record_count,
    try_except.
  unfold mbind at 1. unfold M_bind, bind.
  unfold mbind at 1. unfold M_bind, bind. rewrite select_count_run.
  cbn [rows_of]. rewrite Hempty.
  destruct (available d); by eexists _, _.
Qed.

(** The run of the gate. *)
Lemma run_all_validations_run
    (staging_summary : list StagingRecord → list Summary) (d : db) :
  ∃ results d',
    run_all_validations staging_summary d
    = (inr (bool_decide (critical_issues results = []), results), d')
    ∧ main staging_summary d
      = (inr (if bool_decide (critical_issues results = []) then 0 else 1), d')
    ∧ checks_passed results + checks_failed results = 5
    ∧ length (critical_issues results) = checks_failed results
    ∧ overall_status results
      = match critical_issues results, warnings results with
        | _ :: _, _ => FAILED
        | [], _ :: _ => PASSED_WITH_WARNINGS
        | [], [] => PASSED
        end
    ∧ only_reads d d'
    ∧ (available d = false → checks_failed results = 5).
Proof.
  destruct (run_checks_well_behaved (checks staging_summary) true
              initial_results d (checks_well_behaved staging_summary))
    as (a & r & d' & issues & Hrun & Hsum & Hissues & Hfailed & -> & Hreads
        & Hdown).
  cbn in Hsum, Hissues, Hfailed.
  exists (generate_validation_report r), d'.
  unfold main, try_except, run_all_validations. unfold mbind, M_bind, bind.
  rewrite Hrun. cbn [fst snd generate_validation_report with_status
    critical_issues checks_passed checks_failed overall_status warnings].
  rewrite Hissues, Hfailed. unfold mret, M_ret, ret.
  split; [done|]. split; [done|]. split; [lia|].
  do 3 (split; [done|]). intros Ha. by rewrite Hdown.
Qed.

(** X23.  The comparison with production always returns, and only reads.
    It counts as failed exactly when the store does not answer or the
    production table is empty while the staging table is not: the log
    line of that case divides by the production count, and the
    [ZeroDivisionError] is recorded as a critical issue. *)
Theorem production_comparison_verdict (results : Results) (d : db) :
  ∃ ok results' d',
    compare_with_production results d = (inr (ok, results'), d')
    ∧ (ok = false
       ↔ available d = false ∨ (production d = [] ∧ staging d ≠ []))
    ∧ (available d = true → production d = [] → staging d ≠ [] →
       results'
       = failed_with (CheckFailed ProductionComparison
                        (Raised ZeroDivisionError)) results)
    ∧ only_reads d d'.
Proof.
  rewrite compare_with_production_run. cbv zeta.
  destruct (available d) eqn:Ha.
  - destruct (production d) as [|row rows] eqn:Hprod.
    + destruct (staging d) as [|srow srows] eqn:Hstag.
      * eexists _, _, _. split; [reflexivity|]. simpl.
        split; [|split; [done|by apply only_reads_logged2]].
        split; [done|]. by intros [|[_ ?]].
      * assert ((Z.of_nat (length (@nil StagingRecord))
                 <? Z.of_nat (length (srow :: srows)))%Z = true) as ->.
        { apply Z.ltb_lt. simpl. lia. }
        eexists _, _, _. split; [reflexivity|]. simpl.
        split; [|split; [done|by apply only_reads_logged2]].
        split; [|done]. intros _. by right.
    + assert ((Z.of_nat (length (row :: rows)) =? 0)%Z = false) as ->.
      { apply Z.eqb_neq. simpl. lia. }
      destruct (Z.ltb _ _);
        (eexists _, _, _; split; [reflexivity|]); simpl;
        (split; [|split; [done|by apply only_reads_logged2]]);
        (split; [done|]); by intros [|[? _]].
  - eexists _, _, _. split; [reflexivity|]. simpl.
    split; [|split; [done|by apply DryRun.only_reads_logged]].
    split; [|done]. intros _. by left.
Qed.

(** X24.  On a summary row without nulls the data quality check passes
    whatever the row says: what the three tests find only becomes
    warnings.  The loop over the issues found appends the whole list at
    every turn, so that [k] issues leave [k * k] warnings. *)
Theorem quality_issues_are_repeated_warnings
    (staging_summary : list StagingRecord → list Summary)
    (results : Results) (d : db) (summary : Summary) (rest : list Summary)
    (total species latest i ii iii : Z) :
  available d = true →
  staging_summary (staging d) = summary :: rest →
  total_records summary = Some total →
  unique_species summary = Some species →
  latest_year summary = Some latest →
  appendix_i_count summary = Some i →
  appendix_ii_count summary = Some ii →
  appendix_iii_count summary = Some iii →
  let issues := quality_issues total species latest (i + ii + iii) in
  ∃ results' d',
    check_data_quality staging_summary results d = (inr (true, results'), d')
    ∧ warnings results'
      = warnings results
        ++ concat (replicate (length issues) (DataQualityIssue <$> issues))
    ∧ length (warnings results')
      = length (warnings results) + length issues * length issues
    ∧ checks_passed results' = checks_passed results + 1
    ∧ checks_failed results' = checks_failed results
    ∧ critical_issues results' = critical_issues results
    ∧ data_quality results' = Some summary.
Proof.
  intros Ha Hsummary Htotal Hspecies Hlatest Hi Hii Hiii issues.
  rewrite check_data_quality_run, Ha, Hsummary.
  rewrite Htotal, Hspecies, Hlatest, Hi, Hii, Hiii. cbv zeta.
  fold issues. eexists _, _. split; [reflexivity|].
  cbn [passed warnings checks_passed checks_failed critical_issues
    data_quality].
  destruct (warned_each_time (DataQualityIssue <$> issues) issues
              (with_data_quality summary results))
    as (Hw & Hp & Hf & Hc & Hq).
  cbv zeta in Hw, Hp, Hf, Hc, Hq. rewrite Hw, Hp, Hf, Hc, Hq.
  split_and!; try done.
  rewrite length_app. f_equal. cbn [warnings with_data_quality].
  generalize (length issues) at 1 3. intros k.
  induction k as [|k IH]; [done|].
  cbn [replicate concat]. rewrite length_app, IH, length_fmap. lia.
Qed.

(** A store whose summary view returns the summary row of the
    scenarios: two issues are found and four warnings are left. *)
Lemma quality_issues_are_repeated_warnings_witness :
  ∃ results' d',
    check_data_quality (λ _, [stale_summary]) initial_results reachable_store
    = (inr (true, results'), d')
    ∧ warnings results'
      = DataQualityIssue
        <$> [UnexpectedSpeciesCount 20; MissingRecentData 2022;
             UnexpectedSpeciesCount 20; MissingRecentData 2022].
Proof.
  destruct (quality_issues_are_repeated_warnings (λ _, [stale_summary])
              initial_results reachable_store stale_summary []
              1000 20 2022 100 800 100)
    as (results' & d' & Hrun & Hwarnings & _); try reflexivity.
  exists results', d'. split; [exact Hrun|]. exact Hwarnings.
Defined.

(** X25.  The gate always returns, after five checks each counted once,
    and it only reads.  Its verdict, the exit status of the script and
    the report agree: the verdict is positive exactly when no check
    counted as failed, which is exactly when the status of the report is
    not [FAILED]; there are as many critical issues as failed checks.
    When the store does not answer, all five checks count as failed. *)
Theorem gate_verdict_matches_the_report
    (staging_summary : list StagingRecord → list Summary) (d : db) :
  ∃ all_passed results d',
    run_all_validations staging_summary d = (inr (all_passed, results), d')
    ∧ main staging_summary d = (inr (if all_passed then 0 else 1), d')
    ∧ checks_passed results + checks_failed results = 5
    ∧ length (critical_issues results) = checks_failed results
    ∧ (all_passed = true ↔ checks_failed results = 0)
    ∧ (all_passed = true ↔ overall_status results ≠ FAILED)
    ∧ only_reads d d'
    ∧ (available d = false → checks_failed results = 5).
Proof.
  destruct (run_all_validations_run staging_summary d)
    as (results & d' & Hrun & Hmain & Hsum & Hlen & Hstatus & Hreads & Hdown).
  exists (bool_decide (critical_issues results = [])), results, d'.
  do 4 (split; [done|]). rewrite Hstatus, <- Hlen.
  split; [|split; [|split; [done|by rewrite Hlen]]].
  - destruct (critical_issues results); simpl; split; done.
  - destruct (critical_issues results); simpl.
    + by destruct (warnings results).
    + split; done.
Qed.

(** X26.  With an empty production table the gate never passes: an empty
    staging table fails the record count, and otherwise the comparison
    with production divides by zero.  The script ends with exit status
    1 and the report says [FAILED]. *)
Theorem gate_fails_on_empty_production
    (staging_summary : list StagingRecord → list Summary) (d : db) :
  production d = [] →
  ∃ results d',
    run_all_validations staging_summary d = (inr (false, results), d')
    ∧ main staging_summary d = (inr 1, d')
    ∧ overall_status results = FAILED.
Proof.
  intros Hprod.
  destruct (run_all_validations_run staging_summary d)
    as (results & d' & Hrun & Hmain & _ & _ & Hstatus & _).
  assert (∃ results0 d0,
            run_checks (checks staging_summary) true initial_results d
            = (inr (false, results0), d0)) as (results0 & d0 & Hfalse).
  { destruct (staging d) as [|srow srows] eqn:Hstag.
    - apply (run_checks_failing_check _ check_record_count);
        [apply checks_well_behaved|by apply elem_of_cons; left|].
      intros results1 d1 (Htables & _). apply record_count_empty_staging.
      unfold tables in Htables. injection Htables as _ -> _. done.
    - apply (run_checks_failing_check _ compare_with_production);
        [apply checks_well_behaved
        |unfold checks; rewrite !elem_of_cons; by do 4 right; left|].
      intros results1 d1 (Htables & Ha & _).
      unfold tables in Htables. injection Htables as _ Hs Hp.
      rewrite compare_with_production_run. cbv zeta.
      rewrite Hs, Hp, Hprod, Hstag.
      destruct (available d1); by eexists _, _. }
  pose proof Hrun as Hchecks.
  unfold run_all_validations in Hchecks.
  unfold mbind, M_bind, bind in Hchecks. rewrite Hfalse in Hchecks.
  unfold mret, M_ret, ret in Hchecks. cbn [fst] in Hchecks.
  injection Hchecks as Hverdict _ _.
  symmetry in Hverdict. apply bool_decide_eq_false_1 in Hverdict.
  exists results, d'. rewrite Hmain, Hrun.
  rewrite bool_decide_eq_false_2 by done.
  destruct (critical_issues results); done.
Qed.

(** The store of the scenarios, two rows staged for an empty production
    table. *)
Lemma gate_fails_on_empty_production_witness :
  ∃ results d',
    run_all_validations (λ _, [stale_summary]) empty_production_store
    = (inr (false, results), d')
    ∧ main (λ _, [stale_summary]) empty_production_store = (inr 1, d')
    ∧ overall_status results = FAILED.
Proof.
  apply (gate_fails_on_empty_production (λ _, [stale_summary])
           empty_production_store).
  reflexivity.
Defined.

End GateFacts.

(** ** The gate after a load *)

Module LoadThenValidate.
Import Py PyFacts Store StoreFacts StageLoader StageLoaderFacts LoaderRun.
Import LoaderMain Examples.

Lemma prepared_species_ids (float_of_string : string → option pyfloat)
    (df : list Row) (d : db) (records : list StagingRecord) :
  prepared float_of_string df d = inr records →
  Forall (λ record, is_Some (species_id record)) records.
Proof.
  unfold prepared. intros Hrecords%prepare_staging_records_inr.
  eapply Forall2_Forall_r; [exact Hrecords|].
  apply Forall_fmap, Forall_forall. intros row Hrow record Hrecord.
  apply list_elem_of_filter in Hrow as [Hmapped _].
  unfold staging_record_of in Hrecord.
  destruct (cYear (resolve _ row)); [|done].
  injection Hrecord as <-. done.
Qed.

Lemma filter_none {A} (P : A → Prop) `{∀ x, Decision (P x)} (l : list A) :
  Forall (λ x, ¬ P x) l → filter P l = [].
Proof.
  induction 1 as [|x l Hx _ IH]; [done|]. by rewrite filter_cons_False.
Qed.

Lemma concat_filter_batches {A} (P : list A → Prop) `{∀ b, Decision (P b)}
    (Q : A → Prop) (size : Z) (l : list A) :
  Forall Q l → Forall Q (concat (filter P (range_batches size l))).
Proof.
  intros Hl. destruct (decide (0 < size)%Z) as [Hsize|Hsize].
  - apply Forall_concat, Forall_forall. intros b Hb.
    apply list_elem_of_filter in Hb as [_ Hb].
    rewrite <- (concat_range_batches size l Hsize) in Hl.
    pose proof (proj1 (Forall_concat _ _) Hl) as Hall.
    by apply (proj1 (Forall_forall _ _) Hall).
  - rewrite range_batches_neg by lia. constructor.
Qed.

(** X27.  What the loader leaves in the staging table passes the species
    mapping check of the gate: after a run of the loader that ended
    without an exception every staged row has a species id, whatever the
    table held before, and the check counts as passed. *)
Theorem loaded_rows_pass_the_species_check `{Schema}
    (float_of_string : string → option pyfloat) (batch_size : Z)
    (df : list Row) (d d' : db) (stats : LoadStats)
    (results : ValidationSuite.Results) :
  main float_of_string false batch_size df d = (inr stats, d') →
  Forall (λ record, is_Some (species_id record)) (staging d')
  ∧ ∃ d'',
      ValidationSuite.check_species_mapping results d'
      = (inr (true, ValidationSuite.passed results), d'').
Proof.
  intros Hrun.
  destruct (main_returned _ _ _ _ _ _ Hrun)
    as (Ha & Hdf & Hbs & records & Hrecords).
  rewrite (main_completes _ _ _ _ records) in Hrun by done.
  cbv zeta in Hrun. injection Hrun as _ <-. cbn [staging].
  assert (Forall (λ record, is_Some (species_id record))
            (concat
               (filter (λ b, accepted true b = true)
                  (range_batches batch_size records))))
    as Hids.
  { apply concat_filter_batches.
    by apply (prepared_species_ids float_of_string df d). }
  split; [done|].
  rewrite GateFacts.check_species_mapping_run. cbv zeta.
  cbn [available staging].
  rewrite filter_none.
  - by eexists.
  - eapply Forall_impl; [exact Hids|]. intros record [id Hid].
    rewrite Hid. by rewrite bool_decide_eq_false_2.
Qed.

(** The loader on the frame of two rows, one of them with an unknown
    taxon: the species mapping check passes on what it staged. *)
Lemma loaded_rows_pass_the_species_check_witness :
  ∃ d'',
    ValidationSuite.check_species_mapping ValidationSuite.initial_results
      (@main sql_schema no_text_float false 5000 two_row_frame
         reachable_store).2
    = (inr (true, ValidationSuite.passed ValidationSuite.initial_results),
       d'').
Proof.
  destruct (@main sql_schema no_text_float false 5000 two_row_frame
              reachable_store) as [[e|stats] d'] eqn:Hrun.
  - vm_compute in Hrun. discriminate Hrun.
  - destruct (@loaded_rows_pass_the_species_check sql_schema no_text_float
                5000 two_row_frame reachable_store d' stats
                ValidationSuite.initial_results Hrun) as [_ Hcheck].
    exact Hcheck.
Defined.

End LoadThenValidate.

(** ** The three steps of a migration *)

Module MigrationSteps.
Import Py PyFacts Store StoreFacts Migrator MigratorFacts MigrationRun.
Import Examples Scenarios.

(** X28.  The three steps of a real migration, one after the other, on a
    store that answers and whose staging table has at least as many rows
    as the production table: the checks pass, the merge reports success,
    and the counters of the statistics add up, the final production
    count being the initial one plus [records_migrated].  The
    post-migration validation passes exactly when the merge inserted at
    least one row, that is, when the production table has changed: a
    merge that finds nothing to insert is reported as a failed
    validation. *)
Theorem migration_counters_add_up `{Schema} (d : db) :
  available d = true →
  length (production d) ≤ length (staging d) →
  ∃ stats1 d1 stats2 d2 valid stats3 d3,
    pre_migration_checks initial_stats d = (inr (true, stats1), d1)
    ∧ execute_migration false stats1 d1 = (inr (true, stats2), d2)
    ∧ post_migration_validation stats2 d2 = (inr (valid, stats3), d3)
    ∧ initial_production_count stats3 = Z.of_nat (length (production d))
    ∧ final_production_count stats3 = Z.of_nat (length (production d3))
    ∧ final_production_count stats3
      = (initial_production_count stats3
         + Z.of_nat (records_migrated stats3))%Z
    ∧ (valid = true ↔ 0 < records_migrated stats3)
    ∧ (valid = true ↔ production d3 ≠ production d).
Proof.
  intros Ha Hcount.
  pose proof (pre_migration_checks_run initial_stats d) as Hpre.
  cbv zeta in Hpre. rewrite Ha in Hpre.
  destruct (Z.ltb_spec (Z.of_nat (length (staging d))
                        - Z.of_nat (length (production d))) 0) as [Hlt|_];
    [lia|].
  match type of Hpre with
  | _ = (inr (true, ?s), ?d0) =>
      destruct (execute_migration_result s d0) as (log & Hrun);
      exists s, d0
  end.
  cbv zeta in Hrun.
  cbn [available logged staging production species calls] in Hrun.
  rewrite Ha in Hrun.
  eexists _, _. rewrite post_migration_validation_run. cbv zeta.
  cbn [available]. eexists _, _, _.
  split; [exact Hpre|]. split; [exact Hrun|]. split; [reflexivity|].
  cbn [initial_production_count final_production_count records_migrated
    production logged].
  destruct (merged_adds true (production d) (batches batch_size (staging d)))
    as (added & -> & <- & _).
  rewrite length_app. split; [done|]. split; [done|]. split; [lia|].
  split.
  - rewrite bool_decide_eq_true. lia.
  - rewrite bool_decide_eq_true. split.
    + intros Hpos Heq. apply (f_equal length) in Heq.
      rewrite length_app in Heq. lia.
    + intros Hne. destruct added; [by rewrite app_nil_r in Hne|].
      simpl. lia.
Qed.

(** Two rows staged for an empty production table: both are inserted
    and the validation passes. *)
Lemma migration_counters_add_up_witness :
  ∃ stats1 d1 stats2 d2 stats3 d3,
    pre_migration_checks initial_stats empty_production_store
    = (inr (true, stats1), d1)
    ∧ @execute_migration sql_schema false stats1 d1 = (inr (true, stats2), d2)
    ∧ post_migration_validation stats2 d2 = (inr (true, stats3), d3)
    ∧ final_production_count stats3 = 2%Z.
Proof.
  destruct (@migration_counters_add_up sql_schema empty_production_store)
    as (stats1 & d1 & stats2 & d2 & valid & stats3 & d3 & Hpre & Hrun & Hpost
        & Hinitial & _ & Hfinal & Hvalid & _).
  - reflexivity.
  - simpl. lia.
  - exists stats1, d1, stats2, d2, stats3, d3.
    split; [exact Hpre|].
    injection Hpre as <- <-. vm_compute in Hrun.
    injection Hrun as <- <-. vm_compute in Hpost.
    injection Hpost as <- <- <-. repeat split; reflexivity.
Defined.

End MigrationSteps.

(** ** What the gate decides on *)

Module GateVerdict.
Import Py PyFacts Store StoreFacts SummaryView ValidationSuite GateFacts.

(** The loop of the gate over checks whose verdicts are known. *)
Lemma run_checks_verdicts (todo : list (Results → M (bool * Results)))
    (verdicts : list bool) (all_passed : bool) (results : Results) (d : db) :
  Forall2 (λ check_func verdict,
             ∀ results d1, only_reads d d1 →
               ∃ results' d2,
                 check_func results d1 = (inr (verdict, results'), d2)
                 ∧ only_reads d1 d2) todo verdicts →
  ∀ d0, only_reads d d0 →
    ∃ results' d',
      run_checks todo all_passed results d0
      = (inr (all_passed && forallb id verdicts, results'), d').
Proof.
  intros Htodo. revert all_passed results.
  induction Htodo as [|check_func verdict todo verdicts Hcheck _ IH];
    intros all_passed results d0 Hd0.
  - cbn [run_checks forallb]. rewrite andb_true_r. by eexists _, _.
  - cbn [run_checks forallb]. unfold mbind, M_bind, bind, try_except.
    destruct (Hcheck results d0 Hd0) as (r1 & d1 & -> & Hreads).
    cbn [fst snd].
    destruct (IH (if verdict then all_passed else false) r1 d1
                (DryRun.only_reads_trans _ _ _ Hd0 Hreads))
      as (r' & d' & ->).
    eexists _, _. do 2 f_equal. unfold id at 1.
    by destruct verdict, all_passed.
Qed.

Lemma check_record_count_run (results : Results) (d : db) :
  let staging_count := Z.of_nat (length (staging d)) in
  ∃ results',
    check_record_count results d
    = (inr (available d
            && negb ((staging_count <? Validator.expected_count)%Z
                     && Validator.too_many_missing
                          (Validator.expected_count - staging_count)),
            results'),
       logged (SelectCount Staging) d).
Proof.
  cbv zeta. unfold check_record_count, Validator.check_record_count,
    try_except.
  unfold mbind at 1. unfold M_bind, bind.
  unfold mbind at 1. unfold M_bind, bind. rewrite select_count_run.
  cbn [rows_of]. destruct (available d); [|by eexists].
  destruct (Z.eqb_spec (Z.of_nat (length (staging d)))
              Validator.expected_count) as [Heq|Hne].
  { rewrite (proj2 (Z.ltb_ge _ _)) by lia. by eexists. }
  destruct (Z.ltb _ _); [|by eexists].
  destruct (Validator.too_many_missing _); by eexists.
Qed.

Lemma filter_nil_Forall {A} (P : A → Prop) `{∀ x, Decision (P x)} (l : list A) :
  filter P l = [] ↔ Forall (λ x, ¬ P x) l.
Proof.
  split.
  - intros Hnil. apply Forall_forall. intros x Hx HP.
    by apply (filter_nil_not_elem_of P l x).
  - induction 1 as [|x l' Hx _ IH]; [done|]. by rewrite filter_cons_False.
Qed.

Local Ltac one_read :=
  eexists _, _; split; [reflexivity|by apply DryRun.only_reads_logged].

(** X29.  What the gate decides on.  [run_all_validations] returns
    [True] exactly when the store answers, the staging table is not short
    of the 489,148 expected rows by more than a tenth of them, the summary
    view has a row whose counts and latest year are not null, no staged
    row is without a species id, and the production table is not empty.
    Nothing else in the data changes the verdict: what the data quality
    and the completeness checks find only becomes warnings. *)
Theorem gate_passes_exactly_when
    (staging_summary : list StagingRecord → list Summary) (d : db) :
  ∃ all_passed results d',
    run_all_validations staging_summary d = (inr (all_passed, results), d')
    ∧ (all_passed = true
       ↔ available d = true
         ∧ (10 * (Validator.expected_count - Z.of_nat (length (staging d)))
            ≤ Validator.expected_count)%Z
         ∧ (∃ summary rest,
              staging_summary (staging d) = summary :: rest
              ∧ without_nulls summary)
         ∧ Forall (λ record, is_Some (species_id record)) (staging d)
         ∧ production d ≠ []).
Proof.
  set (staging_count := Z.of_nat (length (staging d))).
  set (v1 := available d
             && negb ((staging_count <? Validator.expected_count)%Z
                      && Validator.too_many_missing
                           (Validator.expected_count - staging_count))).
  set (v2 := available d
             && match staging_summary (staging d) with
                | [] => false
                | summary :: _ =>
                    match total_records summary, unique_species summary,
                          latest_year summary, appendix_i_count summary,
                          appendix_ii_count summary,
                          appendix_iii_count summary with
                    | Some _, Some _, Some _, Some _, Some _, Some _ => true
                    | _, _, _, _, _, _ => false
                    end
                end).
  set (v3 := available d
             && negb (0 <? Z.of_nat
                             (length
                                (filter (λ r, bool_decide (species_id r = None)
                                              = true) (staging d))))%Z).
  set (v4 := available d).
  set (v5 := available d
             && negb ((Z.of_nat (length (production d)) <? staging_count)%Z
                      && (Z.of_nat (length (production d)) =? 0)%Z)).
  destruct (run_checks_verdicts (checks staging_summary) [v1; v2; v3; v4; v5]
              true initial_results d) with (d0 := d)
    as (results & d' & Hrun).
  2: { repeat split. exists []. by rewrite app_nil_r. }
  { unfold checks. repeat apply Forall2_cons_2; [| | | | |done].
    - intros results d1 (Htables & Ha & _).
      unfold tables in Htables. injection Htables as _ Hs _.
      destruct (check_record_count_run results d1) as (results' & ->).
      cbv zeta. rewrite Ha, Hs. eexists _, _. split; [reflexivity|].
      by apply DryRun.only_reads_logged.
    - intros results d1 (Htables & Ha & _).
      unfold tables in Htables. injection Htables as _ Hs _.
      rewrite check_data_quality_run, Ha, Hs. subst v2.
      destruct (available d); [|one_read].
      destruct (staging_summary (staging d)) as [|summary rest];
        [one_read|]. cbv zeta.
      destruct (total_records summary), (unique_species summary),
        (latest_year summary), (appendix_i_count summary),
        (appendix_ii_count summary), (appendix_iii_count summary);
        one_read.
    - intros results d1 (Htables & Ha & _).
      unfold tables in Htables. injection Htables as _ Hs _.
      rewrite check_species_mapping_run. cbv zeta. rewrite Ha, Hs. subst v3.
      destruct (available d); [|one_read].
      destruct (Z.ltb 0 _); one_read.
    - intros results d1 (Htables & Ha & _).
      rewrite check_data_completeness_run. cbv zeta. rewrite Ha. subst v4.
      destruct (available d);
        (eexists _, _; split; [reflexivity|]);
        [by apply only_reads_logged2|by apply DryRun.only_reads_logged].
    - intros results d1 (Htables & Ha & _).
      unfold tables in Htables. injection Htables as _ Hs Hp.
      rewrite compare_with_production_run. cbv zeta. rewrite Ha, Hs, Hp.
      subst v5. unfold staging_count.
      destruct (available d);
        [|eexists _, _; split; [reflexivity|];
          by apply DryRun.only_reads_logged].
      destruct (Z.of_nat (length (production d))
                <? Z.of_nat (length (staging d)))%Z;
        [destruct (Z.of_nat (length (production d)) =? 0)%Z|];
        (eexists _, _; split; [reflexivity|]);
        by apply only_reads_logged2. }
  eexists _, _, _. split.
  { unfold run_all_validations, mbind, M_bind, bind. rewrite Hrun.
    reflexivity. }
  cbn [fst forallb andb]. unfold id. rewrite andb_true_r.
  rewrite !andb_true_iff. subst v1 v2 v3 v4 v5.
  rewrite !andb_true_iff, !negb_true_iff, !andb_false_iff.
  assert ((staging_count <? Validator.expected_count)%Z = false
          ∨ Validator.too_many_missing
              (Validator.expected_count - staging_count) = false
          ↔ (10 * (Validator.expected_count - staging_count)
             ≤ Validator.expected_count)%Z) as Hcount.
  { rewrite Z.ltb_ge, <- not_true_iff_false,
      ValidatorFacts.too_many_missing_spec.
    unfold Validator.expected_count. lia. }
  assert (match staging_summary (staging d) with
          | [] => false
          | summary :: _ =>
              match total_records summary, unique_species summary,
                    latest_year summary, appendix_i_count summary,
                    appendix_ii_count summary,
                    appendix_iii_count summary with
              | Some _, Some _, Some _, Some _, Some _, Some _ => true
              | _, _, _, _, _, _ => false
              end
          end = true
          ↔ ∃ summary rest,
              staging_summary (staging d) = summary :: rest
              ∧ without_nulls summary) as Hsummary.
  { destruct (staging_summary (staging d)) as [|summary rest].
    { split; [done|]. by intros (? & ? & ? & _). }
    unfold without_nulls. split.
    - intros Hsome. exists summary, rest. split; [done|].
      destruct (total_records summary), (unique_species summary),
        (latest_year summary), (appendix_i_count summary),
        (appendix_ii_count summary), (appendix_iii_count summary);
        done.
    - intros (summary' & rest' & [= <- <-]
              & [? ->] & [? ->] & [? ->] & [? ->] & [? ->] & [? ->]).
      done. }
  assert ((0 <? Z.of_nat
                  (length
                     (filter (λ r, bool_decide (species_id r = None) = true)
                        (staging d))))%Z = false
          ↔ Forall (λ record, is_Some (species_id record)) (staging d))
    as Hspecies.
  { rewrite Z.ltb_ge. split.
    - intros Hlen.
      assert (filter (λ r, bool_decide (species_id r = None) = true)
                (staging d) = []) as Hnil.
      { apply length_zero_iff_nil. lia. }
      apply filter_nil_Forall in Hnil. eapply Forall_impl; [exact Hnil|].
      intros record Hrecord. simpl in Hrecord.
      destruct (species_id record); [by eexists|].
      destruct Hrecord. by apply bool_decide_eq_true.
    - intros Hall. rewrite (proj2 (filter_nil_Forall _ _)); [done|].
      eapply Forall_impl; [exact Hall|]. intros record [id Hid]. simpl.
      rewrite Hid. by rewrite bool_decide_eq_false_2. }
  rewrite Hcount, Hsummary, Hspecies.
  rewrite Z.ltb_ge, Z.eqb_neq.
  split.
  - intros ([_ Hc] & [_ Hs] & [_ Hsp] & Ha & [_ Hp]).
    split_and!; try done. intros Hprod. rewrite Hprod in Hp.
    simpl in Hp. unfold Validator.expected_count in Hc.
    destruct Hp as [Hp|Hp]; lia.
  - intros (Ha & Hc & Hs & Hsp & Hp). split_and!; try done.
    right. destruct (production d); [done|]. simpl. lia.
Qed.

End GateVerdict.
